(** * DeepResearch search tool: streaming classifier, retry controller,
    dispatcher and report aggregator

  A shallow embedding of the core of [search_tool]:

  - [models_impl.py]: [BaseSearchModel._process_streaming_response],
    [_handle_api_error] and [search_with_retry];
  - [parallel_executor.py]: [ParallelModelExecutor._execute_single_model],
    [execute_models] and [get_execution_summary];
  - [report_aggregator.py]: [ReportAggregator.aggregate_results],
    [_calculate_execution_summary] and [_generate_summary_text];
  - [models_registry.py]: [ModelRegistry.register_model],
    [unregister_model] and the lookups;
  - [smart_model_selector.py]: [select_best_model] and
    [select_models_by_threshold];
  - [prebuilt_fast_table.py]: [get_available_models], [get_cache_status]
    and [clear_cache];
  - [main.py]: the first selection of [handle_smart_query] and
    [_handle_failed_models_with_fast_table].

  Conventions.  A Python [str] is a [list ascii], one element per
  character; literals of the source that are not ASCII appear as the
  bytes of their UTF-8 encoding.  Python [int]s are [Z], [float]s
  (wall-clock readings and their differences) are rationals [Q].
  [Optional[T]] is [option T] with [None] for Python's [None].  A call
  that may raise returns a [py_result]; what the network, the clock and
  the thread pool decide is an explicit argument of the function that
  observes it.  Console output is not part of the model.  A dictionary
  read by key is a [gmap], one whose order matters is the list of its
  items, a set is a [gset]. *)

From Stdlib Require Import ZArith QArith Qminmax Lqa Lia Ascii String.
From Stdlib Require Import Sorted.
From Stdlib Require Import DecimalString.
From stdpp Require Import base option list strings gmap.
From Equations Require Import Equations.

Local Open Scope Z_scope.

(** ** Python values *)

Module Py.

Abbreviation str := (list ascii).

(** A string literal of the source. *)
Definition lit (s : string) : str := list_ascii_of_string s.

(** Truth value of a [str]: the empty string is falsy. *)
Definition truthy (s : str) : bool :=
  match s with
  | [] => false
  | _ :: _ => true
  end.

(** Truth value of an [Optional[str]]: [None] and the empty string are
    falsy. *)
Definition truthy_opt (o : option str) : bool :=
  match o with
  | None => false
  | Some s => truthy s
  end.

(** [text.startswith(prefix)] *)
Fixpoint startswith (text prefix : str) : bool :=
  match prefix, text with
  | [], _ => true
  | _ :: _, [] => false
  | p :: prefix', c :: text' =>
      if Ascii.eqb c p then startswith text' prefix' else false
  end.

(** [text.find(sub)] searched from position [i] on, the positions being
    counted from the start of the original string. *)
Fixpoint find_from (text sub : str) (i : Z) : Z :=
  if startswith text sub then i
  else match text with
       | [] => -1
       | _ :: text' => find_from text' sub (i + 1)
       end.

(** [text.find(sub)]: the lowest index where [sub] occurs, [-1] if it
    does not occur. *)
Definition find (text sub : str) : Z := find_from text sub 0.

(** [sub in text] *)
Definition contains (text sub : str) : bool := negb (find text sub =? -1).

(** [text[:i]] and [text[i:]] for an index [0 <= i]. *)
Definition slice_to (text : str) (i : Z) : str := take (Z.to_nat i) text.
Definition slice_from (text : str) (i : Z) : str := drop (Z.to_nat i) text.

(** [len(text)] *)
Definition len {A} (l : list A) : Z := Z.of_nat (length l).

(** [min(l)] of a non-empty list of integers.  Python raises
    [ValueError] on the empty list; the one caller below passes a list
    that is never empty (lemma [cut_candidates_nonempty]). *)
Definition min_of (l : list Z) : Z :=
  match l with
  | [] => 0
  | x :: l' => foldl Z.min x l'
  end.

(** An exception: the name of its class and [str(err)]. *)
Record exn : Type := Exn { exn_type : str; exn_msg : str }.

(** The outcome of a call that may raise. *)
Inductive py_result (A : Type) : Type :=
| Ret (a : A)
| Exc (e : exn).
Arguments Ret {A} a.
Arguments Exc {A} e.

Definition ValueError (m : str) : exn := Exn (lit "ValueError") m.
Definition TimeoutError : exn := Exn (lit "TimeoutError") [].
Definition ZeroDivisionError : exn :=
  Exn (lit "ZeroDivisionError") (lit "division by zero").

Definition is_TimeoutError (e : exn) : bool :=
  bool_decide (exn_type e = lit "TimeoutError").

End Py.
Import Py.

(** ** models_impl.py *)

Module ModelsImpl.

Definition THINK_OPEN : str := lit "<think>".
Definition THINK_CLOSE : str := lit "</think>".

(** The per-call state of [_process_streaming_response]. *)
Record StreamState : Type := mkStreamState {
  msg : str;
  thinking_content : str;
  final_content : str;
  in_thinking : bool
}.

Definition initial_state : StreamState :=
  {| msg := []; thinking_content := []; final_content := [];
     in_thinking := false |}.

Definition add_final (st : StreamState) (segment : str) : StreamState :=
  {| msg := msg st; thinking_content := thinking_content st;
     final_content := final_content st ++ segment;
     in_thinking := in_thinking st |}.

Definition enter_thinking (st : StreamState) : StreamState :=
  {| msg := msg st;
     thinking_content := thinking_content st ++ THINK_OPEN;
     final_content := final_content st;
     in_thinking := true |}.

Definition leave_thinking (st : StreamState) : StreamState :=
  {| msg := msg st;
     thinking_content := thinking_content st ++ THINK_CLOSE;
     final_content := final_content st;
     in_thinking := false |}.

Definition add_msg (st : StreamState) (raw : str) : StreamState :=
  {| msg := msg st ++ raw;
     thinking_content := thinking_content st;
     final_content := final_content st;
     in_thinking := in_thinking st |}.

(** The indices among [start_idx], [end_idx] that are not [-1]. *)
Definition cut_candidates (start_idx end_idx : Z) : list Z :=
  filter (λ i, i ≠ -1) [start_idx; end_idx].

(** The split of [text] at the nearest marker:
    [(segment, rest of text)]. *)
Definition split_at_tag (text : str) : str * str :=
  let start_idx := find text THINK_OPEN in
  let end_idx := find text THINK_CLOSE in
  if (start_idx =? -1) && (end_idx =? -1) then (text, [])
  else
    let cut_idx := min_of (cut_candidates start_idx end_idx) in
    (slice_to text cut_idx, slice_from text cut_idx).

(** The segment goes to [final_content] unless it is empty, or lies in
    a thinking region while thinking is suppressed. *)
Definition emit_segment (suppress_thinking : bool) (st : StreamState)
    (segment : str) : StreamState :=
  if truthy segment then
    if in_thinking st && suppress_thinking then st
    else add_final st segment
  else st.

(** The marker at the head of [text], if any, is consumed and flips the
    region flag. *)
Definition consume_tag (st : StreamState) (text : str)
    : StreamState * str :=
  if startswith text THINK_OPEN then
    (enter_thinking st, slice_from text (len THINK_OPEN))
  else if startswith text THINK_CLOSE then
    (leave_thinking st, slice_from text (len THINK_CLOSE))
  else (st, text).

(** One iteration of the [while text:] loop. *)
Definition scan_step (suppress_thinking : bool) (st : StreamState)
    (text : str) : StreamState * str :=
  let '(segment, text) := split_at_tag text in
  let st := emit_segment suppress_thinking st segment in
  consume_tag st text.

(** The [while text:] loop.  Every iteration shortens [text]: either no
    marker is left and the whole text is taken, or the text is cut at a
    marker, which is then consumed. *)
Equations? scan_loop (suppress_thinking : bool) (st : StreamState)
    (text : str) : StreamState by wf (length text) lt :=
scan_loop suppress_thinking st [] := st;
scan_loop suppress_thinking st (c :: t) :=
  scan_loop suppress_thinking
    (fst (scan_step suppress_thinking st (c :: t)))
    (snd (scan_step suppress_thinking st (c :: t))).
Proof.
  assert (Hlen : forall (p s : str), startswith s p = true ->
                 (length p <= length s)%nat).
  { induction p as [|a p IH]; intros [|b s] H; simpl in *; try lia;
      try discriminate.
    destruct (Ascii.eqb b a); [apply IH in H; lia | discriminate]. }
  assert (Hfind : forall (sub s : str) (i : Z),
            find_from s sub i = -1 \/
            (i <= find_from s sub i /\
             startswith (drop (Z.to_nat (find_from s sub i - i)) s) sub
               = true)).
  { intros sub. induction s as [|b s IH]; intros i; cbn [find_from].
    - destruct (startswith [] sub) eqn:E; [right | left; reflexivity].
      split; [lia|]. replace (Z.to_nat (i - i)) with 0%nat by lia. exact E.
    - destruct (startswith (b :: s) sub) eqn:E.
      + right. split; [lia|]. replace (Z.to_nat (i - i)) with 0%nat by lia.
        exact E.
      + destruct (IH (i + 1)) as [H | [H1 H2]]; [left; exact H | right].
        split; [lia|].
        replace (Z.to_nat (find_from s sub (i + 1) - i))
          with (S (Z.to_nat (find_from s sub (i + 1) - (i + 1)))) by lia.
        exact H2. }
  assert (Hcut : forall (s : str), s <> [] ->
            (length (snd (consume_tag
               (emit_segment suppress_thinking st (fst (split_at_tag s)))
               (snd (split_at_tag s)))) < length s)%nat).
  { intros s Hs. unfold split_at_tag, cut_candidates.
    pose proof (Hfind THINK_OPEN s 0) as Ho.
    pose proof (Hfind THINK_CLOSE s 0) as Hc.
    fold (find s THINK_OPEN) in Ho. fold (find s THINK_CLOSE) in Hc.
    set (a := find s THINK_OPEN) in *. set (b := find s THINK_CLOSE) in *.
    assert (Hdrop : forall k, 0 <= k ->
              startswith (drop (Z.to_nat (k - 0)) s) THINK_OPEN = true \/
              startswith (drop (Z.to_nat (k - 0)) s) THINK_CLOSE = true ->
              (length (snd (consume_tag
                 (emit_segment suppress_thinking st (slice_to s k))
                 (slice_from s k))) < length s)%nat).
    { intros k Hk Hsw. unfold consume_tag, slice_from.
      replace (Z.to_nat (k - 0)) with (Z.to_nat k) in Hsw by lia.
      destruct (startswith (drop (Z.to_nat k) s) THINK_OPEN) eqn:E1.
      - apply Hlen in E1. cbn [snd]. rewrite !length_drop in *.
        change (length THINK_OPEN) with 7%nat in *.
        change (Z.to_nat (len THINK_OPEN)) with 7%nat. lia.
      - destruct Hsw as [Hsw | Hsw]; [discriminate|]. rewrite Hsw.
        apply Hlen in Hsw. cbn [snd]. rewrite !length_drop in *.
        change (length THINK_CLOSE) with 8%nat in *.
        change (Z.to_nat (len THINK_CLOSE)) with 8%nat. lia. }
    destruct (Z.eqb_spec a (-1)) as [Ea | Ea];
      destruct (Z.eqb_spec b (-1)) as [Eb | Eb]; cbn [andb fst snd].
    - destruct s; [congruence|]. cbn. lia.
    - cbn. repeat case_decide; try contradiction. cbn.
      destruct Hc as [? | [? ?]]; [contradiction|]. apply Hdrop; auto.
    - cbn. repeat case_decide; try contradiction. cbn.
      destruct Ho as [? | [? ?]]; [contradiction|]. apply Hdrop; auto.
    - cbn. repeat case_decide; try contradiction. cbn.
      destruct Ho as [? | [? ?]]; [contradiction|].
      destruct Hc as [? | [? ?]]; [contradiction|].
      destruct (Z.min_spec a b) as [[_ ->] | [_ ->]]; apply Hdrop; auto. }
  unfold scan_step. specialize (Hcut (c :: t)).
  destruct (split_at_tag (c :: t)). apply Hcut. discriminate.
Qed.

(** A streamed chunk, by the attributes the loop looks at:
    - [DeltaChunk raw]: [chunk.choices] is not empty and its first choice
      has a truthy [delta]; [raw] is [delta.get('content', '')];
    - [NoDeltaChunk]: [chunk.choices] is not empty, but the first choice
      has no (truthy) [delta];
    - [ContentChunk raw]: no (non-empty) [choices], but a [content]
      attribute, whose value is [raw];
    - [OtherChunk]: neither. *)
Inductive chunk : Type :=
| DeltaChunk (raw : option str)
| NoDeltaChunk
| ContentChunk (raw : option str)
| OtherChunk.

(** What [openai.ChatCompletion.create] returned, by what the code reads
    of it: the chunks that iterating over it yields, whether the
    iteration then raises, the message contents of [completion.choices]
    (empty when the attribute is absent, empty or cannot be read) and
    the [content] attribute ([None] when absent). *)
Record completion : Type := mkCompletion {
  chunks : list chunk;
  stream_raises : bool;
  choices : list (option str);
  content : option (option str)
}.

(** The body of [if raw:], the same in both branches of the source. *)
Definition process_raw (suppress_thinking : bool) (st : StreamState)
    (raw : option str) : StreamState :=
  match raw with
  | Some (c :: t) =>
      scan_loop suppress_thinking (add_msg st (c :: t)) (c :: t)
  | _ => st
  end.

(** The body of [for chunk in completion:]. *)
Definition process_chunk (suppress_thinking : bool) (st : StreamState)
    (ch : chunk) : StreamState :=
  match ch with
  | DeltaChunk raw => process_raw suppress_thinking st raw
  | NoDeltaChunk => st
  | ContentChunk raw => process_raw suppress_thinking st raw
  | OtherChunk => st
  end.

Definition process_chunks (suppress_thinking : bool) (st : StreamState)
    (l : list chunk) : StreamState :=
  foldl (process_chunk suppress_thinking) st l.

(** The [except Exception] handler: [msg] is replaced by what can be
    extracted from the completion object, and kept when nothing can. *)
Definition fallback_msg (c : completion) (m : str) : option str :=
  match choices c with
  | first :: _ => first
  | [] =>
      match content c with
      | Some v => v
      | None => Some m
      end
  end.

Definition _process_streaming_response (c : completion)
    (suppress_thinking : bool) : option str * completion :=
  let st := process_chunks suppress_thinking initial_state (chunks c) in
  let m := if stream_raises c then fallback_msg c (msg st)
           else Some (msg st) in
  if suppress_thinking && truthy (final_content st)
  then (Some (final_content st), c)
  else (m, c).

(** The overload test of [_handle_api_error].  [str.lower] is modelled on
    the ASCII letters. *)
Definition lower_char (c : ascii) : ascii :=
  let n := nat_of_ascii c in
  if ((65 <=? n) && (n <=? 90))%nat then ascii_of_nat (n + 32) else c.

Definition lower (s : str) : str := map lower_char s.

Definition rate_limited (err : exn) : bool :=
  contains (exn_type err) (lit "RateLimitError")
  || contains (exn_msg err) (lit "负载已饱和")
  || contains (lower (exn_msg err)) (lit "overloaded").

Definition _handle_api_error (err : exn) (attempt max_retries : Z)
    : bool * str :=
  let error_msg := exn_msg err in
  if rate_limited err then
    if attempt =? 0 then (true, lit "切换到备用API")
    else (false, lit "所有API提供商都遇到负载问题")
  else if attempt <? max_retries then (true, lit "普通错误，准备重试")
  else (false, lit "达到最大重试次数: " ++ error_msg).

(** *** The retry controller *)

Inductive tier : Type := Primary | Backup.

Global Instance tier_eq_dec : EqDecision tier.
Proof. solve_decision. Defined.

(** What the controller does that the outside can see: a call of the API
    in attempt [attempt] (counted from 0, as [range(3)] does) of a tier,
    and a [time.sleep]. *)
Inductive event : Type :=
| Call (t : tier) (attempt : Z)
| Sleep (seconds : Z).

Global Instance event_eq_dec : EqDecision event.
Proof. solve_decision. Defined.

(** The network: what [openai.ChatCompletion.create] does in a given
    attempt of a given tier. *)
Definition api_env : Type := tier -> Z -> py_result completion.

Section Controller.

(** [_extract_final_answer] rewrites the text of a non-streamed answer
    with regular expressions; nothing below depends on what it returns. *)
Variable _extract_final_answer : str -> str.

Variable api : api_env.
Variables streaming suppress_thinking : bool.

(** The body of [try:] in one attempt: the text and the completion
    object it returns, or the exception that reaches [except]. *)
Definition attempt_body (t : tier) (attempt : Z)
    : py_result (str * completion) :=
  match api t attempt with
  | Exc err => Exc err
  | Ret c =>
      let found :=
        if streaming then Ret (_process_streaming_response c suppress_thinking)
        else
          match choices c with
          | [] => Exc (ValueError (lit "No choices returned from API."))
          | first :: _ =>
              Ret (if suppress_thinking && truthy_opt first
                   then Some (_extract_final_answer (default [] first))
                   else first, c)
          end in
      match found with
      | Exc err => Exc err
      | Ret (Some (ch :: m), c') => Ret (ch :: m, c')
      | Ret (_, _) =>
          Exc (ValueError (lit "No valid response received from API"))
      end
  end.

(** [for attempt in range(3)] over one tier, [attempts] being the values
    of [attempt] still to come: a result as soon as an attempt returns,
    [None] when the loop is left without one. *)
Fixpoint tier_loop (t : tier) (attempts : list Z)
    : option (str * completion) * list event :=
  match attempts with
  | [] => (None, [])
  | attempt :: rest =>
      match attempt_body t attempt with
      | Ret found => (Some found, [Call t attempt])
      | Exc err =>
          if attempt <? 2 then
            let '(found, events) := tier_loop t rest in
            (found, Call t attempt :: Sleep (2 ^ (attempt + 2)) :: events)
          else (None, [Call t attempt])
      end
  end.

Definition range3 : list Z := [0; 1; 2].

Definition search_with_retry
    : (option str * option completion) * list event :=
  match tier_loop Primary range3 with
  | (Some (m, c), events) => ((Some m, Some c), events)
  | (None, events) =>
      match tier_loop Backup range3 with
      | (Some (m, c), events') => ((Some m, Some c), events ++ events')
      | (None, events') => ((None, None), events ++ events')
      end
  end.

End Controller.

(** *** The helpers of the attempts and the one-call variant *)

(** [_extract_final_answer]: [clean_up] stands for the substitutions of
    regular expressions and the final [strip]; the text they leave is
    returned unless it is empty, and then the full response is. *)
Definition _extract_final_answer (clean_up : str -> str)
    (full_response : str) : str :=
  let result := clean_up full_response in
  if truthy result then result else full_response.

(** [HunyuanT1Latest._search_with_wcode_api_simple]: one call of the
    API, whose [try:] body is that of an attempt of [search_with_retry];
    [reply] is what the call does. *)
Definition _search_with_wcode_api_simple (ex : str -> str)
    (reply : py_result completion) (streaming suppress_thinking : bool)
    : option str * option completion :=
  match attempt_body ex (fun _ _ => reply) streaming suppress_thinking
          Primary 0 with
  | Ret (m, c) => (Some m, Some c)
  | Exc _ => (None, None)
  end.

End ModelsImpl.

Import ModelsImpl.

(** ** parallel_executor.py *)

Module ParallelExecutor.

(** The three values the code gives to [ModelResult.status]. *)
Inductive Status : Type := success | error | timeout.

Global Instance Status_eq_dec : EqDecision Status.
Proof. solve_decision. Defined.

Record ModelResult : Type := mkModelResult {
  model_key : str;
  model_name : str;
  response : str;
  execution_time : Q;
  status : Status;
  error_message : option str;
  raw_completion : option completion
}.

(** [s.replace("_", " ")] *)
Definition underscores_to_spaces (s : str) : str :=
  map (fun c => if Ascii.eqb c "_"%char then " "%char else c) s.

Definition is_upper (c : ascii) : bool :=
  let n := nat_of_ascii c in ((65 <=? n) && (n <=? 90))%nat.
Definition is_lower (c : ascii) : bool :=
  let n := nat_of_ascii c in ((97 <=? n) && (n <=? 122))%nat.
Definition upper_char (c : ascii) : ascii :=
  if is_lower c then ascii_of_nat (nat_of_ascii c - 32) else c.

(** [s.title()] on the ASCII letters: a letter that follows a letter is
    lowered, any other letter is raised. *)
Fixpoint title_from (previous_is_cased : bool) (s : str) : str :=
  match s with
  | [] => []
  | c :: s' =>
      if is_lower c || is_upper c then
        (if previous_is_cased then lower_char c else upper_char c)
          :: title_from true s'
      else c :: title_from false s'
  end.

Definition title (s : str) : str := title_from false s.

(** [model_key.replace("_", " ").title()] *)
Definition default_name (model_key : str) : str :=
  title (underscores_to_spaces model_key).

(** A registered model class, by the model identifier its instances call
    the API with. *)
Record model_class : Type := mkModelClass { model_id : str }.

(** The two dictionaries of the registry that the executor reads. *)
Record registry : Type := mkRegistry {
  _models : gmap str model_class;
  _model_info : gmap str (gmap str str)
}.

(** The network as the executor sees it: the API environment of a call
    for a given model and query. *)
Definition network : Type := str -> str -> api_env.

Section Executor.

Variable _extract_final_answer : str -> str.
Variable reg : registry.
Variable net : network.

Definition error_result (model_key : str) (elapsed : Q) (message : str)
    : ModelResult :=
  {| model_key := model_key;
     model_name := default_name model_key;
     response := [];
     execution_time := elapsed;
     status := error;
     error_message := Some message;
     raw_completion := None |}.

(** The end of [try:] in [_execute_single_model]: what is made of the
    pair that the controller returned. *)
Definition record_response (model_key model_name : str)
    (found : option str * option completion) (elapsed : Q)
    : py_result ModelResult :=
  let '(response, completion) := found in
  match response with
  | Some (c :: r) =>
      Ret {| model_key := model_key;
             model_name := model_name;
             response := c :: r;
             execution_time := elapsed;
             status := success;
             error_message := None;
             raw_completion := completion |}
  | _ => Exc (ValueError (lit "模型返回空响应"))
  end.

(** The body of [try:] in [_execute_single_model]; [end_time] is the
    clock read after the controller returned. *)
Definition single_model_body (model_key query : str)
    (suppress_thinking streaming : bool) (start_time end_time : Q)
    : py_result ModelResult :=
  match _models reg !! model_key with
  | None =>
      Exc (ValueError (lit "模型 " ++ model_key ++ lit " 不存在"))
  | Some cls =>
      match _model_info reg !! model_key with
      | None =>
          Exc (Exn (lit "AttributeError")
                   (lit "'NoneType' object has no attribute 'get'"))
      | Some model_info =>
          let model_name :=
            default (default_name model_key) (model_info !! lit "name") in
          record_response model_key model_name
            (fst (search_with_retry _extract_final_answer
                    (net (model_id cls) query) streaming suppress_thinking))
            (end_time - start_time)
      end
  end.

(** [_execute_single_model]; [start_time] and [end_time] are the two
    readings of [time.time()]. *)
Definition _execute_single_model (model_key query : str)
    (suppress_thinking streaming : bool) (start_time end_time : Q)
    : ModelResult :=
  match single_model_body model_key query suppress_thinking streaming
          start_time end_time with
  | Ret result => result
  | Exc e => error_result model_key (end_time - start_time) (exn_msg e)
  end.

(** *** execute_models *)

Definition timeout_result (self_timeout : Z) (model_key : str)
    : ModelResult :=
  {| model_key := model_key;
     model_name := default_name model_key;
     response := [];
     execution_time := inject_Z self_timeout;
     status := timeout;
     error_message := Some (lit "执行超时");
     raw_completion := None |}.

(** The body of the collecting loop for one completed future:
    [outcome] is what [future.result()] does. *)
Definition collect (self_timeout : Z) (results : list ModelResult)
    (model_key : str) (outcome : py_result (option ModelResult))
    : list ModelResult :=
  match outcome with
  | Ret (Some result) => results ++ [result]
  | Ret None => results
  | Exc e =>
      if is_TimeoutError e
      then results ++ [timeout_result self_timeout model_key]
      else results ++ [error_result model_key 0 (exn_msg e)]
  end.

(** The futures are numbered by the position of their key in
    [model_keys]; [finished] lists, in completion order, the futures
    that complete before the global timeout.  [as_completed] yields
    these, and then stops if they are all of them and raises
    [TimeoutError] otherwise. *)
Definition all_finished (n : nat) (finished : list nat) : bool :=
  forallb (fun i => bool_decide (i ∈ finished)) (seq 0 n).

Definition collect_all (self_timeout : Z) (model_keys : list str)
    (future_result : nat -> py_result (option ModelResult))
    (finished : list nat) : list ModelResult :=
  foldl (fun results i =>
           match model_keys !! i with
           | Some model_key =>
               collect self_timeout results model_key (future_result i)
           | None => results
           end) [] finished.

Definition execute_models_with (self_timeout : Z) (model_keys : list str)
    (future_result : nat -> py_result (option ModelResult))
    (finished : list nat) : py_result (list ModelResult) :=
  let results :=
    collect_all self_timeout model_keys future_result finished in
  if all_finished (length model_keys) finished then Ret results
  else Exc TimeoutError.

(** What the future of position [i] computes; [clock i] gives its two
    clock readings. *)
Definition task (model_keys : list str) (query : str)
    (suppress_thinking streaming : bool) (clock : nat -> Q * Q) (i : nat)
    : ModelResult :=
  _execute_single_model (default [] (model_keys !! i)) query
    suppress_thinking streaming (fst (clock i)) (snd (clock i)).

(** [execute_models]: every future runs [_execute_single_model].  The
    pool is built with [max_workers=self.max_workers] (line 63), a
    number that does not depend on [model_keys]: for an empty list of
    keys nothing is submitted and the empty list is returned. *)
Definition execute_models (self_timeout : Z) (model_keys : list str)
    (query : str) (suppress_thinking streaming : bool)
    (clock : nat -> Q * Q) (finished : list nat)
    : py_result (list ModelResult) :=
  execute_models_with self_timeout model_keys
    (fun i =>
       Ret (Some (task model_keys query suppress_thinking streaming
                    clock i)))
    finished.

End Executor.

(** *** get_execution_summary *)

Definition get_successful_results (results : list ModelResult)
    : list ModelResult :=
  filter (fun r => status r = success) results.

Definition get_failed_results (results : list ModelResult)
    : list ModelResult :=
  filter (fun r => status r <> success) results.

(** [a / b] raises when [b] is zero. *)
Definition py_div (a b : Q) : py_result Q :=
  if Qeq_bool b 0 then Exc ZeroDivisionError else Ret (a / b)%Q.

(** [min] and [max] raise on an empty sequence. *)
Definition py_min (l : list Q) : py_result Q :=
  match l with
  | [] => Exc (ValueError (lit "min() arg is an empty sequence"))
  | x :: l' => Ret (foldl Qmin x l')
  end.

Definition py_max (l : list Q) : py_result Q :=
  match l with
  | [] => Exc (ValueError (lit "max() arg is an empty sequence"))
  | x :: l' => Ret (foldl Qmax x l')
  end.

(** [sum(l)], the floats read as rationals: the exact sum, where the
    interpreter rounds. *)
Definition py_sum (l : list Q) : Q := foldl Qplus 0%Q l.

Definition py_bind {A B} (k : A -> py_result B) (c : py_result A)
    : py_result B :=
  match c with
  | Ret a => k a
  | Exc e => Exc e
  end.

Global Instance py_result_bind : MBind py_result := @py_bind.

Record ExecutionSummary : Type := mkExecutionSummary {
  total_models : Z;
  successful : Z;
  failed : Z;
  success_rate : Q;
  average_time : Q;
  min_time : Q;
  max_time : Q
}.

Definition get_execution_summary (results : list ModelResult)
    : py_result ExecutionSummary :=
  let total := len results in
  let successful := len (get_successful_results results) in
  let failed := len (get_failed_results results) in
  let times := map execution_time (get_successful_results results) in
  stats ←
    (if 0 <? successful then
       avg_time ← py_div (py_sum times) (inject_Z successful);
       min_time ← py_min times;
       max_time ← py_max times;
       Ret (avg_time, min_time, max_time)
     else Ret (0%Q, 0%Q, 0%Q));
  rate ←
    (if 0 <? total then py_div (inject_Z successful) (inject_Z total)
     else Ret 0%Q);
  Ret {| total_models := total;
         successful := successful;
         failed := failed;
         success_rate := rate;
         average_time := fst (fst stats);
         min_time := snd (fst stats);
         max_time := snd stats |}.

End ParallelExecutor.

(** ** report_aggregator.py *)

Module ReportAggregator.

Import ParallelExecutor.

(** [re.sub(r"<think>[\s\S]*?</think>", "", text, flags=re.IGNORECASE)],
    letter case being ignored on the ASCII letters: at a position where
    an opening marker starts and a closing marker follows, everything up
    to the end of the first closing marker is left out; [skip] counts the
    characters of a match still to be left out. *)
Fixpoint sub_think_spans (skip : nat) (text : str) : str :=
  match text with
  | [] => []
  | c :: t =>
      match skip with
      | S k => sub_think_spans k t
      | O =>
          if startswith (lower text) THINK_OPEN then
            let k := find (lower (slice_from text (len THINK_OPEN)))
                       THINK_CLOSE in
            if k =? -1 then c :: sub_think_spans 0 t
            else
              sub_think_spans
                (Z.to_nat (len THINK_OPEN + k + len THINK_CLOSE) - 1) t
          else c :: sub_think_spans 0 t
      end
  end.

(** [text.replace(old, "")] for a non-empty [old]: the occurrences of
    [old], found from left to right without overlap, are left out. *)
Fixpoint remove_from (old : str) (skip : nat) (text : str) : str :=
  match text with
  | [] => []
  | c :: t =>
      match skip with
      | S k => remove_from old k t
      | O =>
          if startswith text old then remove_from old (length old - 1) t
          else c :: remove_from old 0 t
      end
  end.

Definition remove_all (text old : str) : str := remove_from old 0 text.

Definition _strip_think (text : str) : str :=
  if truthy text then
    let text := sub_think_spans 0 text in
    remove_all (remove_all text THINK_OPEN) THINK_CLOSE
  else text.

(** The dictionary of [_calculate_execution_summary]. *)
Record execution_summary_dict : Type := mkSummary {
  total_time : Q;
  average_time : Q;
  min_time : Q;
  max_time : Q;
  success_rate : Q
}.

Definition _calculate_execution_summary (results : list ModelResult)
    : py_result execution_summary_dict :=
  let successful_results := filter (fun r => status r = success) results in
  match successful_results with
  | [] =>
      Ret {| total_time := 0; average_time := 0; min_time := 0;
             max_time := 0; success_rate := 0 |}
  | _ :: _ =>
      let times := map execution_time successful_results in
      let total_time := py_sum times in
      avg_time ← py_div total_time (inject_Z (len successful_results));
      min_time ← py_min times;
      max_time ← py_max times;
      success_rate ← py_div (inject_Z (len successful_results))
                             (inject_Z (len results));
      Ret {| total_time := total_time; average_time := avg_time;
             min_time := min_time; max_time := max_time;
             success_rate := success_rate |}
  end.

(** One entry of [model_responses]; [response] holds the stripped text
    of a success and the error message (possibly [None]) otherwise.
    [response_length] is [len] of the stripped text, counted here in
    bytes: the number of characters of an ASCII text. *)
Record response_info : Type := mkResponseInfo {
  model_key : str;
  model_name : str;
  status : Status;
  execution_time : Q;
  response : option str;
  response_length : Z
}.

Definition response_info_of (result : ModelResult) : response_info :=
  {| model_key := ParallelExecutor.model_key result;
     model_name := ParallelExecutor.model_name result;
     status := ParallelExecutor.status result;
     execution_time := ParallelExecutor.execution_time result;
     response :=
       if decide (ParallelExecutor.status result = success)
       then Some (_strip_think (ParallelExecutor.response result))
       else error_message result;
     response_length :=
       if decide (ParallelExecutor.status result = success)
       then len (_strip_think (ParallelExecutor.response result))
       else 0 |}.

(** [sorted(l, key=lambda x: x["response_length"], reverse=True)]: by
    decreasing length, entries of equal length in their original order. *)
Fixpoint insert_by_length (x : response_info) (l : list response_info)
    : list response_info :=
  match l with
  | [] => [x]
  | y :: l' =>
      if response_length y <? response_length x then x :: l
      else y :: insert_by_length x l'
  end.

Definition sorted_by_length (l : list response_info) : list response_info :=
  foldl (fun acc x => insert_by_length x acc) [] l.

Definition newline : str := [ascii_of_nat 10].

(** [str(n)] of an integer. *)
Definition str_of_int (n : Z) : str :=
  lit (NilZero.string_of_int (Z.to_int n)).

Section Aggregator.

(** [f"{x:.2f}"], the formatting of a float with two decimals. *)
Variable fmt_2f : Q -> str.

Definition summary_entry (summary : str) (i : Z) (r : response_info)
    : str :=
  let text := default [] (response r) in
  let summary :=
    summary ++ lit "🤖 " ++ str_of_int i ++ lit ". " ++ model_name r
            ++ newline in
  let summary :=
    summary ++ lit "   ⏱️  耗时：" ++ fmt_2f (execution_time r) ++ lit "秒"
            ++ newline in
  let summary := summary ++ lit "   📝 回答：" ++ slice_to text 200 in
  let summary :=
    if 200 <? len text then summary ++ lit "..." else summary in
  summary ++ newline ++ newline.

Fixpoint summary_entries (summary : str) (i : Z) (l : list response_info)
    : str :=
  match l with
  | [] => summary
  | r :: l' => summary_entries (summary_entry summary i r) (i + 1) l'
  end.

Definition _generate_summary_text (query : str)
    (model_responses : list response_info)
    (execution_summary : execution_summary_dict) : str :=
  let successful_responses :=
    filter (fun r => status r = success) model_responses in
  match successful_responses with
  | [] =>
      lit "❌ 查询失败：所有模型都无法提供有效回答" ++ newline ++ newline
        ++ lit "查询内容：" ++ query
  | _ :: _ =>
      let summary := lit "📋 查询汇总报告" ++ newline in
      let summary :=
        summary ++ lit "🔍 查询内容：" ++ query ++ newline in
      let summary :=
        summary ++ lit "📊 执行统计："
                ++ str_of_int (len successful_responses) ++ lit "/"
                ++ str_of_int (len model_responses) ++ lit " 个模型成功"
                ++ newline in
      let summary :=
        summary ++ lit "⏱️  平均耗时："
                ++ fmt_2f (average_time execution_summary) ++ lit "秒"
                ++ newline ++ newline in
      summary_entries summary 1 (sorted_by_length successful_responses)
  end.

Record AggregatedReport : Type := mkAggregatedReport {
  query : str;
  timestamp : str;
  total_models : Z;
  successful_models : Z;
  failed_models : Z;
  execution_summary : execution_summary_dict;
  model_responses : list response_info;
  summary_text : str
}.

(** [aggregate_results]; [now] is what
    [time.strftime("%Y-%m-%d %H:%M:%S")] returns when it is called. *)
Definition aggregate_results (now : str) (query : str)
    (results : list ModelResult) (format_type : str)
    : py_result AggregatedReport :=
  let total_models := len results in
  let successful_models :=
    len (filter (fun r => ParallelExecutor.status r = success) results) in
  let failed_models :=
    len (filter (fun r => ParallelExecutor.status r <> success) results) in
  execution_summary ← _calculate_execution_summary results;
  let model_responses := map response_info_of results in
  let summary_text :=
    _generate_summary_text query model_responses execution_summary in
  Ret {| query := query;
         timestamp := now;
         total_models := total_models;
         successful_models := successful_models;
         failed_models := failed_models;
         execution_summary := execution_summary;
         model_responses := model_responses;
         summary_text := summary_text |}.

End Aggregator.

End ReportAggregator.

Import ParallelExecutor.

(** ** Python lists *)

Module PyList.

Section Sorting.

Context {A K : Type}.
Variable key : A -> K.
Variable ltb : K -> K -> bool.

(** [sorted(l, key=key, reverse=True)] and
    [l.sort(key=key, reverse=True)], [ltb] being [<] on the keys: by
    decreasing key, entries of equal key in their original order. *)
Fixpoint insert_desc (x : A) (l : list A) : list A :=
  match l with
  | [] => [x]
  | y :: l' =>
      if ltb (key y) (key x) then x :: l else y :: insert_desc x l'
  end.

Definition sorted_desc (l : list A) : list A :=
  foldl (fun acc x => insert_desc x acc) [] l.

End Sorting.

(** [max(l)] of a non-empty sequence: the first of the greatest
    elements. *)
Definition max_from {K} (ltb : K -> K -> bool) (x : K) (l : list K) : K :=
  foldl (fun m y => if ltb m y then y else m) x l.

(** [x < y] on floats that are numbers, read as rationals. *)
Definition float_lt (x y : Q) : bool := negb (Qle_bool y x).

(** [l[:n]] for any integer [n]: a negative [n] counts from the end. *)
Definition slice_to {A} (l : list A) (n : Z) : list A :=
  if 0 <=? n then take (Z.to_nat n) l
  else take (Z.to_nat (len l + n)) l.

End PyList.

(** ** models_registry.py *)

Module ModelsRegistry.

(** The registry before [_register_default_models] runs. *)
Definition empty_registry : registry :=
  {| _models := ∅; _model_info := ∅ |}.

(** A value of an information dictionary: a string, or anything else
    (the class object under ["class"]). *)
Inductive info_value : Type :=
| InfoStr (s : str)
| InfoOther.

Global Instance info_value_eq_dec : EqDecision info_value.
Proof. solve_decision. Defined.

(** The string entries of an information dictionary, which is what the
    registry record keeps of it. *)
Definition strings_of (info : gmap str info_value) : gmap str str :=
  omap (fun v => match v with InfoStr s => Some s | InfoOther => None end)
    info.

(** The information [register_model] makes up when it is given none. *)
Definition default_info (key : str) : gmap str str :=
  {[ lit "name" := default_name key;
     lit "description" := key ++ lit " 模型";
     lit "model_id" := key ]}.

(** What [register_model] stores for [info]; [info] is [None] when the
    argument is left out, and an empty dictionary is falsy like
    [None]. *)
Definition stored_info (key : str) (info : option (gmap str info_value))
    : gmap str str :=
  match info with
  | Some d => if decide (d = ∅) then default_info key else strings_of d
  | None => default_info key
  end.

Definition register_model (reg : registry) (key : str)
    (model_class : ParallelExecutor.model_class)
    (info : option (gmap str info_value)) : registry :=
  {| _models := <[key := model_class]> (_models reg);
     _model_info := <[key := stored_info key info]> (_model_info reg) |}.

(** [unregister_model]: the returned flag and the registry afterwards. *)
Definition unregister_model (reg : registry) (key : str)
    : bool * registry :=
  match _models reg !! key with
  | Some _ =>
      (true, {| _models := delete key (_models reg);
                _model_info := delete key (_model_info reg) |})
  | None => (false, reg)
  end.

Definition get_model_class (reg : registry) (key : str)
    : option ParallelExecutor.model_class :=
  _models reg !! key.

Definition get_model_info (reg : registry) (key : str)
    : option (gmap str str) :=
  _model_info reg !! key.

Definition is_model_available (reg : registry) (key : str) : bool :=
  bool_decide (is_Some (_models reg !! key)).

Definition get_model_count (reg : registry) : Z :=
  Z.of_nat (size (_models reg)).

End ModelsRegistry.

(** ** smart_model_selector.py *)

Module SmartModelSelector.

Section Selector.

(** [F] stands for the floats of the scores and [I] for the values of
    [self.model_info]; the comparisons and the arithmetic of the floats
    are those of the interpreter, whatever they are. *)
Context {F I : Type}.

(** [x < y] and [x <= y] *)
Variable ltb : F -> F -> bool.
Variable leb : F -> F -> bool.
(** [(score / max_score) * 100.0] *)
Variable percent_of : F -> F -> F.
(** [0.0] and [100.0] *)
Variable zero : F.
Variable hundred : F.
(** The items of the dictionary [analyze_query] returns, in its order. *)
Variable analyze_query : str -> list (str * F).
(** [self.model_info.get(model_key, {})] *)
Variable model_info : str -> I.

Definition select_best_model (query : str) (top_k : Z)
    : list (str * F * I) :=
  let scores := analyze_query query in
  let sorted_models := PyList.sorted_desc snd ltb scores in
  map (fun item => (fst item, snd item, model_info (fst item)))
    (PyList.slice_to sorted_models top_k).

(** The single best model, mapped to 100 per cent. *)
Definition best_as_hundred (query : str) : list (str * F * I) :=
  map (fun item => (fst (fst item), hundred, snd item))
    (select_best_model query 1).

Definition select_models_by_threshold (query : str) (threshold_percent : F)
    : list (str * F * I) :=
  let scores := analyze_query query in
  match map snd scores with
  | [] => []
  | first :: others =>
      let max_score := PyList.max_from ltb first others in
      if leb max_score zero then best_as_hundred query
      else
        let normalized :=
          omap (fun item =>
                  let percent := percent_of (snd item) max_score in
                  if leb threshold_percent percent
                  then Some (fst item, percent, model_info (fst item))
                  else None)
            scores in
        let normalized :=
          PyList.sorted_desc (fun item => snd (fst item)) ltb normalized in
        match normalized with
        | [] => best_as_hundred query
        | _ :: _ => normalized
        end
  end.

End Selector.

End SmartModelSelector.

(** ** prebuilt_fast_table.py *)

Module PrebuiltFastTable.

Inductive ModelStatus : Type := UNKNOWN | AVAILABLE | UNAVAILABLE | TESTING.

Global Instance ModelStatus_eq_dec : EqDecision ModelStatus.
Proof. solve_decision. Defined.

(** [status.value] *)
Definition value (s : ModelStatus) : str :=
  match s with
  | UNKNOWN => lit "unknown"
  | AVAILABLE => lit "available"
  | UNAVAILABLE => lit "unavailable"
  | TESTING => lit "testing"
  end.

Record ModelInfo : Type := mkModelInfo {
  model_key : str;
  status : ModelStatus;
  last_test_time : Q;
  response_time : Q;
  test_count : Z;
  success_rate : Q;
  last_success_time : option Q;
  last_failure_time : option Q;
  stability_score : Q
}.

(** The table: the items of [self.model_cache] in the order of the
    dictionary, and [self.last_full_update]. *)
Record PrebuiltFastTable : Type := mkTable {
  model_cache : list (str * ModelInfo);
  last_full_update : Q
}.

(** [get_available_models]; [exclude_keys] is [None] when the argument
    is left out.  [min_count] only decides whether a warning is
    printed. *)
Definition get_available_models (self : PrebuiltFastTable)
    (exclude_keys : option (gset str)) (min_count : Z) : list (str * Q) :=
  let exclude_keys := default ∅ exclude_keys in
  let available_models :=
    omap (fun item =>
            if decide ((fst item ∉ exclude_keys)
                       /\ status (snd item) = AVAILABLE)
            then Some (fst item, stability_score (snd item))
            else None)
      (model_cache self) in
  PyList.sorted_desc snd PyList.float_lt available_models.

(** [status_counts[info.status] += 1] *)
Definition count_one (status_counts : ModelStatus -> Z) (s : ModelStatus)
    : ModelStatus -> Z :=
  fun s' => if decide (s' = s) then status_counts s' + 1
            else status_counts s'.

Record cache_status : Type := mkCacheStatus {
  total_models : Z;
  status_counts : list (str * Z);
  expired_count : Z;
  last_update : Q;
  cache_age : Z
}.

Definition get_cache_status (self : PrebuiltFastTable) : cache_status :=
  let total_models := len (model_cache self) in
  let status_counts :=
    foldl (fun counts item => count_one counts (status (snd item)))
      (fun _ => 0) (model_cache self) in
  {| total_models := total_models;
     status_counts :=
       map (fun k => (value k, status_counts k))
         [AVAILABLE; UNAVAILABLE; UNKNOWN; TESTING];
     expired_count := 0;
     last_update := last_full_update self;
     cache_age := 0 |}.

Definition clear_cache (self : PrebuiltFastTable) : PrebuiltFastTable :=
  {| model_cache :=
       map (fun item =>
              (fst item,
               {| model_key := model_key (snd item);
                  status := UNKNOWN;
                  last_test_time := 0;
                  response_time := 0;
                  test_count := 0;
                  success_rate := 0;
                  last_success_time := None;
                  last_failure_time := None;
                  stability_score := 0 |}))
         (model_cache self);
     last_full_update := 0 |}.

End PrebuiltFastTable.

(** ** main.py *)

Module Main.

Section SmartQuery.

(** The float of a score and the information dictionary of a model, as
    the selector returns them. *)
Context {F I : Type}.

Definition key_of (c : str * F * I) : str := fst (fst c).

(** The loop of [handle_smart_query] that appends the models of
    [top_models] to [threshold_models]. *)
Fixpoint merge_top_models (existing_keys : gset str)
    (threshold_models top_models : list (str * F * I))
    : list (str * F * I) :=
  match top_models with
  | [] => threshold_models
  | c :: top_models' =>
      if decide (key_of c ∈ existing_keys)
      then merge_top_models existing_keys threshold_models top_models'
      else
        let threshold_models := threshold_models ++ [c] in
        if 8 <=? len threshold_models then threshold_models
        else merge_top_models existing_keys threshold_models top_models'
  end.

(** The loop that removes repeated keys: [unique_models] and
    [seen_keys] when it ends. *)
Fixpoint dedupe (unique_models : list (str * F * I)) (seen_keys : gset str)
    (threshold_models : list (str * F * I))
    : list (str * F * I) * gset str :=
  match threshold_models with
  | [] => (unique_models, seen_keys)
  | c :: rest =>
      if decide (key_of c ∈ seen_keys)
      then dedupe unique_models seen_keys rest
      else dedupe (unique_models ++ [c]) (seen_keys ∪ {[key_of c]}) rest
  end.

Definition target_count (n : Z) : Z :=
  if n <=? 3 then n else if n <=? 5 then n else 5.

(** The first selection of [handle_smart_query], from what the two
    calls of the selector return ([top_models] is only asked for when
    it is used): [None] when the method gives up for want of a model,
    otherwise [model_keys] and [seen_keys]. *)
Definition first_selection (threshold_models top_models : list (str * F * I))
    : option (list str * gset str) :=
  let threshold_models :=
    if len threshold_models <? 3
    then merge_top_models
           (list_to_set (map key_of threshold_models))
           threshold_models top_models
    else threshold_models in
  match threshold_models with
  | [] => None
  | _ :: _ =>
      let '(unique_models, seen_keys) := dedupe [] ∅ threshold_models in
      let target_count := target_count (len unique_models) in
      let selected_models := PyList.slice_to unique_models target_count in
      Some (map key_of selected_models, seen_keys)
  end.

End SmartQuery.

(** The replacement keys of [_handle_failed_models_with_fast_table]:
    [None] when the table has no model to offer. *)
Definition replacement_keys (table : PrebuiltFastTable.PrebuiltFastTable)
    (successful_results : list ModelResult) (seen_keys : gset str)
    : option (list str) :=
  let need_count := Z.max (3 - len successful_results) 1 in
  let available_models :=
    PrebuiltFastTable.get_available_models table (Some seen_keys)
      need_count in
  match available_models with
  | [] => None
  | _ :: _ =>
      let max_replacement :=
        Z.min (len available_models) (5 - len successful_results) in
      Some (map fst (PyList.slice_to available_models max_replacement))
  end.

(** [_handle_failed_models_with_fast_table]; [execute_models] is the
    call of the executor on the replacement keys.  The two lists are
    changed in place: the result holds the flag and the lists as the
    caller finds them afterwards.  [Ret (r :: rs)] is the branch
    [if replacement_results:], [Ret []] its [else:] branch and [Exc]
    the handler [except Exception].  The pool of the executor has
    [self.max_workers] workers, 5 as [SearchToolUI.__init__] sets them,
    whatever the number of keys: on an empty list of keys the executor
    submits nothing and returns the empty list. *)
Definition _handle_failed_models_with_fast_table
    (execute_models : list str -> py_result (list ModelResult))
    (table : PrebuiltFastTable.PrebuiltFastTable)
    (failed_results successful_results : list ModelResult)
    (seen_keys : gset str)
    : bool * (list ModelResult * list ModelResult) :=
  match replacement_keys table successful_results seen_keys with
  | None => (false, (failed_results, successful_results))
  | Some keys =>
      match execute_models keys with
      | Ret (r :: rs) =>
          let replacement_results := r :: rs in
          (true,
           (failed_results
              ++ filter (fun r => ParallelExecutor.status r <> success)
                   replacement_results,
            successful_results
              ++ filter (fun r => ParallelExecutor.status r = success)
                   replacement_results))
      | Ret [] => (false, (failed_results, successful_results))
      | Exc _ => (false, (failed_results, successful_results))
      end
  end.

End Main.

(** * Vocabulary of the properties *)

(** ** What the controller is seen to do *)

(** The six attempts in the order the controller makes them. *)
Definition schedule : list (tier * Z) :=
  [(Primary, 0); (Primary, 1); (Primary, 2);
   (Backup, 0); (Backup, 1); (Backup, 2)].

(** Everything the controller does when no attempt succeeds. *)
Definition full_trace : list event :=
  [Call Primary 0; Sleep 4; Call Primary 1; Sleep 8; Call Primary 2;
   Call Backup 0; Sleep 4; Call Backup 1; Sleep 8; Call Backup 2].

(** The calls of a trace. *)
Definition calls_of (events : list event) : list (tier * Z) :=
  omap (fun e => match e with
                 | Call t a => Some (t, a)
                 | Sleep _ => None
                 end) events.

(** The sleeps of a trace. *)
Definition sleeps_of (events : list event) : list Z :=
  omap (fun e => match e with
                 | Call _ _ => None
                 | Sleep s => Some s
                 end) events.

(** The prefix of [l] that ends with its first element satisfying [ok];
    all of [l] when there is none. *)
Fixpoint through_first {A} (ok : A -> bool) (l : list A) : list A :=
  match l with
  | [] => []
  | x :: l' => if ok x then [x] else x :: through_first ok l'
  end.

Section ControllerObservations.

Variable _extract_final_answer : str -> str.
Variable api : api_env.
Variables streaming suppress_thinking : bool.

(** Whether an attempt returns a text. *)
Definition attempt_ok (t : tier) (a : Z) : bool :=
  match attempt_body _extract_final_answer api streaming
          suppress_thinking t a with
  | Ret _ => true
  | Exc _ => false
  end.

Definition call_ok (e : event) : bool :=
  match e with
  | Call t a => attempt_ok t a
  | Sleep _ => false
  end.

(** What the first attempt that returns, among those of [l], returns. *)
Fixpoint first_return (l : list (tier * Z)) : option (str * completion) :=
  match l with
  | [] => None
  | (t, a) :: l' =>
      match attempt_body _extract_final_answer api streaming
              suppress_thinking t a with
      | Ret r => Some r
      | Exc _ => first_return l'
      end
  end.

End ControllerObservations.

(** ** Markers in a text *)

(** A marker starts at position [j] of [text]. *)
Definition open_at (text : str) (j : nat) : bool :=
  startswith (drop j text) THINK_OPEN.

Definition close_at (text : str) (j : nat) : bool :=
  startswith (drop j text) THINK_CLOSE.

Definition tag_at (text : str) (j : nat) : bool :=
  open_at text j || close_at text j.

Definition no_tag (text : str) : Prop := forall j, tag_at text j = false.

(** The first marker of [text] starts at position [j]. *)
Definition first_tag (text : str) (j : nat) : Prop :=
  tag_at text j = true /\ forall k, (k < j)%nat -> tag_at text k = false.

(** ** The pieces a text is cut into *)

(** A piece of a scanned text: a segment, with the region flag in force
    when it is emitted, or a marker (opening or closing). *)
Inductive token : Type :=
| Segment (thinking : bool) (s : str)
| Marker (opening : bool).

Definition segment_token (thinking : bool) (segment : str) : list token :=
  if truthy segment then [Segment thinking segment] else [].

(** The pieces of [text] in the order the loop meets them, the loop
    starting with the region flag [thinking]; [fuel] bounds the number
    of iterations. *)
Fixpoint tokens_fuel (fuel : nat) (thinking : bool) (text : str)
    : list token :=
  match fuel, text with
  | _, [] => []
  | O, _ :: _ => []
  | S fuel', _ :: _ =>
      let '(segment, rest) := split_at_tag text in
      let seg := segment_token thinking segment in
      if startswith rest THINK_OPEN then
        seg ++ Marker true
            :: tokens_fuel fuel' true (slice_from rest (len THINK_OPEN))
      else if startswith rest THINK_CLOSE then
        seg ++ Marker false
            :: tokens_fuel fuel' false (slice_from rest (len THINK_CLOSE))
      else seg ++ tokens_fuel fuel' thinking rest
  end.

Definition tokens (thinking : bool) (text : str) : list token :=
  tokens_fuel (length text) thinking text.


(** What a piece adds to [final_content]. *)
Definition kept (suppress_thinking : bool) (tok : token) : str :=
  match tok with
  | Segment thinking s => if thinking && suppress_thinking then [] else s
  | Marker _ => []
  end.

(** What a piece adds to [thinking_content]. *)
Definition marker_of (tok : token) : str :=
  match tok with
  | Segment _ _ => []
  | Marker true => THINK_OPEN
  | Marker false => THINK_CLOSE
  end.

(** The region flag after a piece. *)
Definition region_step (thinking : bool) (tok : token) : bool :=
  match tok with
  | Segment _ _ => thinking
  | Marker opening => opening
  end.

Definition region_after (thinking : bool) (toks : list token) : bool :=
  foldl region_step thinking toks.

(** The effect of a piece on the state. *)
Definition apply_token (suppress_thinking : bool) (st : StreamState)
    (tok : token) : StreamState :=
  match tok with
  | Segment thinking s =>
      if thinking && suppress_thinking then st else add_final st s
  | Marker true => enter_thinking st
  | Marker false => leave_thinking st
  end.

(** The pieces of a sequence of fragments, each fragment being cut on its
    own, with the region flag carried over. *)
Fixpoint stream_tokens (thinking : bool) (raws : list str) : list token :=
  match raws with
  | [] => []
  | raw :: rest =>
      tokens thinking raw
        ++ stream_tokens (region_after thinking (tokens thinking raw)) rest
  end.

(** The text that a chunk feeds to the loop, empty when it feeds none. *)
Definition chunk_text (ch : chunk) : str :=
  match ch with
  | DeltaChunk (Some raw) => raw
  | ContentChunk (Some raw) => raw
  | _ => []
  end.

(** A piece is well formed: a segment is not empty and holds no
    marker. *)
Definition token_ok (tok : token) : Prop :=
  match tok with
  | Segment _ s =>
      s <> [] /\ contains s THINK_OPEN = false
      /\ contains s THINK_CLOSE = false
  | Marker _ => True
  end.




(** The loop run on each fragment in turn. *)
Definition feed (suppress_thinking : bool) (st : StreamState)
    (raws : list str) : StreamState :=
  foldl (scan_loop suppress_thinking) st raws.

(** ** Markers and fragment boundaries *)



Definition unsplit (a b : str) : Prop :=
  forall j, (j < length a)%nat ->
    (open_at (a ++ b) j = true -> (j + 7 <= length a)%nat)
    /\ (close_at (a ++ b) j = true -> (j + 8 <= length a)%nat).

(** ** Claims of the specification that the code does not meet *)


(** The claim of a fast path, as the specification states it: after a
    rate-limited failure of the first primary attempt, the next call goes
    to the backup tier. *)
Definition fast_path_claim (ex : str -> str) (api : api_env)
    (streaming suppress_thinking : bool) : Prop :=
  forall err,
    api Primary 0 = Exc err -> rate_limited err = true ->
    calls_of (snd (search_with_retry ex api streaming suppress_thinking))
      !! 1%nat = Some (Backup, 0).

(** The backoff schedule as the specification states it: 8 seconds
    before the second attempt of a tier and 16 before the third. *)
Definition claimed_sleeps : list Z := [8; 16; 8; 16].

(** The claim of C7 for one response text. *)
Definition no_markup (text : str) : Prop :=
  contains text THINK_OPEN = false /\ contains text THINK_CLOSE = false.

(** The chunks of a streamed answer whose opening marker comes in two
    fragments: [head] and [tail] are the two parts of the marker,
    [thought] the thinking text and [answer] the text after the closing
    marker. *)
Definition split_open_stream (head tail thought answer : str)
    : list chunk :=
  [DeltaChunk (Some head);
   DeltaChunk (Some (tail ++ thought ++ THINK_CLOSE ++ answer))].

(** ** Sample inputs *)

(** An API that answers every call with the same exception. *)
Definition always_raises (err : exn) : api_env := fun _ _ => Exc err.

Definition overloaded : exn :=
  Exn (lit "RateLimitError") (lit "The server is overloaded").

(** A one-chunk streamed answer. *)
Definition streamed (text : str) : completion :=
  {| chunks := [DeltaChunk (Some text)]; stream_raises := false;
     choices := []; content := None |}.

(** An API whose first primary call is refused for overload and whose
    other calls answer. *)
Definition overloaded_once : api_env :=
  fun t a =>
    match t, a with
    | Primary, 0 => Exc overloaded
    | _, _ => Ret (streamed (lit "4 is the answer"))
    end.

(** A registry with one model, and a network on which every call is
    refused. *)
Definition demo_registry : registry :=
  {| _models := {[ lit "gpt_search" := mkModelClass (lit "gpt-4o-search") ]};
     _model_info :=
       {[ lit "gpt_search" := {[ lit "name" := lit "GPT Search" ]} ]} |}.

Definition refusing_network : network :=
  fun _ _ => always_raises overloaded.

(** A network on which every call is answered by one streamed chunk. *)
Definition answering_network (text : str) : network :=
  fun _ _ _ _ => Ret (streamed text).

(** ** Vocabulary of the further properties *)

(** The seconds a trace sleeps in all. *)
Definition total_sleep (events : list event) : Z :=
  foldr Z.add 0 (sleeps_of events).

(** The texts that a list of chunks feeds to the loop. *)
Definition texts_of (l : list chunk) : list str :=
  filter (fun raw => raw <> []) (map chunk_text l).

(** A text holds no complete marker. *)
Definition marker_free (text : str) : Prop :=
  contains text THINK_OPEN = false /\ contains text THINK_CLOSE = false.

(** ** Order of a sorted list *)

Section SortingVocabulary.

Context {A K : Type}.
Variable key : A -> K.
Variable ltb : K -> K -> bool.

(** [a] may stand before [b] in a list sorted by decreasing key. *)
Definition not_below (a b : A) : Prop := ltb (key a) (key b) = false.

(** The key of [x] is neither below nor above [k]. *)
Definition same_rank (k : K) (x : A) : Prop :=
  ltb k (key x) = false /\ ltb (key x) k = false.

Global Instance same_rank_dec k x : Decision (same_rank k x).
Proof. unfold same_rank. apply _. Defined.

End SortingVocabulary.

(** [x] is the first of the entries of [l] with the greatest key: the
    entries before it are below it, and no entry after it is above
    it. *)
Definition first_greatest {A K} (key : A -> K) (ltb : K -> K -> bool)
    (l : list A) (x : A) : Prop :=
  exists pre post,
    l = pre ++ x :: post
    /\ Forall (fun y => ltb (key y) (key x) = true) pre
    /\ Forall (fun y => ltb (key x) (key y) = false) post.

(** [<] is a strict weak order: what it is on integers and on floats
    that are numbers. *)
Definition strict_weak {K} (ltb : K -> K -> bool) : Prop :=
  (forall a b, ltb a b = true -> ltb b a = false)
  /\ (forall a b c, ltb a b = true -> ltb a c = true \/ ltb c b = true).

(** A text made of ASCII characters only: on such a text the letter
    cases of the interpreter are those of [lower]. *)
Definition ascii_text (text : str) : Prop :=
  Forall (fun c => (nat_of_ascii c < 128)%nat) text.

(** ** Histories of a registry *)

(** A call that changes the registry. *)
Inductive registry_call : Type :=
| Register (key : str) (model_class : ParallelExecutor.model_class)
    (info : option (gmap str ModelsRegistry.info_value))
| Unregister (key : str).

Definition registry_step (reg : registry) (c : registry_call) : registry :=
  match c with
  | Register key model_class info =>
      ModelsRegistry.register_model reg key model_class info
  | Unregister key => snd (ModelsRegistry.unregister_model reg key)
  end.

(** The registry after a sequence of calls. *)
Definition registry_after (reg : registry) (calls : list registry_call)
    : registry :=
  foldl registry_step reg calls.

(** The two dictionaries of the registry have the same keys. *)
Definition consistent (reg : registry) : Prop :=
  forall key, is_Some (_models reg !! key)
              <-> is_Some (_model_info reg !! key).

(** Scores for three models, whatever the query, and the percentage of
    a score on rationals. *)
Definition sample_scores : str -> list (str * Q) :=
  fun _ => [(lit "gpt_search", 2%Q); (lit "kimi_search", 5%Q);
            (lit "deepseek_search", 0%Q)].

Definition sample_percent (score max_score : Q) : Q :=
  (score / max_score * 100)%Q.

(** A table with two AVAILABLE models. *)
Definition sample_table : PrebuiltFastTable.PrebuiltFastTable :=
  PrebuiltFastTable.mkTable
    [(lit "gpt_search",
      PrebuiltFastTable.mkModelInfo (lit "gpt_search")
        PrebuiltFastTable.AVAILABLE 0 2 4 1 None None (9 # 10));
     (lit "kimi_search",
      PrebuiltFastTable.mkModelInfo (lit "kimi_search")
        PrebuiltFastTable.AVAILABLE 0 2 4 1 None None 1)]
    0.

(** * Properties *)

(** ** Strings *)

Section TextFacts.

Implicit Types text sub p a b : str.

Lemma startswith_prefix text p :
  startswith text p = true <-> p `prefix_of` text.
Proof.
  revert text. induction p as [|x p IH]; intros [|c text]; cbn.
  - split; [intros; apply prefix_nil | reflexivity].
  - split; [intros; apply prefix_nil | reflexivity].
  - split; [discriminate | intros H; now apply prefix_nil_not in H].
  - destruct (Ascii.eqb_spec c x) as [-> | Hne].
    + rewrite IH. split; [apply prefix_cons | apply prefix_cons_inv_2].
    + split; [discriminate|]. intros H. apply prefix_cons_inv_1 in H.
      congruence.
Qed.

Lemma startswith_app text p : startswith (p ++ text) p = true.
Proof. apply startswith_prefix. now exists text. Qed.

Lemma startswith_length text p :
  startswith text p = true -> (length p <= length text)%nat.
Proof. rewrite startswith_prefix. apply prefix_length. Qed.

Lemma startswith_take text p :
  startswith text p = true -> take (length p) text = p.
Proof.
  rewrite startswith_prefix. intros [rest ->]. apply take_app_length.
Qed.

Lemma startswith_app_l a b p :
  startswith a p = true -> startswith (a ++ b) p = true.
Proof. rewrite !startswith_prefix. apply prefix_app_r. Qed.

Lemma startswith_app_inv a b p :
  (length p <= length a)%nat ->
  startswith (a ++ b) p = true -> startswith a p = true.
Proof.
  rewrite !startswith_prefix. intros Hlen [rest Hrest].
  exists (take (length a - length p) rest).
  apply (f_equal (take (length a))) in Hrest.
  rewrite take_app_length in Hrest. rewrite Hrest at 1.
  rewrite take_app. rewrite take_ge by lia. reflexivity.
Qed.

(** [find] returns [-1] only when [sub] occurs nowhere, and otherwise
    the position of the first occurrence. *)
Lemma find_from_spec text sub i :
  0 <= i ->
  (find_from text sub i = -1
   /\ forall j, startswith (drop j text) sub = false)
  \/ (exists k : nat,
        find_from text sub i = i + Z.of_nat k
        /\ startswith (drop k text) sub = true
        /\ forall j, (j < k)%nat -> startswith (drop j text) sub = false).
Proof.
  revert i. induction text as [|c text IH]; intros i Hi; cbn [find_from].
  - destruct (startswith [] sub) eqn:E.
    + right. exists 0%nat. split; [lia|]. split; [exact E|]. lia.
    + left. split; [reflexivity|]. intros j. now rewrite drop_nil.
  - destruct (startswith (c :: text) sub) eqn:E.
    + right. exists 0%nat. split; [lia|]. split; [exact E|]. lia.
    + destruct (IH (i + 1)) as [[H1 H2] | (k & H1 & H2 & H3)]; [lia| |].
      * left. split; [exact H1|]. intros [|j]; [exact E | apply H2].
      * right. exists (S k). split; [lia|]. split; [exact H2|].
        intros [|j] Hj; [exact E | apply H3; lia].
Qed.

Lemma find_spec text sub :
  (find text sub = -1 /\ forall j, startswith (drop j text) sub = false)
  \/ (exists k : nat,
        find text sub = Z.of_nat k
        /\ startswith (drop k text) sub = true
        /\ forall j, (j < k)%nat -> startswith (drop j text) sub = false).
Proof. apply (find_from_spec text sub 0). lia. Qed.

Lemma find_none text sub :
  (forall j, startswith (drop j text) sub = false) -> find text sub = -1.
Proof.
  intros Hnone. destruct (find_spec text sub) as [[H _] | (k & _ & H & _)];
    [exact H | now rewrite Hnone in H].
Qed.

Lemma find_first text sub (k : nat) :
  startswith (drop k text) sub = true ->
  (forall j, (j < k)%nat -> startswith (drop j text) sub = false) ->
  find text sub = Z.of_nat k.
Proof.
  intros Hk Hbefore.
  destruct (find_spec text sub) as [[_ H] | (k' & -> & Hk' & Hbefore')].
  - now rewrite H in Hk.
  - destruct (lt_eq_lt_dec k k') as [[Hlt | ->] | Hgt]; [|reflexivity|].
    + now rewrite (Hbefore' k Hlt) in Hk.
    + now rewrite (Hbefore k' Hgt) in Hk'.
Qed.

Lemma contains_false text sub :
  contains text sub = false <->
  forall j, startswith (drop j text) sub = false.
Proof.
  unfold contains. split.
  - intros H. destruct (find_spec text sub) as [[_ Hn] | (k & Hk & _)];
      [exact Hn|].
    rewrite Hk in H. apply negb_false_iff, Z.eqb_eq in H. lia.
  - intros H. now rewrite (find_none _ _ H).
Qed.

End TextFacts.

(** ** Markers in a text *)

Section TagFacts.

Implicit Types text a b : str.

Lemma open_not_close text :
  startswith text THINK_OPEN = true -> startswith text THINK_CLOSE = false.
Proof.
  destruct text as [|c1 [|c2 text]]; cbn; try reflexivity.
  - destruct (Ascii.eqb c1 "<"); reflexivity.
  - destruct (Ascii.eqb c1 "<"); [|discriminate].
    destruct (Ascii.eqb_spec c2 "t") as [-> | ?]; [reflexivity | discriminate].
Qed.

Lemma open_at_length text j :
  open_at text j = true -> (j + 7 <= length text)%nat.
Proof.
  unfold open_at. intros H. apply startswith_length in H.
  rewrite length_drop in H. change (length THINK_OPEN) with 7%nat in H. lia.
Qed.

Lemma close_at_length text j :
  close_at text j = true -> (j + 8 <= length text)%nat.
Proof.
  unfold close_at. intros H. apply startswith_length in H.
  rewrite length_drop in H. change (length THINK_CLOSE) with 8%nat in H.
  lia.
Qed.

Lemma tag_at_length text j :
  tag_at text j = true -> (j + 7 <= length text)%nat.
Proof.
  unfold tag_at. intros [H | H]%orb_true_iff.
  - now apply open_at_length.
  - apply close_at_length in H. lia.
Qed.

Lemma tag_at_false text j :
  tag_at text j = false -> open_at text j = false /\ close_at text j = false.
Proof. unfold tag_at. apply orb_false_iff. Qed.

Lemma no_tag_nil : no_tag [].
Proof. intros j. unfold tag_at, open_at, close_at. now rewrite drop_nil. Qed.

Lemma split_at_tag_none text :
  no_tag text -> split_at_tag text = (text, []).
Proof.
  intros Hnone. unfold split_at_tag.
  rewrite (find_none text THINK_OPEN), (find_none text THINK_CLOSE).
  - reflexivity.
  - intros j. apply (tag_at_false _ _ (Hnone j)).
  - intros j. apply (tag_at_false _ _ (Hnone j)).
Qed.

Lemma cut_candidates_cases (a b : Z) :
  cut_candidates a b
  = (if a =? -1 then [] else [a]) ++ (if b =? -1 then [] else [b]).
Proof.
  unfold cut_candidates. cbn.
  destruct (Z.eqb_spec a (-1)), (Z.eqb_spec b (-1));
    repeat case_decide; try contradiction; reflexivity.
Qed.

(** In the branch of [split_at_tag] that takes the minimum, there is
    something to take it of. *)
Lemma cut_candidates_nonempty (a b : Z) :
  (a =? -1) && (b =? -1) = false -> cut_candidates a b <> [].
Proof.
  rewrite cut_candidates_cases.
  destruct (a =? -1), (b =? -1); cbn; congruence.
Qed.

Lemma split_at_tag_first text j :
  first_tag text j -> split_at_tag text = (take j text, drop j text).
Proof.
  intros [Hj Hbefore]. unfold split_at_tag, cut_candidates, slice_to,
    slice_from.
  assert (Hopen : forall k, (k < j)%nat ->
            startswith (drop k text) THINK_OPEN = false)
    by (intros k Hk; apply (tag_at_false _ _ (Hbefore k Hk))).
  assert (Hclose : forall k, (k < j)%nat ->
            startswith (drop k text) THINK_CLOSE = false)
    by (intros k Hk; apply (tag_at_false _ _ (Hbefore k Hk))).
  assert (Hnat : forall n : nat, (Z.of_nat n =? -1) = false)
    by (intros; apply Z.eqb_neq; lia).
  unfold tag_at in Hj. apply orb_true_iff in Hj.
  fold (cut_candidates (find text THINK_OPEN) (find text THINK_CLOSE)).
  rewrite cut_candidates_cases.
  destruct Hj as [Hj | Hj].
  - rewrite (find_first text THINK_OPEN j Hj Hopen).
    destruct (find_spec text THINK_CLOSE)
      as [[-> _] | (k & -> & Hk & Hkbefore)].
    + rewrite Hnat. cbn. now rewrite Nat2Z.id.
    + assert (j < k)%nat.
      { destruct (lt_eq_lt_dec j k) as [[? | ->] | Hgt]; [assumption| |].
        - unfold open_at in Hj. apply open_not_close in Hj. congruence.
        - rewrite (Hclose k Hgt) in Hk. discriminate. }
      rewrite !Hnat. cbn. rewrite Z.min_l by lia. now rewrite Nat2Z.id.
  - rewrite (find_first text THINK_CLOSE j Hj Hclose).
    destruct (find_spec text THINK_OPEN)
      as [[-> _] | (k & -> & Hk & Hkbefore)].
    + rewrite Hnat. cbn. now rewrite Nat2Z.id.
    + assert (j < k)%nat.
      { destruct (lt_eq_lt_dec j k) as [[? | ->] | Hgt]; [assumption| |].
        - apply open_not_close in Hk. unfold close_at in Hj. congruence.
        - rewrite (Hopen k Hgt) in Hk. discriminate. }
      rewrite !Hnat. cbn. rewrite Z.min_r by lia. now rewrite Nat2Z.id.
Qed.

(** A text has no marker or a first one. *)
Lemma tag_cases text : no_tag text \/ exists j, first_tag text j.
Proof.
  destruct (find_spec text THINK_OPEN) as [[_ Ho] | (ko & _ & Ho & Hob)];
    destruct (find_spec text THINK_CLOSE) as [[_ Hc] | (kc & _ & Hc & Hcb)].
  - left. intros j. unfold tag_at, open_at, close_at.
    now rewrite Ho, Hc.
  - right. exists kc. split.
    + unfold tag_at, close_at. rewrite Hc. apply orb_true_r.
    + intros k Hk. unfold tag_at, open_at, close_at.
      now rewrite Ho, (Hcb k Hk).
  - right. exists ko. split.
    + unfold tag_at, open_at. now rewrite Ho.
    + intros k Hk. unfold tag_at, open_at, close_at.
      now rewrite Hc, (Hob k Hk).
  - right. exists (Nat.min ko kc). split.
    + unfold tag_at, open_at, close_at.
      destruct (Nat.min_spec ko kc) as [[_ ->] | [_ ->]].
      * now rewrite Ho.
      * rewrite Hc. apply orb_true_r.
    + intros k Hk. unfold tag_at, open_at, close_at.
      rewrite (Hob k), (Hcb k) by lia. reflexivity.
Qed.

(** Induction along the markers of a text, the way the loop walks it. *)
Lemma tag_ind (P : str -> Prop) :
  P [] ->
  (forall text, text <> [] -> no_tag text -> P text) ->
  (forall text j, first_tag text j -> open_at text j = true ->
                  P (drop (j + 7) text) -> P text) ->
  (forall text j, first_tag text j -> close_at text j = true ->
                  P (drop (j + 8) text) -> P text) ->
  forall text, P text.
Proof.
  intros Hnil Hplain Hopen Hclose text.
  remember (length text) as n eqn:Hn. revert text Hn.
  induction n as [n IH] using lt_wf_ind. intros text ->.
  destruct (tag_cases text) as [Hnone | [j Hfirst]].
  - destruct text; [exact Hnil | apply Hplain; [discriminate | exact Hnone]].
  - destruct (open_at text j) eqn:Ho.
    + apply (Hopen text j Hfirst Ho).
      apply (IH (length (drop (j + 7) text))); [|reflexivity].
      apply open_at_length in Ho. rewrite length_drop. lia.
    + assert (Hc : close_at text j = true).
      { destruct Hfirst as [Ht _]. unfold tag_at in Ht. now rewrite Ho in Ht. }
      apply (Hclose text j Hfirst Hc).
      apply (IH (length (drop (j + 8) text))); [|reflexivity].
      apply close_at_length in Hc. rewrite length_drop. lia.
Qed.

End TagFacts.

(** ** The loop, marker by marker *)

Section LoopFacts.

Variable suppress_thinking : bool.
Implicit Types (st : StreamState) (text : str).

Lemma scan_loop_no_tag st text :
  no_tag text -> scan_loop suppress_thinking st text
                 = emit_segment suppress_thinking st text.
Proof.
  intros Hnone. destruct text as [|c t].
  - now rewrite scan_loop_equation_1.
  - rewrite scan_loop_equation_2. unfold scan_step.
    rewrite (split_at_tag_none _ Hnone). cbn [consume_tag fst snd].
    unfold consume_tag. cbn [startswith THINK_OPEN THINK_CLOSE lit
                              list_ascii_of_string].
    now rewrite scan_loop_equation_1.
Qed.

Lemma first_tag_nonempty text j : first_tag text j -> text <> [].
Proof.
  intros [H _] ->. rewrite (no_tag_nil j) in H. discriminate.
Qed.

Lemma scan_loop_open st text j :
  first_tag text j -> open_at text j = true ->
  scan_loop suppress_thinking st text
  = scan_loop suppress_thinking
      (enter_thinking (emit_segment suppress_thinking st (take j text)))
      (drop (j + 7) text).
Proof.
  intros Hfirst Ho. pose proof (first_tag_nonempty _ _ Hfirst) as Hne.
  destruct text as [|c t]; [congruence|].
  rewrite scan_loop_equation_2. unfold scan_step.
  rewrite (split_at_tag_first _ _ Hfirst). unfold consume_tag.
  unfold open_at in Ho. rewrite Ho. cbn [fst snd].
  unfold slice_from. change (Z.to_nat (len THINK_OPEN)) with 7%nat.
  now rewrite drop_drop.
Qed.

Lemma scan_loop_close st text j :
  first_tag text j -> close_at text j = true ->
  scan_loop suppress_thinking st text
  = scan_loop suppress_thinking
      (leave_thinking (emit_segment suppress_thinking st (take j text)))
      (drop (j + 8) text).
Proof.
  intros Hfirst Hc. pose proof (first_tag_nonempty _ _ Hfirst) as Hne.
  destruct text as [|c t]; [congruence|].
  rewrite scan_loop_equation_2. unfold scan_step.
  rewrite (split_at_tag_first _ _ Hfirst). unfold consume_tag.
  unfold close_at in Hc. rewrite Hc.
  destruct (startswith (drop j (c :: t)) THINK_OPEN) eqn:Ho.
  { apply open_not_close in Ho. congruence. }
  cbn [fst snd].
  unfold slice_from. change (Z.to_nat (len THINK_CLOSE)) with 8%nat.
  now rewrite drop_drop.
Qed.

End LoopFacts.

(** ** The pieces a text is cut into *)

Section TokenFacts.

Variable suppress_thinking : bool.
Implicit Types (st : StreamState) (text : str) (thinking : bool).

Lemma tokens_fuel_no_tag fuel thinking text :
  text <> [] -> no_tag text -> (length text <= fuel)%nat ->
  tokens_fuel fuel thinking text = [Segment thinking text].
Proof.
  intros Hne Hnone Hfuel. destruct text as [|c t]; [congruence|].
  destruct fuel as [|fuel]; [cbn in Hfuel; lia|].
  cbn [tokens_fuel]. rewrite (split_at_tag_none _ Hnone).
  cbn [startswith THINK_OPEN THINK_CLOSE lit list_ascii_of_string].
  unfold segment_token. cbn. now destruct fuel.
Qed.

Lemma tokens_fuel_open fuel thinking text j :
  first_tag text j -> open_at text j = true -> (length text <= fuel)%nat ->
  tokens_fuel fuel thinking text
  = segment_token thinking (take j text)
      ++ Marker true :: tokens_fuel (fuel - 1) true (drop (j + 7) text).
Proof.
  intros Hfirst Ho Hfuel. pose proof (first_tag_nonempty _ _ Hfirst) as Hne.
  destruct text as [|c t]; [congruence|].
  destruct fuel as [|fuel]; [cbn in Hfuel; lia|].
  cbn [tokens_fuel]. rewrite (split_at_tag_first _ _ Hfirst).
  unfold open_at in Ho. rewrite Ho. unfold slice_from.
  change (Z.to_nat (len THINK_OPEN)) with 7%nat. rewrite drop_drop.
  now replace (S fuel - 1)%nat with fuel by lia.
Qed.

Lemma tokens_fuel_close fuel thinking text j :
  first_tag text j -> close_at text j = true -> (length text <= fuel)%nat ->
  tokens_fuel fuel thinking text
  = segment_token thinking (take j text)
      ++ Marker false :: tokens_fuel (fuel - 1) false (drop (j + 8) text).
Proof.
  intros Hfirst Hc Hfuel. pose proof (first_tag_nonempty _ _ Hfirst) as Hne.
  destruct text as [|c t]; [congruence|].
  destruct fuel as [|fuel]; [cbn in Hfuel; lia|].
  cbn [tokens_fuel]. rewrite (split_at_tag_first _ _ Hfirst).
  unfold close_at in Hc. rewrite Hc.
  destruct (startswith (drop j (c :: t)) THINK_OPEN) eqn:Ho.
  { apply open_not_close in Ho. congruence. }
  unfold slice_from.
  change (Z.to_nat (len THINK_CLOSE)) with 8%nat. rewrite drop_drop.
  now replace (S fuel - 1)%nat with fuel by lia.
Qed.

(** The length of the text is fuel enough. *)
Lemma tokens_fuel_enough text :
  forall fuel thinking,
    (length text <= fuel)%nat ->
    tokens_fuel fuel thinking text = tokens thinking text.
Proof.
  unfold tokens. induction text as [| text Hne Hnone | text j Hfirst Ho IH
                                    | text j Hfirst Hc IH] using tag_ind;
    intros fuel thinking Hfuel.
  - now destruct fuel.
  - now rewrite !tokens_fuel_no_tag.
  - rewrite !(tokens_fuel_open _ _ _ _ Hfirst Ho) by lia.
    apply open_at_length in Ho.
    rewrite (IH (fuel - 1)%nat), (IH (length text - 1)%nat);
      [reflexivity | |]; rewrite length_drop; lia.
  - rewrite !(tokens_fuel_close _ _ _ _ Hfirst Hc) by lia.
    apply close_at_length in Hc.
    rewrite (IH (fuel - 1)%nat), (IH (length text - 1)%nat);
      [reflexivity | |]; rewrite length_drop; lia.
Qed.

Lemma tokens_nil thinking : tokens thinking [] = [].
Proof. reflexivity. Qed.

Lemma tokens_no_tag thinking text :
  text <> [] -> no_tag text -> tokens thinking text = [Segment thinking text].
Proof. intros. now apply tokens_fuel_no_tag. Qed.

Lemma tokens_open thinking text j :
  first_tag text j -> open_at text j = true ->
  tokens thinking text
  = segment_token thinking (take j text)
      ++ Marker true :: tokens true (drop (j + 7) text).
Proof.
  intros Hfirst Ho. unfold tokens at 1.
  rewrite (tokens_fuel_open _ _ _ _ Hfirst Ho) by lia.
  rewrite tokens_fuel_enough; [reflexivity|].
  apply open_at_length in Ho. rewrite length_drop. lia.
Qed.

Lemma tokens_close thinking text j :
  first_tag text j -> close_at text j = true ->
  tokens thinking text
  = segment_token thinking (take j text)
      ++ Marker false :: tokens false (drop (j + 8) text).
Proof.
  intros Hfirst Hc. unfold tokens at 1.
  rewrite (tokens_fuel_close _ _ _ _ Hfirst Hc) by lia.
  rewrite tokens_fuel_enough; [reflexivity|].
  apply close_at_length in Hc. rewrite length_drop. lia.
Qed.

Lemma emit_segment_tokens st segment :
  emit_segment suppress_thinking st segment
  = foldl (apply_token suppress_thinking) st
      (segment_token (in_thinking st) segment).
Proof.
  unfold emit_segment, segment_token. now destruct (truthy segment).
Qed.

Lemma in_thinking_emit st segment :
  in_thinking (emit_segment suppress_thinking st segment) = in_thinking st.
Proof.
  unfold emit_segment. destruct (truthy segment); [|reflexivity].
  now destruct (in_thinking st && suppress_thinking).
Qed.

(** The loop does to the state what the pieces of the text say. *)
Lemma scan_loop_tokens text :
  forall st,
    scan_loop suppress_thinking st text
    = foldl (apply_token suppress_thinking) st
        (tokens (in_thinking st) text).
Proof.
  induction text as [| text Hne Hnone | text j Hfirst Ho IH
                     | text j Hfirst Hc IH] using tag_ind; intros st.
  - now rewrite scan_loop_equation_1.
  - rewrite (scan_loop_no_tag _ _ _ Hnone), (tokens_no_tag _ _ Hne Hnone).
    unfold emit_segment. destruct text; [congruence | reflexivity].
  - rewrite (scan_loop_open _ _ _ _ Hfirst Ho), (tokens_open _ _ _ Hfirst Ho).
    rewrite IH, foldl_app. cbn [foldl apply_token in_thinking enter_thinking].
    now rewrite emit_segment_tokens.
  - rewrite (scan_loop_close _ _ _ _ Hfirst Hc),
      (tokens_close _ _ _ Hfirst Hc).
    rewrite IH, foldl_app. cbn [foldl apply_token in_thinking leave_thinking].
    now rewrite emit_segment_tokens.
Qed.

End TokenFacts.

Local Arguments THINK_OPEN : simpl never.
Local Arguments THINK_CLOSE : simpl never.

Section StreamFacts.

Variable suppress_thinking : bool.
Implicit Types (st : StreamState) (text : str) (thinking : bool).

(** The state after a list of pieces, field by field. *)
Lemma apply_tokens_fields (toks : list token) :
  forall st,
    let st' := foldl (apply_token suppress_thinking) st toks in
    msg st' = msg st
    /\ thinking_content st'
       = thinking_content st ++ concat (map marker_of toks)
    /\ final_content st'
       = final_content st ++ concat (map (kept suppress_thinking) toks)
    /\ in_thinking st' = region_after (in_thinking st) toks.
Proof.
  induction toks as [|tok toks IH]; intros st; cbn.
  - now rewrite !app_nil_r.
  - destruct (IH (apply_token suppress_thinking st tok))
      as (Hm & Ht & Hf & Hi).
    cbn in Hm, Ht, Hf, Hi. rewrite Hm, Ht, Hf, Hi.
    destruct tok as [thinking s | [|]]; cbn.
    + destruct (thinking && suppress_thinking); cbn;
        rewrite <- ?app_assoc; auto.
    + rewrite <- ?app_assoc; auto.
    + rewrite <- ?app_assoc; auto.
Qed.




Lemma no_tag_contains text :
  no_tag text ->
  contains text THINK_OPEN = false /\ contains text THINK_CLOSE = false.
Proof.
  intros Hnone. rewrite !contains_false.
  split; intros j; apply (tag_at_false _ _ (Hnone j)).
Qed.

Lemma startswith_drop_take text p j k :
  startswith (drop k (take j text)) p = true ->
  startswith (drop k text) p = true.
Proof.
  intros H. rewrite <- (take_drop j text) at 1.
  destruct (decide (k <= length (take j text))%nat) as [Hle | Hgt].
  - rewrite drop_app_le by exact Hle. now apply startswith_app_l.
  - rewrite drop_ge in H by lia. destruct p; [|discriminate].
    now destruct (drop k _).
Qed.

Lemma no_tag_before_first text j : first_tag text j -> no_tag (take j text).
Proof.
  intros [_ Hbefore] k.
  destruct (tag_at (take j text) k) eqn:E; [|reflexivity].
  pose proof (tag_at_length _ _ E) as Hlen. rewrite length_take in Hlen.
  rewrite <- (Hbefore k) by lia. symmetry.
  unfold tag_at, open_at, close_at in *.
  apply orb_true_iff in E. apply orb_true_iff.
  destruct E as [E | E]; [left | right];
    now apply (startswith_drop_take text _ j k).
Qed.

Lemma segment_token_ok thinking segment :
  no_tag segment -> Forall token_ok (segment_token thinking segment).
Proof.
  intros Hnone. unfold segment_token. destruct segment as [|c s]; cbn.
  - constructor.
  - repeat constructor; [discriminate | apply (no_tag_contains _ Hnone)..].
Qed.

(** Every segment of a text is free of markers and not empty. *)
Lemma tokens_ok text :
  forall thinking, Forall token_ok (tokens thinking text).
Proof.
  induction text as [| text Hne Hnone | text j Hfirst Ho IH
                     | text j Hfirst Hc IH] using tag_ind; intros thinking.
  - constructor.
  - rewrite (tokens_no_tag _ _ Hne Hnone).
    repeat constructor; [exact Hne | apply (no_tag_contains _ Hnone)..].
  - rewrite (tokens_open _ _ _ Hfirst Ho). apply Forall_app. split.
    + apply segment_token_ok. now apply no_tag_before_first.
    + constructor; [exact I | apply IH].
  - rewrite (tokens_close _ _ _ Hfirst Hc). apply Forall_app. split.
    + apply segment_token_ok. now apply no_tag_before_first.
    + constructor; [exact I | apply IH].
Qed.






Lemma stream_tokens_ok (raws : list str) :
  forall thinking, Forall token_ok (stream_tokens thinking raws).
Proof.
  induction raws as [|raw rest IH]; intros thinking; cbn; [constructor|].
  apply Forall_app. split; [apply tokens_ok | apply IH].
Qed.

Lemma process_chunk_text st (ch : chunk) :
  process_chunk suppress_thinking st ch
  = match chunk_text ch with
    | [] => st
    | c :: t => scan_loop suppress_thinking (add_msg st (c :: t)) (c :: t)
    end.
Proof. destruct ch as [[[|? ?]|] | | [[|? ?]|] |]; reflexivity. Qed.

(** The state after a sequence of chunks, field by field. *)
Lemma process_chunks_fields (l : list chunk) :
  forall st,
    let st' := process_chunks suppress_thinking st l in
    let toks := stream_tokens (in_thinking st) (map chunk_text l) in
    msg st' = msg st ++ concat (map chunk_text l)
    /\ thinking_content st'
       = thinking_content st ++ concat (map marker_of toks)
    /\ final_content st'
       = final_content st ++ concat (map (kept suppress_thinking) toks)
    /\ in_thinking st' = region_after (in_thinking st) toks.
Proof.
  unfold process_chunks.
  induction l as [|ch l IH]; intros st; cbn [foldl map concat stream_tokens].
  - cbn. now rewrite !app_nil_r.
  - destruct (IH (process_chunk suppress_thinking st ch))
      as (Hm & Ht & Hf & Hi).
    cbn zeta in Hm, Ht, Hf, Hi. cbn zeta.
    rewrite Hm, Ht, Hf, Hi. clear Hm Ht Hf Hi IH.
    rewrite process_chunk_text.
    destruct (chunk_text ch) as [|c t] eqn:Hraw.
    + rewrite tokens_nil. cbn. auto.
    + rewrite scan_loop_tokens.
      destruct (apply_tokens_fields
                  (tokens (in_thinking (add_msg st (c :: t))) (c :: t))
                  (add_msg st (c :: t))) as (Hm & Ht & Hf & Hi).
      cbn zeta in Hm, Ht, Hf, Hi. rewrite Hm, Ht, Hf, Hi.
      cbn [add_msg msg thinking_content final_content in_thinking].
      rewrite !map_app, !concat_app, !app_assoc.
      unfold region_after. rewrite foldl_app. auto.
Qed.

End StreamFacts.

(** ** Markers and fragment boundaries *)

Section BoundaryFacts.

Variable suppress_thinking : bool.
Implicit Types (st : StreamState) (a b text : str).


Lemma open_at_app_l a b j : open_at a j = true -> open_at (a ++ b) j = true.
Proof.
  intros H. pose proof (open_at_length _ _ H). unfold open_at in *.
  rewrite drop_app_le by lia. now apply startswith_app_l.
Qed.

Lemma close_at_app_l a b j :
  close_at a j = true -> close_at (a ++ b) j = true.
Proof.
  intros H. pose proof (close_at_length _ _ H). unfold close_at in *.
  rewrite drop_app_le by lia. now apply startswith_app_l.
Qed.

Lemma open_at_app_inv a b j :
  (j + 7 <= length a)%nat -> open_at (a ++ b) j = true -> open_at a j = true.
Proof.
  unfold open_at. intros Hlen. rewrite drop_app_le by lia.
  apply startswith_app_inv. rewrite length_drop.
  change (length THINK_OPEN) with 7%nat. lia.
Qed.

Lemma close_at_app_inv a b j :
  (j + 8 <= length a)%nat ->
  close_at (a ++ b) j = true -> close_at a j = true.
Proof.
  unfold close_at. intros Hlen. rewrite drop_app_le by lia.
  apply startswith_app_inv. rewrite length_drop.
  change (length THINK_CLOSE) with 8%nat. lia.
Qed.

Lemma tag_at_app_r a b j : tag_at (a ++ b) (length a + j) = tag_at b j.
Proof. unfold tag_at, open_at, close_at. now rewrite drop_app_add. Qed.

(** With no marker across the boundary, a marker of [a ++ b] that starts
    in [a] is a marker of [a]. *)
Lemma tag_at_app_unsplit a b j :
  unsplit a b -> (j < length a)%nat -> tag_at (a ++ b) j = tag_at a j.
Proof.
  intros Hun Hj. destruct (Hun j Hj) as [Ho Hc]. unfold tag_at.
  f_equal.
  - destruct (open_at (a ++ b) j) eqn:E.
    + symmetry. apply (open_at_app_inv a b); auto.
    + destruct (open_at a j) eqn:E'; [|reflexivity].
      apply (open_at_app_l a b) in E'. congruence.
  - destruct (close_at (a ++ b) j) eqn:E.
    + symmetry. apply (close_at_app_inv a b); auto.
    + destruct (close_at a j) eqn:E'; [|reflexivity].
      apply (close_at_app_l a b) in E'. congruence.
Qed.

Lemma no_tag_app a b : unsplit a b -> no_tag a -> no_tag b -> no_tag (a ++ b).
Proof.
  intros Hun Ha Hb j. destruct (decide (j < length a)%nat) as [Hlt | Hge].
  - rewrite tag_at_app_unsplit by assumption. apply Ha.
  - replace j with (length a + (j - length a))%nat by lia.
    rewrite tag_at_app_r. apply Hb.
Qed.

Lemma first_tag_app_r a b j :
  unsplit a b -> no_tag a -> first_tag b j ->
  first_tag (a ++ b) (length a + j).
Proof.
  intros Hun Ha [Hj Hbefore]. split.
  - now rewrite tag_at_app_r.
  - intros k Hk. destruct (decide (k < length a)%nat) as [Hlt | Hge].
    + rewrite tag_at_app_unsplit by assumption. apply Ha.
    + replace k with (length a + (k - length a))%nat by lia.
      rewrite tag_at_app_r. apply Hbefore. lia.
Qed.

Lemma first_tag_app_l a b j :
  unsplit a b -> first_tag a j -> first_tag (a ++ b) j.
Proof.
  intros Hun [Hj Hbefore]. pose proof (tag_at_length _ _ Hj) as Hlen. split.
  - rewrite tag_at_app_unsplit by (assumption || lia). exact Hj.
  - intros k Hk. rewrite tag_at_app_unsplit by (assumption || lia).
    now apply Hbefore.
Qed.

Lemma unsplit_drop a b n :
  (n <= length a)%nat -> unsplit a b -> unsplit (drop n a) b.
Proof.
  intros Hn Hun j Hj. rewrite length_drop in Hj |- *.
  destruct (Hun (n + j)%nat ltac:(lia)) as [Ho Hc].
  unfold open_at, close_at in *.
  rewrite <- (drop_app_le a b n) by exact Hn. rewrite drop_drop.
  split; intros E; [apply Ho in E | apply Hc in E]; lia.
Qed.

Lemma emit_segment_app st a b :
  emit_segment suppress_thinking (emit_segment suppress_thinking st a) b
  = emit_segment suppress_thinking st (a ++ b).
Proof.
  unfold emit_segment. destruct a as [|x a]; [reflexivity|].
  cbn [truthy app].
  destruct (in_thinking st && suppress_thinking) eqn:E.
  - destruct (truthy b); [now rewrite E | reflexivity].
  - destruct b as [|y b]; cbn [truthy].
    + now rewrite app_nil_r.
    + cbn [in_thinking add_final]. rewrite E. unfold add_final. cbn.
      now rewrite <- app_assoc.
Qed.

(** With no marker across the boundary, scanning [a ++ b] is scanning
    [a] and then [b]. *)
Lemma scan_loop_app b a :
  forall st,
    unsplit a b ->
    scan_loop suppress_thinking st (a ++ b)
    = scan_loop suppress_thinking (scan_loop suppress_thinking st a) b.
Proof.
  induction a as [| a Hne Hnone | a j Hfirst Ho IH | a j Hfirst Hc IH]
    using tag_ind; intros st Hun.
  - now rewrite scan_loop_equation_1.
  - rewrite (scan_loop_no_tag _ st a Hnone).
    destruct (tag_cases b) as [Hb | [j Hfirst]].
    + rewrite !scan_loop_no_tag by (auto using no_tag_app).
      now rewrite emit_segment_app.
    + pose proof (first_tag_app_r a b j Hun Hnone Hfirst) as Hab.
      destruct (open_at b j) eqn:Ho.
      * rewrite (scan_loop_open _ _ b j Hfirst Ho).
        rewrite (scan_loop_open _ _ (a ++ b) (length a + j) Hab).
        -- rewrite take_app_add, emit_segment_app.
           now replace (length a + j + 7)%nat with (length a + (j + 7))%nat
             by lia; rewrite drop_app_add.
        -- unfold open_at in *. now rewrite drop_app_add.
      * assert (Hc : close_at b j = true).
        { destruct Hfirst as [Ht _]. unfold tag_at in Ht.
          now rewrite Ho in Ht. }
        rewrite (scan_loop_close _ _ b j Hfirst Hc).
        rewrite (scan_loop_close _ _ (a ++ b) (length a + j) Hab).
        -- rewrite take_app_add, emit_segment_app.
           now replace (length a + j + 8)%nat with (length a + (j + 8))%nat
             by lia; rewrite drop_app_add.
        -- unfold close_at in *. now rewrite drop_app_add.
  - pose proof (open_at_length _ _ Ho) as Hlen.
    rewrite (scan_loop_open _ st a j Hfirst Ho).
    rewrite (scan_loop_open _ st (a ++ b) j
               (first_tag_app_l a b j Hun Hfirst) (open_at_app_l a b j Ho)).
    rewrite take_app_le, drop_app_le by lia.
    apply IH. apply unsplit_drop; [lia | exact Hun].
  - pose proof (close_at_length _ _ Hc) as Hlen.
    rewrite (scan_loop_close _ st a j Hfirst Hc).
    rewrite (scan_loop_close _ st (a ++ b) j
               (first_tag_app_l a b j Hun Hfirst) (close_at_app_l a b j Hc)).
    rewrite take_app_le, drop_app_le by lia.
    apply IH. apply unsplit_drop; [lia | exact Hun].
Qed.

End BoundaryFacts.

(** ** The streaming classifier *)

Section ClassifierFacts.

Variable suppress_thinking : bool.
Implicit Types (st : StreamState) (text raw : str).

Lemma add_msg_nil st : add_msg st [] = st.
Proof. destruct st. unfold add_msg. cbn. now rewrite app_nil_r. Qed.

Lemma add_msg_app st a b : add_msg (add_msg st a) b = add_msg st (a ++ b).
Proof. unfold add_msg. cbn. now rewrite app_assoc. Qed.

Lemma apply_tokens_add_msg raw (toks : list token) :
  forall st,
    foldl (apply_token suppress_thinking) (add_msg st raw) toks
    = add_msg (foldl (apply_token suppress_thinking) st toks) raw.
Proof.
  induction toks as [|tok toks IH]; intros st; cbn [foldl]; [reflexivity|].
  rewrite <- IH. f_equal.
  destruct tok as [thinking s | [|]]; cbn; [|reflexivity..].
  now destruct (thinking && suppress_thinking).
Qed.

(** The loop leaves [msg] alone. *)
Lemma scan_loop_add_msg st raw text :
  scan_loop suppress_thinking (add_msg st raw) text
  = add_msg (scan_loop suppress_thinking st text) raw.
Proof. rewrite !scan_loop_tokens. apply apply_tokens_add_msg. Qed.

Lemma feed_add_msg raw (raws : list str) :
  forall st,
    feed suppress_thinking (add_msg st raw) raws
    = add_msg (feed suppress_thinking st raws) raw.
Proof.
  unfold feed. induction raws as [|r raws IH]; intros st; cbn [foldl];
    [reflexivity|].
  now rewrite scan_loop_add_msg, IH.
Qed.

Lemma process_chunk_feed st (ch : chunk) :
  process_chunk suppress_thinking st ch
  = add_msg (scan_loop suppress_thinking st (chunk_text ch)) (chunk_text ch).
Proof.
  rewrite process_chunk_text. destruct (chunk_text ch) as [|c t].
  - now rewrite scan_loop_equation_1, add_msg_nil.
  - apply scan_loop_add_msg.
Qed.

Lemma process_chunks_feed (l : list chunk) :
  forall st,
    process_chunks suppress_thinking st l
    = add_msg (feed suppress_thinking st (map chunk_text l))
        (concat (map chunk_text l)).
Proof.
  induction l as [|ch l IH]; intros st.
  - cbn. now rewrite add_msg_nil.
  - change (process_chunks suppress_thinking st (ch :: l))
      with (process_chunks suppress_thinking
              (process_chunk suppress_thinking st ch) l).
    rewrite IH, process_chunk_feed, feed_add_msg, add_msg_app.
    reflexivity.
Qed.



(** What [_process_streaming_response] returns, read off the pieces. *)
Lemma _process_streaming_response_answer (c : completion) :
  let toks := stream_tokens false (map chunk_text (chunks c)) in
  let answer := concat (map (kept true) toks) in
  suppress_thinking = true -> answer <> [] ->
  fst (_process_streaming_response c suppress_thinking) = Some answer.
Proof.
  intros toks answer -> Hne. unfold _process_streaming_response.
  destruct (process_chunks_fields true (chunks c) initial_state)
    as (_ & _ & Hf & _).
  cbn in Hf. fold toks in Hf. fold answer in Hf. rewrite Hf.
  destruct answer; [congruence | reflexivity].
Qed.

Lemma _process_streaming_response_raw (c : completion) :
  suppress_thinking = false -> stream_raises c = false ->
  fst (_process_streaming_response c suppress_thinking)
  = Some (concat (map chunk_text (chunks c))).
Proof.
  intros -> Hr. unfold _process_streaming_response. rewrite Hr.
  destruct (process_chunks_fields false (chunks c) initial_state)
    as (Hm & _).
  cbn in Hm. now rewrite Hm.
Qed.

End ClassifierFacts.


Section CutFacts.

Implicit Types (text : str) (toks : list token).












End CutFacts.



(** C9: the scenario of the specification, for either shape of chunk. *)
Theorem C9_single_chunk_scenario :
  fst (_process_streaming_response
         (streamed
            (lit "Let me check.<think>reasoning here</think>The answer is 42."))
         true)
  = Some (lit "Let me check.The answer is 42.")
  /\ fst (_process_streaming_response
            {| chunks :=
                 [ContentChunk
                    (Some (lit "Let me check.<think>reasoning here</think>The answer is 42."))];
               stream_raises := false; choices := []; content := None |}
            true)
     = Some (lit "Let me check.The answer is 42.").
Proof. split; vm_compute; reflexivity. Qed.

(** ** The retry controller *)

Section ControllerFacts.

Variable _extract_final_answer : str -> str.
Variable api : api_env.
Variables streaming suppress_thinking : bool.

(** The whole trace of the controller: [full_trace] cut after the first
    call that returns. *)
Lemma search_with_retry_trace :
  snd (search_with_retry _extract_final_answer api streaming
         suppress_thinking)
  = through_first
      (call_ok _extract_final_answer api streaming suppress_thinking)
      full_trace.
Proof.
  unfold search_with_retry, range3, full_trace, call_ok, attempt_ok. cbn.
  repeat (match goal with
          | |- context [attempt_body ?e ?a ?s ?u ?t ?n] =>
              destruct (attempt_body e a s u t n) as [[? ?]|?]; cbn;
              try reflexivity
          end).
Qed.

(** The result of the controller: what the first call that returns
    returned, or [(None, None)] when no call returns. *)
Lemma search_with_retry_result :
  fst (search_with_retry _extract_final_answer api streaming
         suppress_thinking)
  = match first_return _extract_final_answer api streaming
            suppress_thinking schedule with
    | Some (m, c) => (Some m, Some c)
    | None => (None, None)
    end.
Proof.
  unfold search_with_retry, range3, schedule. cbn.
  repeat (match goal with
          | |- context [attempt_body ?e ?a ?s ?u ?t ?n] =>
              destruct (attempt_body e a s u t n) as [[? ?]|?]; cbn;
              try reflexivity
          end).
Qed.

End ControllerFacts.

(** C3, as stated, fails: the first primary attempt is refused with a
    rate-limit error, [_handle_api_error] would answer "switch to the
    backup API", and the controller, which never consults it, sleeps 4
    seconds and calls the primary tier again. *)
Lemma C3_fast_path_counterexample :
  rate_limited overloaded = true
  /\ _handle_api_error overloaded 0 2 = (true, lit "切换到备用API")
  /\ snd (search_with_retry id overloaded_once true true)
     = [Call Primary 0; Sleep 4; Call Primary 1]
  /\ ~ fast_path_claim id overloaded_once true true.
Proof.
  split; [vm_compute; reflexivity|].
  split; [vm_compute; reflexivity|].
  split; [vm_compute; reflexivity|].
  intros H. specialize (H overloaded eq_refl). vm_compute in H.
  specialize (H eq_refl). discriminate.
Qed.

(** C3, amended: no failure skips an attempt.  The calls made are the
    six of [schedule], in order, up to the first one that returns; in
    particular a rate-limited failure of the first primary attempt is
    followed by the second primary attempt. *)
Theorem C3_no_attempt_skipped (ex : str -> str) (api : api_env)
    (streaming suppress_thinking : bool) :
  calls_of (snd (search_with_retry ex api streaming suppress_thinking))
  = through_first
      (fun c => attempt_ok ex api streaming suppress_thinking c.1 c.2)
      schedule
  /\ (forall err,
        api Primary 0 = Exc err -> rate_limited err = true ->
        calls_of (snd (search_with_retry ex api streaming suppress_thinking))
          !! 1%nat = Some (Primary, 1)).
Proof.
  rewrite search_with_retry_trace.
  assert (Hcalls :
    calls_of (through_first (call_ok ex api streaming suppress_thinking)
                full_trace)
    = through_first
        (fun c => attempt_ok ex api streaming suppress_thinking c.1 c.2)
        schedule).
  { unfold full_trace, schedule. cbn.
    repeat (match goal with
            | |- context [attempt_ok ?e ?a ?s ?u ?t ?n] =>
                destruct (attempt_ok e a s u t n); cbn; try reflexivity
            end). }
  split; [exact Hcalls|].
  intros err Herr _. rewrite Hcalls. unfold schedule. cbn.
  unfold attempt_ok at 1, attempt_body. rewrite Herr. cbn.
  destruct (attempt_ok ex api streaming suppress_thinking Primary 1);
    reflexivity.
Qed.

Lemma C3_no_attempt_skipped_witness :
  calls_of (snd (search_with_retry id overloaded_once true true))
    !! 1%nat = Some (Primary, 1).
Proof.
  apply (proj2 (C3_no_attempt_skipped id overloaded_once true true)
           overloaded); reflexivity.
Defined.

(** C4: when none of the six attempts returns a text, whatever the
    failures are, the controller makes the three primary attempts, then
    the three backup attempts, and returns [(None, None)]. *)
Theorem C4_attempt_budget (ex : str -> str) (api : api_env)
    (streaming suppress_thinking : bool) :
  (forall t a, (t, a) ∈ schedule ->
               attempt_ok ex api streaming suppress_thinking t a = false) ->
  search_with_retry ex api streaming suppress_thinking
    = ((None, None), full_trace)
  /\ calls_of full_trace = schedule.
Proof.
  intros Hfail. split; [|reflexivity].
  rewrite (surjective_pairing (search_with_retry _ _ _ _)).
  rewrite search_with_retry_result, search_with_retry_trace.
  assert (H : forall t a, (t, a) ∈ schedule ->
            exists e, attempt_body ex api streaming suppress_thinking t a
                      = Exc e).
  { intros t a Hin. specialize (Hfail t a Hin). unfold attempt_ok in Hfail.
    destruct (attempt_body ex api streaming suppress_thinking t a);
      [discriminate | eauto]. }
  assert (Hin : forall t a, In (t, a) schedule -> (t, a) ∈ schedule)
    by (intros; now apply list_elem_of_In).
  unfold schedule in *. cbn.
  destruct (H Primary 0) as [? ->]; [apply Hin; cbn; tauto|].
  destruct (H Primary 1) as [? ->]; [apply Hin; cbn; tauto|].
  destruct (H Primary 2) as [? ->]; [apply Hin; cbn; tauto|].
  destruct (H Backup 0) as [? ->]; [apply Hin; cbn; tauto|].
  destruct (H Backup 1) as [? ->]; [apply Hin; cbn; tauto|].
  destruct (H Backup 2) as [? ->]; [apply Hin; cbn; tauto|].
  rewrite !Hfail by (apply Hin; cbn; tauto). reflexivity.
Qed.

Lemma C4_attempt_budget_witness :
  search_with_retry id (always_raises overloaded) true true
    = ((None, None), full_trace)
  /\ calls_of full_trace = schedule.
Proof.
  apply (C4_attempt_budget id (always_raises overloaded) true true).
  intros t a _. reflexivity.
Defined.

(** C5, as stated, fails: when every attempt fails the controller sleeps
    4 and 8 seconds in each tier, since [attempt] counts from 0 in
    [2 ** (attempt + 2)]. *)
Lemma C5_backoff_counterexample :
  sleeps_of (snd (search_with_retry id (always_raises overloaded) true true))
    = [4; 8; 4; 8]
  /\ sleeps_of (snd (search_with_retry id (always_raises overloaded)
                       true true))
     <> claimed_sleeps.
Proof. split; [vm_compute; reflexivity | vm_compute; discriminate]. Qed.

(** C5, amended: the trace of the controller is [full_trace] cut after
    the first call that returns, so that a sleep occurs only between two
    consecutive attempts of one tier; it follows the failed attempt
    [attempt] (0 or 1, counted from 0) and lasts [2 ^ (attempt + 2)]
    seconds: 4 seconds before the second attempt and 8 before the third.
    No sleep follows the third attempt of a tier. *)
Theorem C5_backoff_schedule (ex : str -> str) (api : api_env)
    (streaming suppress_thinking : bool) :
  let events :=
    snd (search_with_retry ex api streaming suppress_thinking) in
  events = through_first (call_ok ex api streaming suppress_thinking)
             full_trace
  /\ (forall pre e seconds post,
        events = pre ++ e :: Sleep seconds :: post ->
        exists t attempt,
          e = Call t attempt
          /\ attempt_ok ex api streaming suppress_thinking t attempt = false
          /\ 0 <= attempt < 2
          /\ seconds = 2 ^ (attempt + 2)
          /\ head post = Some (Call t (attempt + 1))).
Proof.
  intros events. unfold events. rewrite search_with_retry_trace.
  split; [reflexivity|].
  intros pre e seconds post. unfold full_trace. cbn.
  repeat (match goal with
          | |- context [attempt_ok ?e ?a ?s ?u ?t ?n] =>
              let E := fresh "E" in
              destruct (attempt_ok e a s u t n) eqn:E; cbn
          end);
    intros H;
    repeat (destruct pre as [|? pre]; simplify_eq/=;
            try (eexists _, _; repeat split; eauto; lia)).
Qed.

Lemma C5_backoff_schedule_witness :
  exists t attempt,
    Call Primary 0 = Call t attempt
    /\ attempt_ok id overloaded_once true true t attempt = false
    /\ 0 <= attempt < 2
    /\ 4 = 2 ^ (attempt + 2)
    /\ head [Call Primary 1] = Some (Call t (attempt + 1)).
Proof.
  apply (proj2 (C5_backoff_schedule id overloaded_once true true)
           [] (Call Primary 0) 4 [Call Primary 1]).
  reflexivity.
Defined.

(** ** The dispatcher *)

Section ExecutorFacts.

Variable _extract_final_answer : str -> str.
Variable reg : registry.
Variable net : network.

Lemma record_response_falsy model_key model_name response completion elapsed :
  truthy_opt response = false ->
  record_response model_key model_name (response, completion) elapsed
  = Exc (ValueError (lit "模型返回空响应")).
Proof. destruct response as [[|? ?]|]; cbn; intros H; congruence. Qed.

Lemma record_response_Ret model_key model_name found elapsed r :
  record_response model_key model_name found elapsed = Ret r ->
  status r = success /\ truthy (response r) = true
  /\ Some (response r) = fst found /\ raw_completion r = snd found
  /\ model_key = ParallelExecutor.model_key r.
Proof.
  destruct found as [[[|? ?]|] ?]; cbn; intros H; try discriminate.
  injection H as <-. cbn. auto.
Qed.

Lemma single_model_body_Ret model_key query su st t0 t1 r :
  single_model_body _extract_final_answer reg net model_key query su st t0 t1
  = Ret r ->
  status r = success /\ truthy (response r) = true
  /\ ParallelExecutor.model_key r = model_key.
Proof.
  unfold single_model_body.
  destruct (_models reg !! model_key); [|discriminate].
  destruct (_model_info reg !! model_key); [|discriminate].
  intros H. apply record_response_Ret in H. intuition.
Qed.

Lemma _execute_single_model_key model_key query su st t0 t1 :
  ParallelExecutor.model_key
    (_execute_single_model _extract_final_answer reg net model_key query
       su st t0 t1) = model_key.
Proof.
  unfold _execute_single_model.
  destruct (single_model_body _ _ _ _ _ _ _ _ _) eqn:E; [|reflexivity].
  now apply single_model_body_Ret in E.
Qed.

End ExecutorFacts.

(** C6: a task records [success] only with a non-empty response text;
    any other outcome is an [error] record with an empty response and a
    message; and a controller that returns an empty text or [None] makes
    the task raise "empty response", which is recorded as [error]. *)
Theorem C6_empty_text_is_error (ex : str -> str) (reg : registry)
    (net : network) (model_key query : str)
    (suppress_thinking streaming : bool) (start_time end_time : Q) :
  let r := _execute_single_model ex reg net model_key query
             suppress_thinking streaming start_time end_time in
  (status r = success -> truthy (response r) = true)
  /\ (status r <> success ->
      status r = error /\ response r = [] /\ is_Some (error_message r))
  /\ (forall model_name response completion elapsed,
        truthy_opt response = false ->
        record_response model_key model_name (response, completion) elapsed
        = Exc (ValueError (lit "模型返回空响应")))
  /\ (forall cls model_info,
        _models reg !! model_key = Some cls ->
        _model_info reg !! model_key = Some model_info ->
        truthy_opt
          (fst (fst (search_with_retry ex (net (model_id cls) query)
                       streaming suppress_thinking))) = false ->
        status r = error
        /\ error_message r = Some (lit "模型返回空响应")).
Proof.
  intros r. unfold r, _execute_single_model.
  destruct (single_model_body ex reg net model_key query suppress_thinking
              streaming start_time end_time) as [res|e] eqn:E.
  - pose proof (single_model_body_Ret _ _ _ _ _ _ _ _ _ _ E)
      as (Hs & Ht & _).
    split; [auto|]. split; [congruence|].
    split; [intros; now apply record_response_falsy|].
    intros cls model_info Hc Hi Hempty. exfalso.
    unfold single_model_body in E. rewrite Hc, Hi in E.
    destruct (search_with_retry _ _ _ _) as [[resp comp] ev].
    cbn [fst] in E, Hempty.
    now rewrite (record_response_falsy _ _ _ _ _ Hempty) in E.
  - cbn. split; [discriminate|]. split; [eauto|].
    split; [intros; now apply record_response_falsy|].
    intros cls model_info Hc Hi Hempty. split; [reflexivity|].
    unfold single_model_body in E. rewrite Hc, Hi in E.
    destruct (search_with_retry _ _ _ _) as [[resp comp] ev].
    cbn [fst] in E, Hempty.
    rewrite (record_response_falsy _ _ _ _ _ Hempty) in E.
    now injection E as <-.
Qed.

Lemma C6_empty_text_is_error_witness :
  status (_execute_single_model id demo_registry refusing_network
            (lit "gpt_search") (lit "2+2?") true true 0 49)
    = error
  /\ error_message (_execute_single_model id demo_registry refusing_network
                      (lit "gpt_search") (lit "2+2?") true true 0 49)
     = Some (lit "模型返回空响应").
Proof.
  apply (proj2 (proj2 (proj2
           (C6_empty_text_is_error id demo_registry refusing_network
              (lit "gpt_search") (lit "2+2?") true true 0 49)))
           (mkModelClass (lit "gpt-4o-search"))
           {[ lit "name" := lit "GPT Search" ]});
    vm_compute; reflexivity.
Defined.

Section DispatcherFacts.

Variable _extract_final_answer : str -> str.
Variable reg : registry.
Variable net : network.
Variable self_timeout : Z.
Variable model_keys : list str.
Variable query : str.
Variables suppress_thinking streaming : bool.
Variable clock : nat -> Q * Q.

Local Abbreviation task :=
  (ParallelExecutor.task _extract_final_answer reg net model_keys query
     suppress_thinking streaming clock).

Lemma collect_all_tasks (finished : list nat) :
  (forall i, i ∈ finished -> (i < length model_keys)%nat) ->
  collect_all self_timeout model_keys (fun i => Ret (Some (task i))) finished
  = map task finished.
Proof.
  unfold collect_all.
  enough (H : forall acc,
    (forall i, i ∈ finished -> (i < length model_keys)%nat) ->
    foldl (fun results i =>
             match model_keys !! i with
             | Some model_key =>
                 collect self_timeout results model_key (Ret (Some (task i)))
             | None => results
             end) acc finished
    = acc ++ map task finished) by (intros; now rewrite H).
  induction finished as [|i l IH]; intros acc Hv; cbn.
  - now rewrite app_nil_r.
  - destruct (lookup_lt_is_Some_2 model_keys i) as [k Hk].
    { apply Hv. left. }
    rewrite Hk. cbn. rewrite IH.
    + now rewrite <- app_assoc.
    + intros j Hj. apply Hv. now right.
Qed.

Lemma lookup_all_keys :
  map (fun i => default [] (model_keys !! i)) (seq 0 (length model_keys))
  = model_keys.
Proof.
  apply list_eq. intros i. rewrite list_lookup_fmap.
  destruct (decide (i < length model_keys)%nat) as [Hlt | Hge].
  - rewrite lookup_seq_lt by lia. cbn.
    destruct (lookup_lt_is_Some_2 model_keys i Hlt) as [k ->]. reflexivity.
  - rewrite lookup_seq_ge by lia. cbn. symmetry.
    apply lookup_ge_None. lia.
Qed.

Lemma all_finished_spec (n : nat) (finished : list nat) :
  all_finished n finished = true <->
  forall i, (i < n)%nat -> i ∈ finished.
Proof.
  unfold all_finished. rewrite forallb_forall. split.
  - intros H i Hi. specialize (H i). rewrite bool_decide_eq_true in H.
    apply H, in_seq. lia.
  - intros H i Hi. apply in_seq in Hi. rewrite bool_decide_eq_true.
    apply H. lia.
Qed.

(** When every future completes before the global timeout, the call
    returns one result for each requested key. *)
Lemma execute_models_all_finished (finished : list nat) :
  NoDup finished ->
  (forall i, i ∈ finished <-> (i < length model_keys)%nat) ->
  exists results,
    execute_models _extract_final_answer reg net self_timeout model_keys
      query suppress_thinking streaming clock finished = Ret results
    /\ length results = length model_keys
    /\ map ParallelExecutor.model_key results ≡ₚ model_keys.
Proof.
  intros Hnd Hall. unfold execute_models, execute_models_with.
  assert (Hfin : all_finished (length model_keys) finished = true)
    by (apply all_finished_spec; intros; now apply Hall).
  rewrite Hfin.
  rewrite collect_all_tasks by (intros; now apply Hall).
  assert (Hperm : finished ≡ₚ seq 0 (length model_keys)).
  { apply NoDup_Permutation; [exact Hnd | apply NoDup_seq |].
    intros i. rewrite Hall, elem_of_seq. lia. }
  eexists. split; [reflexivity|]. split.
  - rewrite length_map, Hperm. apply length_seq.
  - assert (Hkeys : map ParallelExecutor.model_key (map task finished)
                    = map (fun i => default [] (model_keys !! i)) finished).
    { rewrite map_map. apply map_ext. intros i.
      apply _execute_single_model_key. }
    rewrite Hkeys, Hperm, lookup_all_keys. reflexivity.
Qed.

(** When a future is still outstanding at the global timeout, the
    [TimeoutError] of [as_completed] leaves the call. *)
Lemma execute_models_outstanding (finished : list nat) :
  all_finished (length model_keys) finished = false ->
  execute_models _extract_final_answer reg net self_timeout model_keys
    query suppress_thinking streaming clock finished = Exc TimeoutError.
Proof.
  intros H. unfold execute_models, execute_models_with. now rewrite H.
Qed.

End DispatcherFacts.

(** C2 on the code: with every future completed in time the dispatcher
    returns exactly one result per key; with a future outstanding at the
    global timeout it raises [TimeoutError] and returns no result at all,
    where the claim asks for a [timeout] record per outstanding key. *)
Theorem C2_outstanding_future_raises (ex : str -> str) (reg : registry)
    (net : network) (self_timeout : Z) (model_keys : list str)
    (query : str) (suppress_thinking streaming : bool)
    (clock : nat -> Q * Q) (finished : list nat) :
  (NoDup finished ->
   (forall i, i ∈ finished <-> (i < length model_keys)%nat) ->
   exists results,
     execute_models ex reg net self_timeout model_keys query
       suppress_thinking streaming clock finished = Ret results
     /\ length results = length model_keys
     /\ map ParallelExecutor.model_key results ≡ₚ model_keys)
  /\ (all_finished (length model_keys) finished = false ->
      execute_models ex reg net self_timeout model_keys query
        suppress_thinking streaming clock finished = Exc TimeoutError).
Proof.
  split.
  - apply execute_models_all_finished.
  - apply execute_models_outstanding.
Qed.

(** Two keys, of which only the first completes within the timeout. *)
Lemma C2_outstanding_future_raises_witness :
  execute_models id demo_registry refusing_network 300
    [lit "gpt_search"; lit "kimi_search"] (lit "2+2?") true true
    (fun _ => (0, 49)%Q) [0%nat]
  = Exc TimeoutError.
Proof.
  apply (proj2 (C2_outstanding_future_raises id demo_registry
                  refusing_network 300
                  [lit "gpt_search"; lit "kimi_search"] (lit "2+2?")
                  true true (fun _ => (0, 49)%Q) [0%nat])).
  reflexivity.
Defined.

(** ** Success records and thinking markup *)

Section SuccessFacts.

Variable _extract_final_answer : str -> str.
Variable reg : registry.
Variable net : network.

Lemma first_return_attempt (api : api_env) (streaming su : bool)
    (l : list (tier * Z)) (m : str) (c : completion) :
  first_return _extract_final_answer api streaming su l = Some (m, c) ->
  exists t a,
    attempt_body _extract_final_answer api streaming su t a = Ret (m, c).
Proof.
  induction l as [|[t a] l IH]; cbn; [discriminate|].
  destruct (attempt_body _extract_final_answer api streaming su t a)
    as [r|e] eqn:E.
  - intros [= ->]. eauto.
  - exact IH.
Qed.

Lemma attempt_body_streaming (api : api_env) (su : bool) (t : tier) (a : Z)
    (m : str) (c : completion) :
  attempt_body _extract_final_answer api true su t a = Ret (m, c) ->
  api t a = Ret c /\ fst (_process_streaming_response c su) = Some m.
Proof.
  unfold attempt_body. destruct (api t a) as [c0|e]; [|discriminate].
  assert (Hsnd : snd (_process_streaming_response c0 su) = c0).
  { unfold _process_streaming_response. now destruct (su && _). }
  destruct (_process_streaming_response c0 su) as [[[|ch m']|] c'] eqn:E;
    try discriminate.
  cbn in Hsnd. subst c'. intros [= <- <-]. now rewrite E.
Qed.

(** A success record of a streamed call holds the text and the
    completion object of an attempt of the controller. *)
Lemma success_streamed model_key query su t0 t1 :
  let r := _execute_single_model _extract_final_answer reg net model_key
             query su true t0 t1 in
  status r = success ->
  exists c,
    raw_completion r = Some c
    /\ fst (_process_streaming_response c su) = Some (response r).
Proof.
  intros r Hs. unfold r, _execute_single_model in *.
  destruct (single_model_body _ _ _ _ _ _ _ _ _) as [res|e] eqn:E;
    [|discriminate].
  unfold single_model_body in E.
  destruct (_models reg !! model_key) as [cls|]; [|discriminate].
  destruct (_model_info reg !! model_key) as [info|]; [|discriminate].
  apply record_response_Ret in E. destruct E as (_ & _ & Hresp & Hraw & _).
  rewrite search_with_retry_result in Hresp, Hraw.
  destruct (first_return _ _ _ _ schedule) as [[m c]|] eqn:F;
    [|discriminate].
  cbn in Hresp, Hraw. injection Hresp as Hresp. subst m.
  apply first_return_attempt in F. destruct F as (t & a & F).
  apply attempt_body_streaming in F. destruct F as [_ F].
  exists c. auto.
Qed.

End SuccessFacts.

(** With [suppress_thinking = false] the function returns the text as it
    was received, by its own comment: the success record holds the
    markers and the thinking text. *)
Lemma unsuppressed_response_keeps_markup :
  status (_execute_single_model id demo_registry
            (answering_network (lit "<think>2+2</think>4"))
            (lit "gpt_search") (lit "2+2?") false true 0 2)
    = success
  /\ response (_execute_single_model id demo_registry
                 (answering_network (lit "<think>2+2</think>4"))
                 (lit "gpt_search") (lit "2+2?") false true 0 2)
     = lit "<think>2+2</think>4"
  /\ ~ no_markup
         (response (_execute_single_model id demo_registry
                      (answering_network (lit "<think>2+2</think>4"))
                      (lit "gpt_search") (lit "2+2?") false true 0 2)).
Proof.
  split; [vm_compute; reflexivity|].
  split; [vm_compute; reflexivity|].
  intros [H _]. vm_compute in H. discriminate.
Qed.

(** ** Execution summaries *)

Lemma py_div_positive (a : Q) (n : Z) :
  0 < n -> py_div a (inject_Z n) = Ret (a / inject_Z n)%Q.
Proof.
  intros Hn. unfold py_div.
  destruct (Qeq_bool (inject_Z n) 0) eqn:E; [|reflexivity].
  apply Qeq_bool_eq in E. unfold Qeq in E. cbn in E. lia.
Qed.

Lemma py_min_nonempty (x : Q) (l : list Q) :
  py_min (x :: l) = Ret (foldl Qmin x l).
Proof. reflexivity. Qed.

Lemma py_max_nonempty (x : Q) (l : list Q) :
  py_max (x :: l) = Ret (foldl Qmax x l).
Proof. reflexivity. Qed.

Lemma len_pos_cons {A} (l : list A) :
  0 < len l -> exists x l', l = x :: l'.
Proof. destruct l; cbn; [unfold len; cbn; lia | eauto]. Qed.

Lemma get_execution_summary_total (results : list ModelResult) :
  exists s,
    get_execution_summary results = Ret s
    /\ (get_successful_results results = [] ->
        ParallelExecutor.average_time s = 0%Q
        /\ ParallelExecutor.min_time s = 0%Q
        /\ ParallelExecutor.max_time s = 0%Q)
    /\ (results = [] -> ParallelExecutor.success_rate s = 0%Q).
Proof.
  unfold get_execution_summary.
  set (succ := get_successful_results results).
  assert (Hstats : exists stats,
    (if 0 <? len succ
     then avg_time ← py_div (py_sum (map ParallelExecutor.execution_time succ))
                       (inject_Z (len succ));
          min_time ← py_min (map ParallelExecutor.execution_time succ);
          max_time ← py_max (map ParallelExecutor.execution_time succ);
          Ret (avg_time, min_time, max_time)
     else Ret (0%Q, 0%Q, 0%Q)) = Ret stats
    /\ (succ = [] -> stats = (0%Q, 0%Q, 0%Q))).
  { destruct (Z.ltb_spec 0 (len succ)) as [Hpos | Hz].
    - destruct (len_pos_cons _ Hpos) as (x & l' & Hx).
      rewrite py_div_positive by exact Hpos. rewrite Hx. cbn.
      eexists. split; [reflexivity | discriminate].
    - eexists. split; [reflexivity | reflexivity]. }
  destruct Hstats as (stats & -> & Hzero).
  assert (Hrate : exists rate,
    (if 0 <? len results
     then py_div (inject_Z (len succ)) (inject_Z (len results))
     else Ret 0%Q) = Ret rate
    /\ (results = [] -> rate = 0%Q)).
  { destruct (Z.ltb_spec 0 (len results)) as [Hpos | Hz].
    - rewrite py_div_positive by exact Hpos.
      eexists. split; [reflexivity|]. intros ->. unfold len in Hpos.
      cbn in Hpos. lia.
    - eexists. split; [reflexivity | reflexivity]. }
  destruct Hrate as (rate & -> & Hrzero).
  cbn. eexists. split; [reflexivity|]. cbn. split.
  - intros H. now rewrite (Hzero H).
  - exact Hrzero.
Qed.

Lemma _calculate_execution_summary_total (results : list ModelResult) :
  exists s,
    ReportAggregator._calculate_execution_summary results = Ret s
    /\ (filter (fun r => ParallelExecutor.status r = success) results = [] ->
        s = ReportAggregator.mkSummary 0 0 0 0 0).
Proof.
  unfold ReportAggregator._calculate_execution_summary.
  destruct (filter (fun r => ParallelExecutor.status r = success) results)
    as [|x l] eqn:E.
  - eexists. split; reflexivity.
  - assert (Hs : 0 < len (x :: l)) by (unfold len; cbn; lia).
    assert (Hr : 0 < len results).
    { destruct results; [discriminate | unfold len; cbn; lia]. }
    rewrite !py_div_positive by assumption. cbn.
    eexists. split; [reflexivity | discriminate].
Qed.

(** C10: both summaries are total, no division by zero and no [min] or
    [max] of an empty sequence is reached; without successful results
    the timing statistics are 0, and on the empty list the success rate
    is 0 too. *)
Theorem C10_summaries_total (results : list ModelResult) :
  (exists s,
     get_execution_summary results = Ret s
     /\ (get_successful_results results = [] ->
         ParallelExecutor.average_time s = 0%Q
         /\ ParallelExecutor.min_time s = 0%Q
         /\ ParallelExecutor.max_time s = 0%Q)
     /\ (results = [] -> ParallelExecutor.success_rate s = 0%Q))
  /\ (exists s,
        ReportAggregator._calculate_execution_summary results = Ret s
        /\ (filter (fun r => ParallelExecutor.status r = success) results
            = [] ->
            ReportAggregator.total_time s = 0%Q
            /\ ReportAggregator.average_time s = 0%Q
            /\ ReportAggregator.min_time s = 0%Q
            /\ ReportAggregator.max_time s = 0%Q
            /\ ReportAggregator.success_rate s = 0%Q)).
Proof.
  split; [apply get_execution_summary_total|].
  destruct (_calculate_execution_summary_total results) as (s & Hs & Hz).
  exists s. split; [exact Hs|]. intros H. rewrite (Hz H). cbn. auto.
Qed.

Lemma C10_summaries_total_witness :
  exists s,
    get_execution_summary [timeout_result 300 (lit "kimi_search")] = Ret s
    /\ ParallelExecutor.average_time s = 0%Q
    /\ ParallelExecutor.min_time s = 0%Q
    /\ ParallelExecutor.max_time s = 0%Q.
Proof.
  destruct (proj1 (C10_summaries_total
                     [timeout_result 300 (lit "kimi_search")]))
    as (s & Hs & Hzero & _).
  exists s. split; [exact Hs | apply Hzero; reflexivity].
Defined.

(** ** The aggregator *)

(** C8, as stated, fails: two calls on the same query and results that
    read the clock in different seconds return reports that differ. *)
Lemma C8_timestamp_counterexample :
  ReportAggregator.aggregate_results (fun _ => lit "0.00")
    (lit "2025-08-01 10:00:00") (lit "2+2?") [] (lit "structured")
  <> ReportAggregator.aggregate_results (fun _ => lit "0.00")
       (lit "2025-08-01 10:00:01") (lit "2+2?") [] (lit "structured")
  /\ (exists r,
        ReportAggregator.aggregate_results (fun _ => lit "0.00")
          (lit "2025-08-01 10:00:01") (lit "2+2?") [] (lit "structured")
        = Ret r
        /\ ReportAggregator.timestamp r = lit "2025-08-01 10:00:01").
Proof.
  split; [vm_compute; discriminate|].
  eexists. split; [vm_compute; reflexivity | reflexivity].
Qed.

(** C8, amended: the report is a function of the query, the results and
    the clock reading alone.  Two calls on the same query and results
    return reports (neither call raises) that agree in every field but
    [timestamp], which holds the clock reading of each call; when the
    readings are equal the reports are equal. *)
Theorem C8_aggregation_up_to_timestamp (fmt_2f : Q -> str)
    (now1 now2 query : str) (results : list ModelResult)
    (format1 format2 : str) :
  exists r1 r2,
    ReportAggregator.aggregate_results fmt_2f now1 query results format1
      = Ret r1
    /\ ReportAggregator.aggregate_results fmt_2f now2 query results format2
       = Ret r2
    /\ ReportAggregator.timestamp r1 = now1
    /\ ReportAggregator.timestamp r2 = now2
    /\ ReportAggregator.query r1 = ReportAggregator.query r2
    /\ ReportAggregator.total_models r1 = ReportAggregator.total_models r2
    /\ ReportAggregator.successful_models r1
       = ReportAggregator.successful_models r2
    /\ ReportAggregator.failed_models r1 = ReportAggregator.failed_models r2
    /\ ReportAggregator.execution_summary r1
       = ReportAggregator.execution_summary r2
    /\ ReportAggregator.model_responses r1
       = ReportAggregator.model_responses r2
    /\ ReportAggregator.summary_text r1 = ReportAggregator.summary_text r2
    /\ (now1 = now2 -> r1 = r2).
Proof.
  unfold ReportAggregator.aggregate_results.
  destruct (_calculate_execution_summary_total results) as (s & -> & _).
  cbn. eexists _, _. split; [reflexivity|]. split; [reflexivity|]. cbn.
  repeat (split; [reflexivity|]). now intros ->.
Qed.

Lemma C8_aggregation_up_to_timestamp_witness :
  exists r1 r2,
    ReportAggregator.aggregate_results (fun _ => lit "0.00")
      (lit "2025-08-01 10:00:00") (lit "2+2?")
      [timeout_result 300 (lit "kimi_search")] (lit "table") = Ret r1
    /\ ReportAggregator.aggregate_results (fun _ => lit "0.00")
         (lit "2025-08-01 10:00:00") (lit "2+2?")
         [timeout_result 300 (lit "kimi_search")] (lit "list") = Ret r2
    /\ r1 = r2.
Proof.
  destruct (C8_aggregation_up_to_timestamp (fun _ => lit "0.00")
              (lit "2025-08-01 10:00:00") (lit "2025-08-01 10:00:00")
              (lit "2+2?") [timeout_result 300 (lit "kimi_search")]
              (lit "table") (lit "list"))
    as (r1 & r2 & H1 & H2 & _ & _ & _ & _ & _ & _ & _ & _ & _ & Heq).
  exists r1, r2. split; [exact H1|]. split; [exact H2|].
  apply Heq. reflexivity.
Defined.

(** * Further properties of the code *)

(** ** The controller: outcomes and effort *)

Section ControllerMore.

Variable ex : str -> str.
Variable api : api_env.
Variables streaming suppress_thinking : bool.

Lemma attempt_body_Ret (t : tier) (a : Z) (m : str) (c : completion) :
  attempt_body ex api streaming suppress_thinking t a = Ret (m, c) ->
  api t a = Ret c /\ m <> [].
Proof.
  unfold attempt_body. destruct (api t a) as [c0|e]; [|discriminate].
  destruct streaming.
  - assert (Hsnd : snd (_process_streaming_response c0 suppress_thinking)
                   = c0).
    { unfold _process_streaming_response. now destruct (_ && _). }
    destruct (_process_streaming_response c0 suppress_thinking)
      as [[[|ch m']|] c']; try discriminate.
    cbn in Hsnd. subst c'. intros [= <- <-]. split; [reflexivity | discriminate].
  - destruct (choices c0) as [|first rest]; [discriminate|].
    destruct (if suppress_thinking && truthy_opt first
              then Some (ex (default [] first)) else first)
      as [[|ch m']|]; try discriminate.
    intros [= <- <-]. split; [reflexivity | discriminate].
Qed.

End ControllerMore.

(** X1: the controller returns [(None, None)], after the whole of
    [full_trace], or a non-empty text with the completion object that
    the API returned in an attempt, and then that attempt is the last
    thing it did. *)
Theorem X1_search_with_retry_outcome (ex : str -> str) (api : api_env)
    (streaming suppress_thinking : bool) :
  let run := search_with_retry ex api streaming suppress_thinking in
  (fst run = (None, None) /\ snd run = full_trace
   /\ forall t a, (t, a) ∈ schedule ->
        attempt_ok ex api streaming suppress_thinking t a = false)
  \/ (exists t a m c,
        fst run = (Some m, Some c) /\ m <> []
        /\ api t a = Ret c
        /\ attempt_body ex api streaming suppress_thinking t a = Ret (m, c)
        /\ last (snd run) = Some (Call t a)).
Proof.
  cbn zeta.
  rewrite search_with_retry_result, search_with_retry_trace.
  unfold schedule, full_trace, call_ok, attempt_ok. cbn.
  repeat (match goal with
          | |- context [attempt_body ?e ?a ?s ?u ?t ?n] =>
              let E := fresh "E" in
              destruct (attempt_body e a s u t n) as [[? ?]|?] eqn:E; cbn;
              [ right; pose proof (attempt_body_Ret _ _ _ _ _ _ _ _ E) as [? ?];
                eexists _, _, _, _; repeat split; eauto |]
          end).
  left. repeat split.
  intros t a Hin. apply list_elem_of_In in Hin. cbn in Hin.
  repeat (destruct Hin as [Hin | Hin];
          [injection Hin as <- <-;
           repeat match goal with H : _ = Exc _ |- _ => rewrite H end;
           reflexivity|]).
  destruct Hin.
Qed.

(** X2: bounded effort.  The controller calls the API at least once and
    at most six times, sleeps at most four times and at most 24 seconds
    in all, and its trace never ends with a sleep. *)
Theorem X2_search_with_retry_bounded (ex : str -> str) (api : api_env)
    (streaming suppress_thinking : bool) :
  let events := snd (search_with_retry ex api streaming suppress_thinking) in
  (1 <= length (calls_of events) <= 6)%nat
  /\ (length (sleeps_of events) <= 4)%nat
  /\ 0 <= total_sleep events <= 24
  /\ (forall seconds, last events <> Some (Sleep seconds)).
Proof.
  cbn zeta. rewrite search_with_retry_trace. unfold full_trace. cbn.
  repeat (match goal with
          | |- context [attempt_ok ?e ?a ?s ?u ?t ?n] =>
              destruct (attempt_ok e a s u t n); cbn
          end);
    (repeat split; try lia; try discriminate).
Qed.


(** X3: the one-call variant never raises: it returns [(None, None)]
    or a non-empty text with the completion object of the reply; and
    when the first primary attempt of the controller returns a text,
    the controller returns what the one-call variant makes of the same
    reply. *)
Theorem X3_wcode_simple_outcome (ex : str -> str)
    (reply : py_result completion) (streaming suppress_thinking : bool) :
  let found :=
    _search_with_wcode_api_simple ex reply streaming suppress_thinking in
  (found = (None, None)
   \/ exists m c, found = (Some m, Some c) /\ m <> [] /\ reply = Ret c)
  /\ (forall api : api_env,
        api Primary 0 = reply ->
        found <> (None, None) ->
        fst (search_with_retry ex api streaming suppress_thinking) = found).
Proof.
  cbn zeta. unfold _search_with_wcode_api_simple. split.
  - destruct (attempt_body ex (fun _ _ => reply) streaming
                suppress_thinking Primary 0) as [[m c]|e] eqn:E;
      [right | left; reflexivity].
    apply attempt_body_Ret in E. destruct E as [E Hm]. eauto.
  - intros api Hapi.
    assert (Hsame :
      attempt_body ex api streaming suppress_thinking Primary 0
      = attempt_body ex (fun _ _ => reply) streaming suppress_thinking
          Primary 0).
    { unfold attempt_body. now rewrite Hapi. }
    rewrite search_with_retry_result. unfold schedule. cbn.
    rewrite Hsame.
    destruct (attempt_body ex (fun _ _ => reply) streaming
                suppress_thinking Primary 0) as [[m c]|e];
      [reflexivity | congruence].
Qed.

Lemma X3_wcode_simple_outcome_witness :
  fst (search_with_retry id
         (fun _ _ => Ret (streamed (lit "4"))) true true)
  = _search_with_wcode_api_simple id (Ret (streamed (lit "4"))) true true.
Proof.
  apply (proj2 (X3_wcode_simple_outcome id
                  (Ret (streamed (lit "4"))) true true)
           (fun _ _ => Ret (streamed (lit "4")))).
  - reflexivity.
  - vm_compute. discriminate.
Defined.

(** X4: a non-streamed reply whose first choice holds a non-empty text
    makes the attempt return a non-empty text, with thinking suppressed
    or not: the extraction of the final answer falls back to the full
    response when its cleaning leaves nothing. *)
Theorem X4_non_streamed_attempt_returns (clean_up : str -> str)
    (api : api_env) (suppress_thinking : bool) (t : tier) (a : Z)
    (c : completion) (first : str) (rest : list (option str)) :
  api t a = Ret c ->
  choices c = Some first :: rest ->
  first <> [] ->
  exists m,
    attempt_body (_extract_final_answer clean_up) api false
      suppress_thinking t a = Ret (m, c)
    /\ m <> []
    /\ (suppress_thinking = false -> m = first)
    /\ (suppress_thinking = true ->
        m = clean_up first \/ (clean_up first = [] /\ m = first)).
Proof.
  intros Hapi Hchoices Hfirst. unfold attempt_body.
  rewrite Hapi, Hchoices. cbn [truthy_opt default].
  destruct first as [|ch first]; [congruence|]. cbn [truthy].
  destruct suppress_thinking; cbn [andb].
  - unfold _extract_final_answer, default. cbn [from_option id].
    destruct (clean_up (ch :: first)) as [|ch' m'] eqn:E; cbn [truthy].
    + eexists. split; [reflexivity|]. split; [discriminate|].
      split; [discriminate | intros _; right; auto].
    + eexists. split; [reflexivity|]. split; [discriminate|].
      split; [discriminate | intros _; left; auto].
  - eexists. split; [reflexivity|]. split; [discriminate|].
    split; [reflexivity | discriminate].
Qed.

Lemma X4_non_streamed_attempt_returns_witness :
  exists m,
    attempt_body (_extract_final_answer (fun _ => []))
      (fun _ _ =>
         Ret {| chunks := []; stream_raises := false;
                choices := [Some (lit "Let me think")]; content := None |})
      false true Primary 0
    = Ret (m, {| chunks := []; stream_raises := false;
                 choices := [Some (lit "Let me think")]; content := None |})
    /\ m <> [].
Proof.
  destruct (X4_non_streamed_attempt_returns (fun _ => [])
              (fun _ _ =>
                 Ret {| chunks := []; stream_raises := false;
                        choices := [Some (lit "Let me think")];
                        content := None |})
              true Primary 0
              {| chunks := []; stream_raises := false;
                 choices := [Some (lit "Let me think")]; content := None |}
              (lit "Let me think") [] eq_refl eq_refl)
    as (m & Hm & Hne & _).
  - discriminate.
  - exists m. split; assumption.
Defined.

(** ** Substrings and letter case *)

Section ContainsFacts.

Implicit Types text sub pre post : str.

Lemma contains_true text sub :
  contains text sub = true <->
  exists j, startswith (drop j text) sub = true.
Proof.
  split.
  - intros H. destruct (find_spec text sub) as [[Hn _] | (k & _ & Hk & _)].
    + unfold contains in H. rewrite Hn in H. discriminate.
    + eauto.
  - intros [j Hj]. destruct (contains text sub) eqn:E; [reflexivity|].
    rewrite contains_false in E. now rewrite E in Hj.
Qed.

(** A substring of a part is a substring of the whole. *)
Lemma contains_app pre text post sub :
  contains text sub = true -> contains (pre ++ text ++ post) sub = true.
Proof.
  rewrite !contains_true. intros [j Hj]. exists (length pre + j)%nat.
  rewrite drop_app_add.
  destruct (decide (j <= length text)%nat) as [Hle | Hgt].
  - rewrite drop_app_le by exact Hle. now apply startswith_app_l.
  - rewrite drop_ge in Hj by lia. destruct sub; [|discriminate].
    now destruct (drop j _).
Qed.

Lemma lower_app text post : lower (text ++ post) = lower text ++ lower post.
Proof. apply map_app. Qed.

End ContainsFacts.

(** X5: an error counts as an overload when the name of its class
    contains "RateLimitError" or its message contains "overloaded" in any
    letter case, wherever it stands in the message; for such an error
    [_handle_api_error] asks for a retry at attempt 0 and at no other
    attempt, whatever [max_retries] is. *)
Theorem X5_rate_limited_classification :
  (forall pre post msg,
     rate_limited (Exn (pre ++ lit "RateLimitError" ++ post) msg) = true)
  /\ (forall ty pre word post,
        lower word = lit "overloaded" ->
        rate_limited (Exn ty (pre ++ word ++ post)) = true)
  /\ (forall err attempt max_retries,
        rate_limited err = true ->
        fst (_handle_api_error err attempt max_retries)
        = (attempt =? 0)).
Proof.
  split; [|split].
  - intros pre post msg. unfold rate_limited. cbn [exn_type].
    rewrite (contains_app pre (lit "RateLimitError") post); [reflexivity|].
    vm_compute. reflexivity.
  - intros ty pre word post Hword. unfold rate_limited. cbn [exn_msg].
    rewrite !lower_app, Hword.
    rewrite (contains_app (lower pre) (lit "overloaded") (lower post)
               (lit "overloaded")); [apply orb_true_r|].
    vm_compute. reflexivity.
  - intros err attempt max_retries Hrate. unfold _handle_api_error.
    rewrite Hrate. now destruct (attempt =? 0).
Qed.

Lemma X5_rate_limited_classification_witness :
  rate_limited
    (Exn (lit "APIError") (lit "Upstream " ++ lit "OverLoaded" ++ lit "!"))
  = true.
Proof.
  apply (proj1 (proj2 X5_rate_limited_classification)
           (lit "APIError") (lit "Upstream ") (lit "OverLoaded") (lit "!")).
  vm_compute. reflexivity.
Defined.

(** ** The streaming classifier on whole responses *)

Section ClassifierMore.

Variable suppress_thinking : bool.
Implicit Types (st : StreamState) (text raw : str).

Lemma feed_filter (raws : list str) :
  forall st,
    feed suppress_thinking st (filter (fun raw => raw <> []) raws)
    = feed suppress_thinking st raws.
Proof.
  unfold feed. induction raws as [|raw raws IH]; intros st; [reflexivity|].
  rewrite filter_cons. destruct raw as [|c t].
  - rewrite decide_False by congruence. cbn [foldl].
    now rewrite scan_loop_equation_1.
  - rewrite decide_True by discriminate. cbn [foldl]. apply IH.
Qed.

Lemma concat_filter (raws : list str) :
  concat (filter (fun raw => raw <> []) raws) = concat raws.
Proof.
  induction raws as [|raw raws IH]; [reflexivity|].
  rewrite filter_cons. destruct raw as [|c t].
  - rewrite decide_False by congruence. exact IH.
  - rewrite decide_True by discriminate. cbn. now rewrite IH.
Qed.

Lemma process_chunks_texts (l : list chunk) st :
  process_chunks suppress_thinking st l
  = add_msg (feed suppress_thinking st (texts_of l)) (concat (texts_of l)).
Proof.
  rewrite process_chunks_feed. unfold texts_of.
  now rewrite feed_filter, concat_filter.
Qed.

End ClassifierMore.

(** X6: only the non-empty texts of the chunks matter, in their order:
    chunks without text (no delta, no content, [None] or an empty
    string) are skipped, and a text counts the same in a delta and in a
    [content] attribute. *)
Theorem X6_chunks_without_text_ignored (suppress_thinking : bool)
    (c c' : completion) :
  texts_of (chunks c) = texts_of (chunks c') ->
  stream_raises c = stream_raises c' ->
  choices c = choices c' ->
  content c = content c' ->
  (forall st, process_chunks suppress_thinking st (chunks c)
              = process_chunks suppress_thinking st (chunks c'))
  /\ fst (_process_streaming_response c suppress_thinking)
     = fst (_process_streaming_response c' suppress_thinking).
Proof.
  intros Ht Hr Hc Hn.
  assert (Hst : forall st, process_chunks suppress_thinking st (chunks c)
                           = process_chunks suppress_thinking st (chunks c'))
    by (intros st; now rewrite !process_chunks_texts, Ht).
  split; [exact Hst|].
  unfold _process_streaming_response, fallback_msg.
  rewrite Hst, Hr, Hc, Hn.
  now destruct (suppress_thinking && _).
Qed.

Lemma X6_chunks_without_text_ignored_witness :
  fst (_process_streaming_response
         {| chunks := [NoDeltaChunk; DeltaChunk (Some (lit "<think>a"));
                       DeltaChunk None; ContentChunk (Some []);
                       ContentChunk (Some (lit "</think>b")); OtherChunk];
            stream_raises := false; choices := []; content := None |} true)
  = fst (_process_streaming_response
           {| chunks := [ContentChunk (Some (lit "<think>a"));
                         DeltaChunk (Some (lit "</think>b"))];
              stream_raises := false; choices := []; content := None |}
           true).
Proof.
  apply (X6_chunks_without_text_ignored true
           {| chunks := [NoDeltaChunk; DeltaChunk (Some (lit "<think>a"));
                         DeltaChunk None; ContentChunk (Some []);
                         ContentChunk (Some (lit "</think>b")); OtherChunk];
              stream_raises := false; choices := []; content := None |}
           {| chunks := [ContentChunk (Some (lit "<think>a"));
                         DeltaChunk (Some (lit "</think>b"))];
              stream_raises := false; choices := []; content := None |});
    reflexivity.
Defined.

Section PlainFacts.

Variable suppress_thinking : bool.
Implicit Types (st : StreamState) (text raw seg : str).

Lemma marker_free_no_tag text : marker_free text -> no_tag text.
Proof.
  intros [Ho Hc] j. rewrite contains_false in Ho, Hc.
  unfold tag_at, open_at, close_at. now rewrite Ho, Hc.
Qed.

Lemma final_content_emit st seg :
  final_content (emit_segment suppress_thinking st seg)
  = final_content st
      ++ (if in_thinking st && suppress_thinking then [] else seg).
Proof.
  unfold emit_segment. destruct seg as [|c seg]; cbn [truthy].
  - destruct (_ && _); now rewrite app_nil_r.
  - destruct (_ && _); [now rewrite app_nil_r | reflexivity].
Qed.

Lemma thinking_content_emit st seg :
  thinking_content (emit_segment suppress_thinking st seg)
  = thinking_content st.
Proof.
  unfold emit_segment. destruct (truthy seg); [|reflexivity].
  now destruct (_ && _).
Qed.

Lemma msg_emit st seg :
  msg (emit_segment suppress_thinking st seg) = msg st.
Proof.
  unfold emit_segment. destruct (truthy seg); [|reflexivity].
  now destruct (_ && _).
Qed.

(** Outside a thinking region, fragments without a complete marker are
    appended to [final_content] and change nothing else. *)
Lemma feed_marker_free (raws : list str) :
  forall st,
    in_thinking st = false -> Forall marker_free raws ->
    let st' := feed suppress_thinking st raws in
    msg st' = msg st
    /\ thinking_content st' = thinking_content st
    /\ final_content st' = final_content st ++ concat raws
    /\ in_thinking st' = false.
Proof.
  unfold feed. induction raws as [|raw raws IH]; intros st Hth Hfree.
  - cbn. now rewrite app_nil_r.
  - apply Forall_cons in Hfree. destruct Hfree as [Hraw Hfree].
    cbn [foldl concat]. cbn zeta.
    rewrite (scan_loop_no_tag suppress_thinking st raw
               (marker_free_no_tag _ Hraw)).
    destruct (IH (emit_segment suppress_thinking st raw)) as (Hm & Ht & Hf & Hi);
      [now rewrite in_thinking_emit | exact Hfree |].
    cbn zeta in Hm, Ht, Hf, Hi. rewrite Hm, Ht, Hf, Hi.
    rewrite msg_emit, thinking_content_emit, final_content_emit, Hth.
    cbn [andb]. now rewrite app_assoc.
Qed.

End PlainFacts.

(** X7: when no fragment holds a complete marker, in particular when
    every marker is split across fragments, the text is returned as it
    was received, with thinking suppressed or not. *)
Theorem X7_no_complete_marker_verbatim (suppress_thinking : bool)
    (c : completion) :
  Forall marker_free (map chunk_text (chunks c)) ->
  stream_raises c = false ->
  let st := process_chunks suppress_thinking initial_state (chunks c) in
  final_content st = concat (map chunk_text (chunks c))
  /\ thinking_content st = []
  /\ in_thinking st = false
  /\ fst (_process_streaming_response c suppress_thinking)
     = Some (concat (map chunk_text (chunks c))).
Proof.
  intros Hfree Hr st.
  assert (Hst : final_content st = concat (map chunk_text (chunks c))
                /\ thinking_content st = [] /\ in_thinking st = false
                /\ msg st = concat (map chunk_text (chunks c))).
  { unfold st. rewrite process_chunks_feed.
    destruct (feed_marker_free suppress_thinking (map chunk_text (chunks c))
                initial_state eq_refl Hfree) as (Hm & Ht & Hf & Hi).
    cbn zeta in Hm, Ht, Hf, Hi.
    cbn [add_msg final_content thinking_content in_thinking msg].
    rewrite Hm, Ht, Hf, Hi. cbn. auto. }
  destruct Hst as (Hf & Ht & Hi & Hm).
  split; [exact Hf|]. split; [exact Ht|]. split; [exact Hi|].
  unfold _process_streaming_response. fold st. rewrite Hr, Hf, Hm.
  now destruct (suppress_thinking && _).
Qed.

Lemma X7_no_complete_marker_verbatim_witness :
  fst (_process_streaming_response
         {| chunks := [DeltaChunk (Some (lit "a<thi"));
                       DeltaChunk (Some (lit "nk>b</thi"));
                       DeltaChunk (Some (lit "nk>c"))];
            stream_raises := false; choices := []; content := None |} true)
  = Some (lit "a<think>b</think>c").
Proof.
  apply (X7_no_complete_marker_verbatim true
           {| chunks := [DeltaChunk (Some (lit "a<thi"));
                         DeltaChunk (Some (lit "nk>b</thi"));
                         DeltaChunk (Some (lit "nk>c"))];
              stream_raises := false; choices := []; content := None |}).
  - repeat constructor.
  - reflexivity.
Defined.

Section ThinkingFacts.

Implicit Types (st : StreamState) (text raw : str).

Lemma first_tag_at_start text :
  tag_at text 0 = true -> first_tag text 0.
Proof. intros H. split; [exact H | intros k Hk; lia]. Qed.

(** In a thinking region that no closing marker ends, suppression
    drops everything. *)
Lemma scan_loop_thinking text :
  forall st,
    in_thinking st = true ->
    contains text THINK_CLOSE = false ->
    final_content (scan_loop true st text) = final_content st
    /\ in_thinking (scan_loop true st text) = true.
Proof.
  induction text as [| text Hne Hnone | text j Hfirst Ho IH
                     | text j Hfirst Hc IH] using tag_ind;
    intros st Hth Hclose.
  - now rewrite scan_loop_equation_1.
  - rewrite (scan_loop_no_tag _ _ _ Hnone).
    now rewrite final_content_emit, in_thinking_emit, Hth, app_nil_r.
  - rewrite (scan_loop_open _ _ _ _ Hfirst Ho).
    destruct (IH (enter_thinking (emit_segment true st (take j text))))
      as [Hf Hi]; [reflexivity | |].
    + rewrite contains_false in Hclose |- *. intros k.
      rewrite drop_drop. apply Hclose.
    + rewrite Hf, Hi. cbn [final_content enter_thinking].
      now rewrite final_content_emit, Hth, app_nil_r.
  - rewrite contains_false in Hclose. unfold close_at in Hc.
    now rewrite Hclose in Hc.
Qed.

Lemma feed_thinking (raws : list str) :
  forall st,
    in_thinking st = true ->
    Forall (fun raw => contains raw THINK_CLOSE = false) raws ->
    final_content (feed true st raws) = final_content st
    /\ in_thinking (feed true st raws) = true.
Proof.
  unfold feed. induction raws as [|raw raws IH]; intros st Hth Hclose;
    [auto|].
  apply Forall_cons in Hclose. destruct Hclose as [Hraw Hclose].
  cbn [foldl].
  destruct (scan_loop_thinking raw st Hth Hraw) as [Hf Hi].
  destruct (IH (scan_loop true st raw) Hi Hclose) as [Hf' Hi'].
  now rewrite Hf', Hi', Hf.
Qed.

Lemma msg_feed (suppress_thinking : bool) (raws : list str) :
  forall st, msg (feed suppress_thinking st raws) = msg st.
Proof.
  unfold feed. induction raws as [|raw raws IH]; intros st; [reflexivity|].
  cbn [foldl]. rewrite IH, scan_loop_tokens.
  apply (apply_tokens_fields suppress_thinking).
Qed.

End ThinkingFacts.

(** X8: a response that is thinking from its first character on (the
    first text starts with the opening marker and no fragment holds a
    closing marker) leaves the suppressed answer empty, and is then
    returned as it was received, markers and thinking text included. *)
Theorem X8_thinking_only_returned_raw (c : completion) (first : str)
    (rest : list str) :
  texts_of (chunks c) = first :: rest ->
  startswith first THINK_OPEN = true ->
  Forall (fun raw => contains raw THINK_CLOSE = false) (first :: rest) ->
  stream_raises c = false ->
  final_content (process_chunks true initial_state (chunks c)) = []
  /\ fst (_process_streaming_response c true)
     = Some (concat (first :: rest))
  /\ startswith (concat (first :: rest)) THINK_OPEN = true.
Proof.
  intros Htexts Hopen Hclose Hr.
  assert (Hf : final_content (process_chunks true initial_state (chunks c))
               = []).
  { rewrite process_chunks_texts, Htexts. cbn [add_msg final_content].
    apply Forall_cons in Hclose. destruct Hclose as [Hfirst Hrest].
    change (feed true initial_state (first :: rest))
      with (feed true (scan_loop true initial_state first) rest).
    assert (Htag : first_tag first 0).
    { apply first_tag_at_start. unfold tag_at, open_at.
      now rewrite drop_0, Hopen. }
    assert (Ho : open_at first 0 = true)
      by (unfold open_at; now rewrite drop_0).
    rewrite (scan_loop_open true initial_state first 0 Htag Ho).
    rewrite take_0. unfold emit_segment. cbn [truthy Nat.add].
    destruct (scan_loop_thinking (drop 7 first)
                (enter_thinking initial_state) eq_refl) as [Hf Hi].
    { rewrite contains_false in Hfirst |- *. intros k.
      rewrite drop_drop. apply Hfirst. }
    destruct (feed_thinking rest _ Hi Hrest) as [Hf' _].
    now rewrite Hf', Hf. }
  split; [exact Hf|]. split.
  - unfold _process_streaming_response. rewrite Hf, Hr.
    rewrite andb_false_r. cbn [fst]. f_equal.
    rewrite process_chunks_texts, Htexts. cbn [add_msg msg].
    now rewrite msg_feed.
  - cbn [concat]. now apply startswith_app_l.
Qed.

Lemma X8_thinking_only_returned_raw_witness :
  fst (_process_streaming_response
         {| chunks := [DeltaChunk (Some (lit "<think>let me"));
                       DeltaChunk (Some (lit " see"))];
            stream_raises := false; choices := []; content := None |} true)
  = Some (lit "<think>let me see").
Proof.
  apply (X8_thinking_only_returned_raw
           {| chunks := [DeltaChunk (Some (lit "<think>let me"));
                         DeltaChunk (Some (lit " see"))];
              stream_raises := false; choices := []; content := None |}
           (lit "<think>let me") [lit " see"]).
  - reflexivity.
  - reflexivity.
  - repeat constructor.
  - reflexivity.
Defined.

Section SpanFacts.

Variable suppress_thinking : bool.
Implicit Types (st : StreamState) (text a r : str).

Lemma marker_inner_not_lt (m : str) (k : nat) :
  m = THINK_OPEN \/ m = THINK_CLOSE ->
  (1 <= k)%nat -> m !! k <> Some "<"%char.
Proof.
  intros [-> | ->] Hk;
    do 9 (destruct k as [|k]; [try lia; try (cbn; discriminate)|]);
    cbn; discriminate.
Qed.

(** No marker runs over the start of another marker. *)
Lemma unsplit_before_marker a r : unsplit a ("<"%char :: r).
Proof.
  assert (H : forall m j,
            m = THINK_OPEN \/ m = THINK_CLOSE ->
            (j < length a)%nat ->
            startswith (drop j (a ++ "<"%char :: r)) m = true ->
            (j + length m <= length a)%nat).
  { intros m j Hm Hj Hs.
    destruct (decide (j + length m <= length a)%nat) as [|Hgt];
      [assumption | exfalso].
    rewrite drop_app_le in Hs by lia.
    apply startswith_prefix in Hs.
    set (k := (length a - j)%nat).
    assert (Hk : (k < length m)%nat) by (unfold k; lia).
    destruct (lookup_lt_is_Some_2 m k Hk) as [x Hx].
    pose proof (prefix_lookup_Some _ _ _ _ Hx Hs) as Hx'.
    rewrite lookup_app_r in Hx' by (rewrite length_drop; lia).
    rewrite length_drop in Hx'.
    replace (k - (length a - j))%nat with 0%nat in Hx' by (unfold k; lia).
    cbn in Hx'. injection Hx' as <-.
    apply (marker_inner_not_lt m k Hm); [unfold k; lia | exact Hx]. }
  intros j Hj. split; intros E.
  - apply (H THINK_OPEN j (or_introl eq_refl) Hj E).
  - apply (H THINK_CLOSE j (or_intror eq_refl) Hj E).
Qed.

Lemma scan_loop_before_open st a r :
  marker_free a ->
  scan_loop suppress_thinking st (a ++ THINK_OPEN ++ r)
  = scan_loop suppress_thinking
      (enter_thinking (emit_segment suppress_thinking st a)) r.
Proof.
  intros Ha.
  rewrite (scan_loop_app suppress_thinking (THINK_OPEN ++ r) a st
             (unsplit_before_marker a _)).
  rewrite (scan_loop_no_tag _ st a (marker_free_no_tag _ Ha)).
  assert (Ho : open_at (THINK_OPEN ++ r) 0 = true)
    by (unfold open_at; rewrite drop_0; apply startswith_app).
  rewrite (scan_loop_open _ _ (THINK_OPEN ++ r) 0).
  - rewrite take_0.
    change (0 + 7)%nat with (length THINK_OPEN).
    rewrite drop_app_length. reflexivity.
  - apply first_tag_at_start. unfold tag_at. now rewrite Ho.
  - exact Ho.
Qed.

Lemma scan_loop_before_close st a r :
  marker_free a ->
  scan_loop suppress_thinking st (a ++ THINK_CLOSE ++ r)
  = scan_loop suppress_thinking
      (leave_thinking (emit_segment suppress_thinking st a)) r.
Proof.
  intros Ha.
  rewrite (scan_loop_app suppress_thinking (THINK_CLOSE ++ r) a st
             (unsplit_before_marker a _)).
  rewrite (scan_loop_no_tag _ st a (marker_free_no_tag _ Ha)).
  assert (Hc : close_at (THINK_CLOSE ++ r) 0 = true)
    by (unfold close_at; rewrite drop_0; apply startswith_app).
  rewrite (scan_loop_close _ _ (THINK_CLOSE ++ r) 0).
  - rewrite take_0.
    change (0 + 8)%nat with (length THINK_CLOSE).
    rewrite drop_app_length. reflexivity.
  - apply first_tag_at_start. unfold tag_at. rewrite Hc. apply orb_true_r.
  - exact Hc.
Qed.

End SpanFacts.

(** ** An opening marker that comes in two fragments *)

Section SplitMarkerFacts.

Implicit Types (head tail thought answer : str).

Lemma split_marker_parts head tail :
  head ++ tail = THINK_OPEN -> head <> [] -> tail <> [] ->
  exists k, (1 <= k <= 6)%nat
            /\ head = take k THINK_OPEN /\ tail = drop k THINK_OPEN.
Proof.
  intros H Hh Ht. exists (length head).
  assert (Hlen : (length head + length tail = 7)%nat).
  { rewrite <- length_app, H. reflexivity. }
  destruct head; [congruence|]. destruct tail; [congruence|].
  cbn [length] in *. split; [lia|]. rewrite <- H.
  change (S (length head)) with (length (a :: head)).
  now rewrite take_app_length, drop_app_length.
Qed.

Lemma marker_free_head head tail :
  head ++ tail = THINK_OPEN -> head <> [] -> tail <> [] ->
  marker_free head.
Proof.
  intros H Hh Ht.
  destruct (split_marker_parts head tail H Hh Ht) as (k & Hk & -> & _).
  do 7 (destruct k as [|k]; [try lia; split; vm_compute; reflexivity|]).
  lia.
Qed.

Lemma no_lt_tail head tail :
  head ++ tail = THINK_OPEN -> head <> [] -> tail <> [] ->
  Forall (fun c => c <> "<"%char) tail.
Proof.
  intros H Hh Ht.
  destruct (split_marker_parts head tail H Hh Ht) as (k & Hk & _ & ->).
  do 7 (destruct k as [|k];
        [try lia; vm_compute; repeat constructor; discriminate|]).
  lia.
Qed.

(** A text that follows characters other than [<] holds the markers it
    held alone. *)
Lemma marker_free_after tail text :
  Forall (fun c => c <> "<"%char) tail ->
  marker_free text -> marker_free (tail ++ text).
Proof.
  intros Htail [Ho Hc]. unfold marker_free.
  rewrite !contains_false in *.
  induction Htail as [|c tail Hc' _ IH]; [now split|].
  destruct IH as [IHo IHc].
  assert (Hneq : Ascii.eqb c "<"%char = false)
    by now apply Ascii.eqb_neq.
  split; intros [|j]; cbn [drop app]; auto.
  - change THINK_OPEN with ("<"%char :: lit "think>").
    cbn [startswith]. now rewrite Hneq.
  - change THINK_CLOSE with ("<"%char :: lit "/think>").
    cbn [startswith]. now rewrite Hneq.
Qed.

(** The loop on the two fragments: the first part of the marker is
    answer text, and so are the second part and the thinking text. *)
Lemma split_open_final head tail thought answer :
  head ++ tail = THINK_OPEN -> head <> [] -> tail <> [] ->
  marker_free thought -> marker_free answer ->
  final_content
    (process_chunks true initial_state
       (split_open_stream head tail thought answer))
  = THINK_OPEN ++ thought ++ answer.
Proof.
  intros H Hh Ht Hthought Hanswer.
  rewrite process_chunks_feed. cbn [final_content add_msg].
  unfold split_open_stream, feed. cbn [map chunk_text foldl].
  rewrite (scan_loop_no_tag true initial_state head)
    by (apply marker_free_no_tag; eauto using marker_free_head).
  rewrite (app_assoc tail thought).
  rewrite scan_loop_before_close
    by (apply marker_free_after; eauto using no_lt_tail).
  rewrite scan_loop_no_tag by now apply marker_free_no_tag.
  rewrite !final_content_emit. cbn [final_content leave_thinking in_thinking].
  rewrite !final_content_emit, !in_thinking_emit.
  cbn [final_content in_thinking initial_state andb app].
  rewrite <- H, <- !app_assoc. reflexivity.
Qed.

End SplitMarkerFacts.

(** C7: the code does not keep thinking markup out of a success record,
    even when it is asked to suppress it.  When the opening marker comes
    in two fragments, neither part is recognised: the call made with
    [suppress_thinking = true] succeeds, and its response holds the
    opening marker and the thinking text in front of the answer. *)
Theorem C7_split_marker_leaks (ex : str -> str) (reg : registry)
    (net : network) (model_key query : str) (cls : model_class)
    (info : gmap str str) (c : completion)
    (head tail thought answer : str) (start_time end_time : Q) :
  _models reg !! model_key = Some cls ->
  _model_info reg !! model_key = Some info ->
  net (model_id cls) query Primary 0 = Ret c ->
  chunks c = split_open_stream head tail thought answer ->
  head ++ tail = THINK_OPEN -> head <> [] -> tail <> [] ->
  marker_free thought -> marker_free answer ->
  let r := _execute_single_model ex reg net model_key query true true
             start_time end_time in
  status r = success
  /\ raw_completion r = Some c
  /\ response r = THINK_OPEN ++ thought ++ answer
  /\ ~ no_markup (response r).
Proof.
  intros Hcls Hinfo Hnet Hchunks H Hh Ht Hthought Hanswer.
  pose proof (split_open_final head tail thought answer H Hh Ht
                Hthought Hanswer) as Hfinal.
  rewrite <- Hchunks in Hfinal.
  assert (Hbody :
            attempt_body ex (net (model_id cls) query) true true Primary 0
            = Ret (THINK_OPEN ++ thought ++ answer, c)).
  { unfold attempt_body. rewrite Hnet.
    unfold _process_streaming_response. rewrite Hfinal.
    reflexivity. }
  assert (Hfound :
            fst (search_with_retry ex (net (model_id cls) query) true true)
            = (Some (THINK_OPEN ++ thought ++ answer), Some c)).
  { unfold search_with_retry, range3. cbn [tier_loop].
    rewrite Hbody. reflexivity. }
  intros r.
  assert (Hr : r = {| model_key := model_key;
                      model_name :=
                        default (default_name model_key)
                                (info !! lit "name");
                      response := THINK_OPEN ++ thought ++ answer;
                      execution_time := end_time - start_time;
                      status := success;
                      error_message := None;
                      raw_completion := Some c |}).
  { unfold r, _execute_single_model, single_model_body.
    rewrite Hcls, Hinfo, Hfound. reflexivity. }
  rewrite Hr. cbn [status raw_completion response].
  repeat split.
  intros [Ho _]. rewrite (proj2 (contains_true _ _)) in Ho; [discriminate|].
  exists 0%nat. rewrite drop_0. apply startswith_app.
Qed.

Lemma C7_split_marker_leaks_witness :
  response
    (_execute_single_model id demo_registry
       (fun _ _ _ _ =>
          Ret {| chunks :=
                   split_open_stream (lit "<thi") (lit "nk>")
                     (lit "secret plan") (lit "4");
                 stream_raises := false; choices := [];
                 content := None |})
       (lit "gpt_search") (lit "2+2?") true true 0 2)
  = lit "<think>secret plan4".
Proof.
  refine (proj1 (proj2 (proj2
    (C7_split_marker_leaks id demo_registry _ (lit "gpt_search")
       (lit "2+2?") (mkModelClass (lit "gpt-4o-search"))
       {[ lit "name" := lit "GPT Search" ]}
       {| chunks :=
            split_open_stream (lit "<thi") (lit "nk>")
              (lit "secret plan") (lit "4");
          stream_raises := false; choices := []; content := None |}
       (lit "<thi") (lit "nk>") (lit "secret plan") (lit "4") 0 2
       _ _ _ _ _ _ _ _ _)))).
  - reflexivity.
  - reflexivity.
  - reflexivity.
  - reflexivity.
  - reflexivity.
  - discriminate.
  - discriminate.
  - split; vm_compute; reflexivity.
  - split; vm_compute; reflexivity.
Defined.

(** X9: a fragment with one thinking span between texts that hold no
    marker: the markers are consumed; with suppression the span is left
    out and the texts before and after it are joined as they are;
    without it only the markers are left out of [final_content], and
    the function returns the text as received. *)
Theorem X9_single_span_excised (suppress_thinking : bool)
    (before thought after : str) :
  marker_free before -> marker_free thought -> marker_free after ->
  let text := before ++ THINK_OPEN ++ thought ++ THINK_CLOSE ++ after in
  let st := process_chunks suppress_thinking initial_state
              [DeltaChunk (Some text)] in
  msg st = text
  /\ final_content st
     = (if suppress_thinking then before ++ after
        else before ++ thought ++ after)
  /\ thinking_content st = THINK_OPEN ++ THINK_CLOSE
  /\ in_thinking st = false
  /\ fst (_process_streaming_response (streamed text) suppress_thinking)
     = Some (if suppress_thinking && truthy (before ++ after)
             then before ++ after else text).
Proof.
  intros Hb Ht Ha text st.
  assert (Hst : st = {| msg := text;
                        thinking_content := THINK_OPEN ++ THINK_CLOSE;
                        final_content :=
                          if suppress_thinking then before ++ after
                          else before ++ thought ++ after;
                        in_thinking := false |}).
  { unfold st. rewrite process_chunks_feed. cbn [map chunk_text concat].
    rewrite app_nil_r. unfold feed. cbn [foldl]. subst text.
    rewrite scan_loop_before_open by exact Hb.
    rewrite scan_loop_before_close by exact Ht.
    rewrite (scan_loop_no_tag _ _ after (marker_free_no_tag _ Ha)).
    unfold add_msg.
    rewrite msg_emit, thinking_content_emit, final_content_emit,
      in_thinking_emit.
    cbn [msg thinking_content final_content in_thinking leave_thinking
         enter_thinking].
    rewrite msg_emit, thinking_content_emit, final_content_emit.
    cbn [msg thinking_content final_content in_thinking enter_thinking].
    rewrite msg_emit, thinking_content_emit, final_content_emit.
    cbn [msg thinking_content final_content in_thinking initial_state
         andb app].
    destruct suppress_thinking; cbn [andb]; rewrite ?app_nil_r, <- ?app_assoc;
      reflexivity. }
  rewrite Hst. cbn [msg final_content thinking_content in_thinking].
  repeat (split; [reflexivity|]).
  unfold _process_streaming_response, streamed. cbn [chunks stream_raises].
  fold st. rewrite Hst. cbn [msg final_content].
  destruct suppress_thinking; cbn [andb]; [|reflexivity].
  now destruct (truthy (before ++ after)).
Qed.

Lemma X9_single_span_excised_witness :
  fst (_process_streaming_response
         (streamed (lit "Hi. " ++ THINK_OPEN ++ lit "plan" ++ THINK_CLOSE
                    ++ lit "Done."))
         true)
  = Some (lit "Hi. Done.").
Proof.
  apply (X9_single_span_excised true (lit "Hi. ") (lit "plan") (lit "Done."));
    split; reflexivity.
Defined.

(** ** The records of the dispatcher *)

Section RecordFacts.

Variable ex : str -> str.
Variable reg : registry.
Variable net : network.

Lemma _execute_single_model_status (model_key query : str)
    (suppress_thinking streaming : bool) (start_time end_time : Q) :
  let r := _execute_single_model ex reg net model_key query
             suppress_thinking streaming start_time end_time in
  status r = success \/ status r = error.
Proof.
  cbn zeta. unfold _execute_single_model, single_model_body.
  destruct (_models reg !! model_key) as [cls|]; [|now right].
  destruct (_model_info reg !! model_key) as [info|]; [|now right].
  destruct (search_with_retry _ _ _ _) as [[[[|c m]|] comp] events];
    cbn; auto.
Qed.

End RecordFacts.

Lemma _execute_single_model_record (ex : str -> str) (reg : registry)
    (net : network) (model_key query : str)
    (suppress_thinking streaming : bool) (start_time end_time : Q) :
  let r := _execute_single_model ex reg net model_key query
             suppress_thinking streaming start_time end_time in
  ParallelExecutor.model_key r = model_key
  /\ execution_time r = (end_time - start_time)%Q
  /\ (status r = success \/ status r = error)
  /\ (status r = success ->
      response r <> [] /\ error_message r = None
      /\ is_Some (raw_completion r)
      /\ exists info,
           _model_info reg !! model_key = Some info
           /\ model_name r
              = default (default_name model_key) (info !! lit "name"))
  /\ (status r = error ->
      model_name r = default_name model_key
      /\ response r = [] /\ raw_completion r = None
      /\ is_Some (error_message r)).
Proof.
  cbn zeta. unfold _execute_single_model, single_model_body.
  destruct (_models reg !! model_key) as [cls|];
    [|cbn; repeat split; try discriminate; eauto].
  destruct (_model_info reg !! model_key) as [info|];
    [|cbn; repeat split; try discriminate; eauto].
  rewrite search_with_retry_result.
  destruct (first_return ex (net (model_id cls) query) streaming
              suppress_thinking schedule) as [[m c]|] eqn:F.
  - apply first_return_attempt in F. destruct F as (t & a & F).
    apply attempt_body_Ret in F. destruct F as [_ Hm].
    destruct m as [|ch m]; [congruence|]. cbn.
    repeat split; try discriminate; eauto.
  - cbn. repeat split; try discriminate; eauto.
Qed.

(** X10: the shape of the record of a task.  It carries the requested
    key and the elapsed time and is a success or an error, never a
    timeout.  A success carries a non-empty response, the completion
    object, no message, and the display name that the registry gives;
    when the registry gives none, its name is the key in title case.
    An error carries a message, an empty response, no completion object
    and the key in title case as its name, even when the registry has a
    display name.  The title case is that of [title] for a key of ASCII
    characters. *)
Theorem X10_single_model_record_shape (ex : str -> str) (reg : registry)
    (net : network) (model_key query : str)
    (suppress_thinking streaming : bool) (start_time end_time : Q) :
  let r := _execute_single_model ex reg net model_key query
             suppress_thinking streaming start_time end_time in
  ParallelExecutor.model_key r = model_key
  /\ execution_time r = (end_time - start_time)%Q
  /\ (status r = success \/ status r = error)
  /\ (status r = success ->
      response r <> [] /\ error_message r = None
      /\ is_Some (raw_completion r)
      /\ exists info,
           _model_info reg !! model_key = Some info
           /\ (forall name,
                 info !! lit "name" = Some name -> model_name r = name)
           /\ (info !! lit "name" = None -> ascii_text model_key ->
               model_name r = default_name model_key))
  /\ (status r = error ->
      response r = [] /\ raw_completion r = None
      /\ is_Some (error_message r)
      /\ (ascii_text model_key ->
          model_name r = default_name model_key)).
Proof.
  intros r.
  destruct (_execute_single_model_record ex reg net model_key query
              suppress_thinking streaming start_time end_time)
    as (Hkey & Htime & Hstatus & Hsuccess & Herror).
  fold r in Hkey, Htime, Hstatus, Hsuccess, Herror.
  split; [exact Hkey|]. split; [exact Htime|]. split; [exact Hstatus|].
  split.
  - intros Hs. destruct (Hsuccess Hs) as (Hr & He & Hc & info & Hi & Hn).
    split; [exact Hr|]. split; [exact He|]. split; [exact Hc|].
    exists info. split; [exact Hi|]. split.
    + intros name Hname. now rewrite Hn, Hname.
    + intros Hnone _. now rewrite Hn, Hnone.
  - intros Hs. destruct (Herror Hs) as (Hn & Hr & Hc & He). auto.
Qed.


Section BatchFacts.

Variable ex : str -> str.
Variable reg : registry.
Variable net : network.
Variable self_timeout : Z.
Variable model_keys : list str.
Variable query : str.
Variables suppress_thinking streaming : bool.
Variable clock : nat -> Q * Q.

Local Abbreviation task :=
  (ParallelExecutor.task ex reg net model_keys query suppress_thinking
     streaming clock).

Lemma collect_all_omap (finished : list nat) :
  collect_all self_timeout model_keys (fun i => Ret (Some (task i))) finished
  = omap (fun i => match model_keys !! i with
                   | Some _ => Some (task i)
                   | None => None
                   end) finished.
Proof.
  unfold collect_all.
  enough (H : forall acc,
    foldl (fun results i =>
             match model_keys !! i with
             | Some model_key =>
                 collect self_timeout results model_key (Ret (Some (task i)))
             | None => results
             end) acc finished
    = acc ++ omap (fun i => match model_keys !! i with
                            | Some _ => Some (task i)
                            | None => None
                            end) finished) by (now rewrite H).
  induction finished as [|i l IH]; intros acc; cbn.
  - now rewrite app_nil_r.
  - rewrite IH. destruct (model_keys !! i); cbn; [|reflexivity].
    now rewrite <- app_assoc.
Qed.

Lemma execute_models_collected (finished : list nat)
    (results : list ModelResult) :
  execute_models ex reg net self_timeout model_keys query
    suppress_thinking streaming clock finished = Ret results ->
  results = omap (fun i => match model_keys !! i with
                           | Some _ => Some (task i)
                           | None => None
                           end) finished.
Proof.
  unfold execute_models, execute_models_with.
  destruct (all_finished (length model_keys) finished); [|discriminate].
  intros [= <-]. apply collect_all_omap.
Qed.

Lemma execute_models_keys (finished : list nat) (results : list ModelResult) :
  execute_models ex reg net self_timeout model_keys query
    suppress_thinking streaming clock finished = Ret results ->
  map ParallelExecutor.model_key results
  = omap (fun i => model_keys !! i) finished.
Proof.
  intros H. rewrite (execute_models_collected _ _ H). clear.
  induction finished as [|i l IH]; [reflexivity|]. cbn.
  destruct (model_keys !! i) as [k|] eqn:Hk; cbn; [|exact IH].
  f_equal; [|exact IH].
  unfold ParallelExecutor.task. rewrite _execute_single_model_key.
  now rewrite Hk.
Qed.

Lemma execute_models_statuses (finished : list nat)
    (results : list ModelResult) :
  execute_models ex reg net self_timeout model_keys query
    suppress_thinking streaming clock finished = Ret results ->
  Forall (fun r => status r = success \/ status r = error) results.
Proof.
  intros H. rewrite (execute_models_collected _ _ H). clear.
  induction finished as [|i l IH]; [constructor|]. cbn.
  destruct (model_keys !! i) as [k|]; cbn; [|exact IH].
  constructor; [|exact IH].
  apply (_execute_single_model_status ex reg net).
Qed.

End BatchFacts.



Lemma X10_single_model_record_shape_witness :
  model_name (_execute_single_model id demo_registry refusing_network
                (lit "gpt_search") (lit "2+2?") true true 0 49)
  = lit "Gpt Search".
Proof.
  destruct (X10_single_model_record_shape id demo_registry refusing_network
              (lit "gpt_search") (lit "2+2?") true true 0 49)
    as (_ & _ & _ & _ & Herror).
  destruct (Herror ltac:(vm_compute; reflexivity)) as (_ & _ & _ & Hname).
  rewrite Hname; [vm_compute; reflexivity|].
  unfold ascii_text. repeat constructor.
Defined.


(** ** Counts and rates of the summaries *)

Section SummaryFacts.

Lemma filter_length_split {A} (P : A -> Prop) `{!forall x, Decision (P x)}
    (l : list A) :
  len (filter P l) + len (filter (fun x => ~ P x) l) = len l.
Proof.
  unfold len. induction l as [|x l IH]; [reflexivity|].
  rewrite !filter_cons. destruct (decide (P x)) as [Hx|Hx].
  - rewrite decide_False by tauto. cbn [length]. lia.
  - rewrite decide_True by tauto. cbn [length]. lia.
Qed.

Lemma filter_length_le {A} (P : A -> Prop) `{!forall x, Decision (P x)}
    (l : list A) :
  0 <= len (filter P l) <= len l.
Proof.
  unfold len. pose proof (length_filter P l). lia.
Qed.

Lemma rate_bounds (a b : Z) :
  0 <= a <= b -> 0 < b ->
  (0 <= inject_Z a / inject_Z b <= 1)%Q.
Proof.
  intros Ha Hb.
  assert (Hb' : (0 < inject_Z b)%Q) by (unfold Qlt; cbn; lia).
  split.
  - apply Qle_shift_div_l; [exact Hb'|]. unfold Qle. cbn. lia.
  - apply Qle_shift_div_r; [exact Hb'|]. unfold Qle. cbn. lia.
Qed.

End SummaryFacts.

(** X12: the counts of the executor's summary.  The call returns; every
    result is counted once, as a success or as a failure; the success
    rate lies between 0 and 1. *)
Theorem X12_get_execution_summary_counts (results : list ModelResult) :
  exists s,
    get_execution_summary results = Ret s
    /\ ParallelExecutor.total_models s = len results
    /\ successful s + failed s = ParallelExecutor.total_models s
    /\ 0 <= successful s /\ 0 <= failed s
    /\ (0 <= ParallelExecutor.success_rate s <= 1)%Q.
Proof.
  destruct (get_execution_summary_total results) as (s & Hs & _).
  exists s. split; [exact Hs|].
  revert Hs. unfold get_execution_summary.
  assert (Hsplit : len (get_successful_results results)
                   + len (get_failed_results results) = len results)
    by exact (filter_length_split (fun r => status r = success) results).
  pose proof (filter_length_le (fun r => status r = success) results)
    as Hle.
  pose proof (filter_length_le (fun r => status r <> success) results)
    as Hle'.
  fold (get_successful_results results) in Hle.
  fold (get_failed_results results) in Hle'.
  destruct (if 0 <? len (get_successful_results results) then _ else _)
    as [stats|]; [|discriminate]. cbn.
  destruct (Z.ltb_spec 0 (len results)) as [Hpos|Hz].
  - rewrite py_div_positive by exact Hpos. cbn. intros [= <-]. cbn.
    repeat split; try lia; apply rate_bounds; lia.
  - cbn. intros [= <-]. cbn. repeat split; try lia; discriminate.
Qed.

(** X13: the summary of the executor and the summary of the aggregator
    agree on every list of results: both are returned, and they report
    the same average, shortest and longest time, and success rates of
    the same value. *)
Theorem X13_execution_summaries_agree (results : list ModelResult) :
  exists s d,
    get_execution_summary results = Ret s
    /\ ReportAggregator._calculate_execution_summary results = Ret d
    /\ ParallelExecutor.average_time s = ReportAggregator.average_time d
    /\ ParallelExecutor.min_time s = ReportAggregator.min_time d
    /\ ParallelExecutor.max_time s = ReportAggregator.max_time d
    /\ (ParallelExecutor.success_rate s
        == ReportAggregator.success_rate d)%Q.
Proof.
  unfold get_execution_summary,
    ReportAggregator._calculate_execution_summary.
  fold (get_successful_results results).
  destruct (get_successful_results results) as [|x l] eqn:E.
  - cbn. destruct (Z.ltb_spec 0 (len results)) as [Hpos|Hz].
    + rewrite py_div_positive by exact Hpos. cbn.
      eexists _, _. repeat split.
    + cbn. eexists _, _. repeat split; reflexivity.
  - assert (Hs : 0 < len (x :: l)) by (unfold len; cbn; lia).
    assert (Hr : 0 < len results).
    { destruct results; [discriminate | unfold len; cbn; lia]. }
    rewrite (proj2 (Z.ltb_lt _ _) Hs), (proj2 (Z.ltb_lt _ _) Hr).
    rewrite !py_div_positive by assumption. cbn.
    eexists _, _. repeat split; reflexivity.
Qed.


(** ** Sorting by decreasing key *)

Section SortFacts.

Context {A K : Type}.
Variable key : A -> K.
Variable ltb : K -> K -> bool.

Local Abbreviation insert_desc := (PyList.insert_desc key ltb).
Local Abbreviation sorted_desc := (PyList.sorted_desc key ltb).
Local Abbreviation not_below := (not_below key ltb).
Local Abbreviation same_rank := (same_rank key ltb).

Lemma insert_desc_perm (x : A) (l : list A) :
  insert_desc x l ≡ₚ x :: l.
Proof.
  induction l as [|y l IH]; [reflexivity|]. cbn.
  destruct (ltb (key y) (key x)); [reflexivity|].
  rewrite IH. apply Permutation_swap.
Qed.

Lemma foldl_insert_desc_perm (acc l : list A) :
  foldl (fun acc x => insert_desc x acc) acc l ≡ₚ acc ++ l.
Proof.
  revert acc. induction l as [|x l IH]; intros acc; cbn.
  - now rewrite app_nil_r.
  - rewrite IH, insert_desc_perm. 
    rewrite (Permutation_middle acc l x). reflexivity.
Qed.

Lemma sorted_desc_perm (l : list A) : sorted_desc l ≡ₚ l.
Proof. apply (foldl_insert_desc_perm [] l). Qed.

Hypothesis ltb_order : strict_weak ltb.

Lemma ltb_asym a b : ltb a b = true -> ltb b a = false.
Proof. apply ltb_order. Qed.

Lemma ltb_neg a b c : ltb a b = true -> ltb a c = true \/ ltb c b = true.
Proof. apply ltb_order. Qed.

Lemma ltb_below a b c : ltb a b = true -> ltb a c = false -> ltb c b = true.
Proof.
  intros Hab Hac. destruct (ltb_neg a b c Hab) as [H|H]; congruence.
Qed.

Lemma insert_desc_sorted (x : A) (l : list A) :
  StronglySorted not_below l -> StronglySorted not_below (insert_desc x l).
Proof.
  induction 1 as [|y l Hs IH Hy]; cbn.
  - repeat constructor.
  - destruct (ltb (key y) (key x)) eqn:E.
    + constructor; [now constructor|].
      constructor; [now apply ltb_asym|].
      eapply Forall_impl; [exact Hy|]. cbn. intros z Hz.
      apply ltb_asym. now apply (ltb_below (key y)).
    + constructor; [exact IH|].
      rewrite insert_desc_perm. now constructor.
Qed.

Lemma filter_none (P : A -> Prop) `{!forall x, Decision (P x)}
    (l : list A) :
  Forall (fun z => ~ P z) l -> filter P l = [].
Proof.
  induction 1 as [|z l Hz _ IH]; [reflexivity|].
  rewrite filter_cons, decide_False by exact Hz. exact IH.
Qed.

Lemma insert_desc_filter (k : K) (x : A) (l : list A) :
  StronglySorted not_below l ->
  filter (same_rank k) (insert_desc x l)
  = filter (same_rank k) l ++ filter (same_rank k) [x].
Proof.
  induction 1 as [|y l Hs IH Hy]; [reflexivity|].
  cbn [PyList.insert_desc].
  destruct (ltb (key y) (key x)) eqn:E.
  - rewrite (filter_cons _ x (y :: l)), (filter_cons _ x []), filter_nil.
    destruct (decide (same_rank k x)) as [[Hkx Hxk]|Hx];
      [|now rewrite app_nil_r].
    rewrite (filter_none (same_rank k) (y :: l)); [reflexivity|].
    assert (Hall : Forall (fun z => ltb (key z) (key x) = true) (y :: l)).
    { constructor; [exact E|].
      eapply Forall_impl; [exact Hy|]. cbn. intros z Hz.
      now apply (ltb_below (key y)). }
    eapply Forall_impl; [exact Hall|]. cbn. intros z Hz [Hkz Hzk].
    destruct (ltb_neg _ _ k Hz) as [H|H]; congruence.
  - rewrite !(filter_cons _ y). rewrite IH.
    destruct (decide (same_rank k y)); reflexivity.
Qed.

Lemma foldl_insert_desc_sorted (acc l : list A) :
  StronglySorted not_below acc ->
  StronglySorted not_below (foldl (fun acc x => insert_desc x acc) acc l).
Proof.
  revert acc. induction l as [|x l IH]; intros acc Hacc; [exact Hacc|].
  cbn. apply IH. now apply insert_desc_sorted.
Qed.

Lemma foldl_insert_desc_filter (k : K) (acc l : list A) :
  StronglySorted not_below acc ->
  filter (same_rank k) (foldl (fun acc x => insert_desc x acc) acc l)
  = filter (same_rank k) acc ++ filter (same_rank k) l.
Proof.
  revert acc. induction l as [|x l IH]; intros acc Hacc; cbn [foldl].
  - now rewrite filter_nil, app_nil_r.
  - rewrite IH by now apply insert_desc_sorted.
    rewrite insert_desc_filter by exact Hacc.
    rewrite <- app_assoc. f_equal.
    rewrite (filter_cons _ x l), (filter_cons _ x []).
    destruct (decide (same_rank k x)); reflexivity.
Qed.

Lemma sorted_desc_sorted (l : list A) :
  StronglySorted not_below (sorted_desc l).
Proof. apply foldl_insert_desc_sorted. constructor. Qed.

Lemma sorted_desc_stable (k : K) (l : list A) :
  filter (same_rank k) (sorted_desc l) = filter (same_rank k) l.
Proof.
  unfold PyList.sorted_desc.
  rewrite foldl_insert_desc_filter by constructor. reflexivity.
Qed.

End SortFacts.

Lemma StronglySorted_weaken {A} (R R' : A -> A -> Prop) (l : list A) :
  (forall a b, R a b -> R' a b) ->
  StronglySorted R l -> StronglySorted R' l.
Proof.
  intros HR. induction 1 as [|x l _ IH Hx]; constructor; [exact IH|].
  eapply Forall_impl; [exact Hx | apply HR].
Qed.

Lemma float_lt_spec (x y : Q) : PyList.float_lt x y = true <-> (x < y)%Q.
Proof.
  unfold PyList.float_lt. rewrite negb_true_iff.
  destruct (Qle_bool y x) eqn:E.
  - apply Qle_bool_iff in E. split; [discriminate | lra].
  - split; [intros _ | reflexivity].
    destruct (Qlt_le_dec x y) as [H|H]; [exact H|].
    apply Qle_bool_iff in H. congruence.
Qed.

Lemma float_lt_strict_weak : strict_weak PyList.float_lt.
Proof.
  split.
  - intros a b H. apply float_lt_spec in H.
    destruct (PyList.float_lt b a) eqn:E; [|reflexivity].
    apply float_lt_spec in E. lra.
  - intros a b c H. apply float_lt_spec in H.
    destruct (Qlt_le_dec a c) as [Hac|Hca].
    + left. now apply float_lt_spec.
    + right. apply float_lt_spec. lra.
Qed.

Lemma Zltb_strict_weak : strict_weak Z.ltb.
Proof.
  split.
  - intros a b H. apply Z.ltb_lt in H. apply Z.ltb_ge. lia.
  - intros a b c H. apply Z.ltb_lt in H.
    destruct (Z.ltb_spec a c); [now left|]. right. apply Z.ltb_lt. lia.
Qed.

(** ** The report and the stripping of thinking spans *)

Section AggregatorFacts.

Import ReportAggregator.

Lemma insert_by_length_desc (x : response_info) (l : list response_info) :
  insert_by_length x l = PyList.insert_desc response_length Z.ltb x l.
Proof.
  induction l as [|y l IH]; [reflexivity|]. cbn. now rewrite IH.
Qed.

Lemma sorted_by_length_desc (l : list response_info) :
  sorted_by_length l = PyList.sorted_desc response_length Z.ltb l.
Proof.
  unfold sorted_by_length, PyList.sorted_desc. generalize (@nil response_info).
  induction l as [|x l IH]; intros acc; [reflexivity|]. cbn.
  now rewrite insert_by_length_desc, IH.
Qed.

End AggregatorFacts.

(** X14: the order in which the summary text lists the successful
    answers.  It is a rearrangement of the entries, by decreasing
    length of the answer; entries whose answers have the same length
    stay in the order of the results. *)
Theorem X14_sorted_by_length_order (l : list ReportAggregator.response_info) :
  ReportAggregator.sorted_by_length l ≡ₚ l
  /\ StronglySorted
       (fun a b => ReportAggregator.response_length b
                   <= ReportAggregator.response_length a)
       (ReportAggregator.sorted_by_length l)
  /\ (forall n,
        filter (fun r => ReportAggregator.response_length r = n)
          (ReportAggregator.sorted_by_length l)
        = filter (fun r => ReportAggregator.response_length r = n) l).
Proof.
  rewrite sorted_by_length_desc. split; [apply sorted_desc_perm|]. split.
  - eapply StronglySorted_weaken;
      [|apply (sorted_desc_sorted _ _ Zltb_strict_weak)].
    unfold not_below. intros a b H. now apply Z.ltb_ge in H.
  - intros n.
    pose proof (sorted_desc_stable ReportAggregator.response_length Z.ltb
                  Zltb_strict_weak n l) as H.
    assert (Hiff : forall r : ReportAggregator.response_info,
               ReportAggregator.response_length r = n
               <-> same_rank ReportAggregator.response_length Z.ltb n r).
    { intros r. unfold same_rank. rewrite !Z.ltb_ge. lia. }
    rewrite (list_filter_iff _ _ _ Hiff), H.
    symmetry. apply list_filter_iff, Hiff.
Qed.

Section StripFacts.

Import ReportAggregator.

Implicit Types text sub : str.

Lemma contains_drop text sub (n : nat) :
  contains text sub = false -> contains (drop n text) sub = false.
Proof.
  rewrite !contains_false. intros H j. rewrite drop_drop. apply H.
Qed.

Lemma lower_drop text (n : nat) : lower (drop n text) = drop n (lower text).
Proof.
  revert text. induction n as [|n IH]; intros [|c text]; cbn; auto.
Qed.

Lemma contains_find text sub :
  contains text sub = false <-> find text sub = -1.
Proof.
  unfold contains. destruct (Z.eqb_spec (find text sub) (-1)); cbn;
    split; congruence.
Qed.

Lemma sub_think_spans_sublist (skip : nat) text :
  sub_think_spans skip text `sublist_of` text.
Proof.
  revert skip. induction text as [|c t IH]; intros skip; [constructor|].
  cbn [sub_think_spans]. destruct skip as [|k].
  - destruct (startswith (lower (c :: t)) THINK_OPEN).
    + destruct (_ =? -1).
      * apply sublist_skip, IH.
      * apply sublist_cons, IH.
    + apply sublist_skip, IH.
  - apply sublist_cons, IH.
Qed.

Lemma remove_from_sublist (old : str) (skip : nat) text :
  remove_from old skip text `sublist_of` text.
Proof.
  revert skip. induction text as [|c t IH]; intros skip; [constructor|].
  cbn [remove_from]. destruct skip as [|k].
  - destruct (startswith (c :: t) old).
    + apply sublist_cons, IH.
    + apply sublist_skip, IH.
  - apply sublist_cons, IH.
Qed.

Lemma remove_from_absent (old : str) text :
  contains text old = false -> remove_from old 0 text = text.
Proof.
  rewrite contains_false. induction text as [|c t IH]; intros H;
    [reflexivity|].
  cbn [remove_from]. rewrite (H 0%nat : startswith (c :: t) old = false).
  f_equal. apply IH. intros j. apply (H (S j)).
Qed.

Lemma sub_think_spans_absent text :
  (forall j, startswith (lower (drop j text)) THINK_OPEN = true ->
             find (lower (slice_from (drop j text) (len THINK_OPEN)))
               THINK_CLOSE = -1) ->
  sub_think_spans 0 text = text.
Proof.
  induction text as [|c t IH]; intros H; [reflexivity|].
  cbn [sub_think_spans].
  assert (Ht : sub_think_spans 0 t = t)
    by (apply IH; intros j; apply (H (S j))).
  destruct (startswith (lower (c :: t)) THINK_OPEN) eqn:E;
    [|now rewrite Ht].
  pose proof (H 0%nat E) as H0. rewrite drop_0 in H0.
  cbv zeta. rewrite H0. cbn. now rewrite Ht.
Qed.


(** In [a ++ b] with [b] starting, letter case ignored, with a marker,
    no opening marker, in any letter case, starts in [a] unless [a]
    holds one. *)
Lemma no_open_before_marker (a b r : str) :
  contains (lower a) THINK_OPEN = false ->
  lower b = "<"%char :: r ->
  forall j, (j < length a)%nat ->
    startswith (lower (drop j (a ++ b))) THINK_OPEN = false.
Proof.
  intros Ha Hb j Hj. rewrite lower_drop, lower_app, Hb.
  destruct (startswith _ _) eqn:E; [|reflexivity].
  assert (Hj' : (j < length (lower a))%nat)
    by (unfold lower; now rewrite length_map).
  destruct (unsplit_before_marker (lower a) r j Hj') as [Ho _].
  specialize (Ho E).
  rewrite contains_false in Ha. specialize (Ha j).
  rewrite drop_app_le in E by lia.
  apply startswith_app_inv in E; [congruence|].
  rewrite length_drop. change (length THINK_OPEN) with 7%nat. lia.
Qed.

Lemma no_close_before_marker (a b r : str) :
  contains (lower a) THINK_CLOSE = false ->
  lower b = "<"%char :: r ->
  forall j, (j < length a)%nat ->
    startswith (drop j (lower (a ++ b))) THINK_CLOSE = false.
Proof.
  intros Ha Hb j Hj. rewrite lower_app, Hb.
  destruct (startswith _ _) eqn:E; [|reflexivity].
  assert (Hj' : (j < length (lower a))%nat)
    by (unfold lower; now rewrite length_map).
  destruct (unsplit_before_marker (lower a) r j Hj') as [_ Hc].
  specialize (Hc E).
  rewrite contains_false in Ha. specialize (Ha j).
  rewrite drop_app_le in E by lia.
  apply startswith_app_inv in E; [congruence|].
  rewrite length_drop. change (length THINK_CLOSE) with 8%nat. lia.
Qed.

Lemma sub_think_spans_skip (a b : str) :
  sub_think_spans (length a) (a ++ b) = sub_think_spans 0 b.
Proof. induction a as [|c a IH]; [reflexivity | exact IH]. Qed.

Lemma sub_think_spans_before (a b : str) :
  (forall j, (j < length a)%nat ->
     startswith (lower (drop j (a ++ b))) THINK_OPEN = false) ->
  sub_think_spans 0 (a ++ b) = a ++ sub_think_spans 0 b.
Proof.
  induction a as [|c a IH]; intros H; [reflexivity|].
  cbn [app sub_think_spans].
  rewrite (H 0%nat ltac:(cbn; lia) : startswith (lower (c :: a ++ b)) _ = false).
  f_equal. apply IH. intros j Hj. apply (H (S j)). cbn. lia.
Qed.

Lemma sub_think_spans_plain (text : str) :
  contains (lower text) THINK_OPEN = false
  \/ contains (lower text) THINK_CLOSE = false ->
  sub_think_spans 0 text = text.
Proof.
  intros Hci. apply sub_think_spans_absent.
  intros j Hj. destruct Hci as [Hci|Hci].
  - rewrite contains_false in Hci. specialize (Hci j).
    rewrite <- lower_drop in Hci. congruence.
  - apply contains_find. unfold slice_from.
    rewrite !lower_drop. now apply contains_drop, contains_drop.
Qed.

End StripFacts.

(** X15: stripping thinking spans only deletes.  The stripped text of
    an ASCII text is the text with some characters left out, the others
    in their order; in particular it is no longer than the text. *)
Theorem X15_strip_think_only_deletes (text : str) :
  ascii_text text ->
  ReportAggregator._strip_think text `sublist_of` text
  /\ len (ReportAggregator._strip_think text) <= len text.
Proof.
  intros _.
  assert (H : ReportAggregator._strip_think text `sublist_of` text).
  { unfold ReportAggregator._strip_think, ReportAggregator.remove_all.
    destruct (truthy text); [|reflexivity].
    etransitivity; [apply remove_from_sublist|].
    etransitivity; [apply remove_from_sublist|].
    apply sub_think_spans_sublist. }
  split; [exact H|]. apply sublist_length in H. unfold len. lia.
Qed.

Lemma X15_strip_think_only_deletes_witness :
  len (ReportAggregator._strip_think (lit "a<THINK>b</think>c</think>"))
  <= 26.
Proof.
  apply (X15_strip_think_only_deletes (lit "a<THINK>b</think>c</think>")).
  unfold ascii_text. repeat constructor.
Defined.


(** X16: an ASCII text in which neither marker occurs, and in which,
    letter case ignored, the opening marker or the closing marker does
    not occur, is left as it is. *)
Theorem X16_strip_think_plain_text (text : str) :
  ascii_text text ->
  contains text THINK_OPEN = false ->
  contains text THINK_CLOSE = false ->
  contains (lower text) THINK_OPEN = false
  \/ contains (lower text) THINK_CLOSE = false ->
  ReportAggregator._strip_think text = text.
Proof.
  intros _ Hopen Hclose Hci.
  unfold ReportAggregator._strip_think, ReportAggregator.remove_all.
  destruct (truthy text); [|reflexivity].
  rewrite (sub_think_spans_plain text Hci).
  rewrite (remove_from_absent THINK_OPEN text Hopen).
  apply remove_from_absent, Hclose.
Qed.

Lemma X16_strip_think_plain_text_witness :
  ReportAggregator._strip_think (lit "<THINK> 4 is the answer")
  = lit "<THINK> 4 is the answer".
Proof.
  apply X16_strip_think_plain_text;
    [unfold ascii_text; repeat constructor | reflexivity | reflexivity |].
  right. reflexivity.
Defined.

(** X18: what the report is made of.  The call returns a report with the
    query; every result is counted once, as a success or a failure; the
    responses stand one for each result, in the order of the results and
    under the same keys, names, statuses and times.  The entry of a
    success whose response is an ASCII text holds the stripped response
    and its length; the entry of any other result holds the error
    message of the result and the length 0. *)
Theorem X18_aggregate_results_contents (fmt_2f : Q -> str) (now query : str)
    (results : list ModelResult) (format_type : str) :
  exists r,
    ReportAggregator.aggregate_results fmt_2f now query results format_type
    = Ret r
    /\ ReportAggregator.query r = query
    /\ ReportAggregator.total_models r = len results
    /\ ReportAggregator.successful_models r
       + ReportAggregator.failed_models r = ReportAggregator.total_models r
    /\ ReportAggregator.successful_models r
       = len (filter (fun i => ReportAggregator.status i = success)
                (ReportAggregator.model_responses r))
    /\ map ReportAggregator.model_key (ReportAggregator.model_responses r)
       = map model_key results
    /\ map ReportAggregator.model_name (ReportAggregator.model_responses r)
       = map model_name results
    /\ map ReportAggregator.status (ReportAggregator.model_responses r)
       = map status results
    /\ map ReportAggregator.execution_time
         (ReportAggregator.model_responses r)
       = map execution_time results
    /\ Forall2
         (fun i result =>
            (status result = success -> ascii_text (response result) ->
             ReportAggregator.response i
             = Some (ReportAggregator._strip_think (response result))
             /\ ReportAggregator.response_length i
                = len (ReportAggregator._strip_think (response result)))
            /\ (status result <> success ->
                ReportAggregator.response i = error_message result
                /\ ReportAggregator.response_length i = 0))
         (ReportAggregator.model_responses r) results.
Proof.
  unfold ReportAggregator.aggregate_results.
  destruct (_calculate_execution_summary_total results) as (s & -> & _).
  cbn. eexists. split; [reflexivity|]. cbn.
  split; [reflexivity|]. split; [reflexivity|].
  split; [apply filter_length_split|]. split.
  { unfold len. f_equal. induction results as [|x l IH]; [reflexivity|].
    cbn [map]. rewrite !filter_cons. cbn.
    destruct (decide (status x = success)); cbn; now rewrite IH. }
  rewrite !map_map. repeat (split; [reflexivity|]).
  apply Forall2_fmap_l, Forall_Forall2_diag, Forall_forall.
  intros x _. unfold ReportAggregator.response_info_of. cbn.
  destruct (decide (status x = success)) as [Hs | Hs].
  - split; [auto | congruence].
  - split; [congruence | auto].
Qed.

Lemma X18_aggregate_results_contents_witness :
  exists r,
    ReportAggregator.aggregate_results (fun _ => lit "0.00") (lit "now")
      (lit "2+2?")
      [mkModelResult (lit "gpt_search") (lit "GPT Search")
         (lit "<think>2+2</think>4") 1 success None None]
      (lit "structured")
    = Ret r
    /\ map ReportAggregator.response (ReportAggregator.model_responses r)
       = [Some (lit "4")].
Proof.
  destruct (X18_aggregate_results_contents (fun _ => lit "0.00") (lit "now")
              (lit "2+2?")
              [mkModelResult (lit "gpt_search") (lit "GPT Search")
                 (lit "<think>2+2</think>4") 1 success None None]
              (lit "structured"))
    as (r & Hr & _ & _ & _ & _ & _ & _ & _ & _ & Hall).
  exists r. split; [exact Hr|].
  inversion Hall as [|i x l l' [Hi _] Hrest]; subst.
  inversion Hrest; subst.
  destruct (Hi eq_refl) as [Hresp _];
    [unfold ascii_text; cbn; repeat constructor|].
  cbn [map]. rewrite Hresp. vm_compute. reflexivity.
Defined.


Section StripSpan.

Import ReportAggregator.

Lemma lower_length (text : str) : length (lower text) = length text.
Proof. apply length_map. Qed.

Lemma sub_think_spans_span (o thought c after : str) :
  lower o = THINK_OPEN -> lower c = THINK_CLOSE ->
  contains (lower thought) THINK_CLOSE = false ->
  sub_think_spans 0 (o ++ thought ++ c ++ after) = sub_think_spans 0 after.
Proof.
  intros Ho Hc Ht.
  assert (Hlo : length o = 7%nat) by (now rewrite <- lower_length, Ho).
  assert (Hlc : length c = 8%nat) by (now rewrite <- lower_length, Hc).
  destruct o as [|c0 o']; [discriminate|].
  cbn [app sub_think_spans].
  change (c0 :: o' ++ thought ++ c ++ after)
    with ((c0 :: o') ++ thought ++ c ++ after).
  rewrite lower_app, Ho, startswith_app.
  assert (Hk : find (lower (slice_from ((c0 :: o') ++ thought ++ c ++ after)
                              (len THINK_OPEN))) THINK_CLOSE
               = Z.of_nat (length thought)).
  { unfold slice_from. change (Z.to_nat (len THINK_OPEN)) with 7%nat.
    rewrite <- Hlo, drop_app_length.
    apply find_first.
    - rewrite !lower_app, Hc, <- (lower_length thought), drop_app_length.
      apply startswith_app.
    - intros j Hj.
      apply (no_close_before_marker thought (c ++ after)
               (drop 1 THINK_CLOSE ++ lower after) Ht); [|exact Hj].
      now rewrite lower_app, Hc. }
  cbv zeta. rewrite Hk.
  destruct (Z.eqb_spec (Z.of_nat (length thought)) (-1)) as [Hneg|_];
    [lia|].
  replace (Z.to_nat (len THINK_OPEN + Z.of_nat (length thought)
                     + len THINK_CLOSE) - 1)%nat
    with (length (o' ++ thought ++ c)).
  - rewrite <- sub_think_spans_skip with (a := o' ++ thought ++ c).
    now rewrite <- !app_assoc.
  - rewrite !length_app, Hlc. cbn in Hlo.
    change (len THINK_OPEN) with 7. change (len THINK_CLOSE) with 8. lia.
Qed.

End StripSpan.

(** X17: one well-formed thinking span is cut out of a response, in
    whatever letter case its two markers are written.  For an ASCII
    text [before ++ o ++ thought ++ c ++ after], [o] and [c] being the
    opening and the closing marker in some letter case, [before]
    without an opening marker and [thought] without a closing marker
    (letter case ignored), [after] without a span of its own, and
    [before ++ after] without a marker, the stripped text is
    [before ++ after]. *)
Theorem X17_strip_think_single_span (before o thought c after : str) :
  ascii_text (before ++ thought ++ after) ->
  lower o = THINK_OPEN -> lower c = THINK_CLOSE ->
  contains (lower before) THINK_OPEN = false ->
  contains (lower thought) THINK_CLOSE = false ->
  contains (lower after) THINK_OPEN = false
  \/ contains (lower after) THINK_CLOSE = false ->
  contains (before ++ after) THINK_OPEN = false ->
  contains (before ++ after) THINK_CLOSE = false ->
  ReportAggregator._strip_think (before ++ o ++ thought ++ c ++ after)
  = before ++ after.
Proof.
  intros _ Ho Hc Hb Ht Ha Hopen Hclose.
  unfold ReportAggregator._strip_think, ReportAggregator.remove_all.
  destruct (truthy _) eqn:E.
  - rewrite sub_think_spans_before.
    + rewrite (sub_think_spans_span o thought c after Ho Hc Ht).
      rewrite (sub_think_spans_plain after Ha).
      rewrite (remove_from_absent THINK_OPEN _ Hopen).
      apply remove_from_absent, Hclose.
    + apply (no_open_before_marker before _
               (drop 1 THINK_OPEN ++ lower (thought ++ c ++ after)) Hb).
      now rewrite lower_app, Ho.
  - destruct before; [|discriminate]. destruct o; discriminate.
Qed.

Lemma X17_strip_think_single_span_witness :
  ReportAggregator._strip_think
    (lit "Sure. <Think>2+2 is 4</THINK>The answer is 4.")
  = lit "Sure. The answer is 4.".
Proof.
  apply (X17_strip_think_single_span (lit "Sure. ") (lit "<Think>")
           (lit "2+2 is 4") (lit "</THINK>") (lit "The answer is 4."));
    try reflexivity.
  - unfold ascii_text. repeat constructor.
  - left. reflexivity.
Defined.

(** ** The registry *)

Section RegistryFacts.

Import ModelsRegistry.

Lemma consistent_empty : consistent empty_registry.
Proof.
  intros key. cbn. rewrite !lookup_empty.
  split; intros [? ?]; discriminate.
Qed.

Lemma consistent_register reg key cls info :
  consistent reg -> consistent (register_model reg key cls info).
Proof.
  intros H k. cbn. destruct (decide (k = key)) as [->|Hne].
  - rewrite !lookup_insert_eq. split; eauto.
  - rewrite !lookup_insert_ne by congruence. apply H.
Qed.

Lemma consistent_unregister reg key :
  consistent reg -> consistent (snd (unregister_model reg key)).
Proof.
  intros H k. unfold unregister_model.
  destruct (_models reg !! key); [|apply H]. cbn.
  destruct (decide (k = key)) as [->|Hne].
  - rewrite !lookup_delete_eq. split; intros [? ?]; discriminate.
  - rewrite !lookup_delete_ne by congruence. apply H.
Qed.

Lemma consistent_after reg calls :
  consistent reg -> consistent (registry_after reg calls).
Proof.
  unfold registry_after. revert reg.
  induction calls as [|c l IH]; intros reg H; [exact H|].
  cbn. apply IH. destruct c; cbn.
  - now apply consistent_register.
  - now apply consistent_unregister.
Qed.

End RegistryFacts.

(** X19: registering and looking up.  After a registration the key gives
    the registered class and is available.  It gives the given
    information when one that is not empty was given.  When none or an
    empty one was given, it gives an information made up from the key,
    with the key as model identifier and a description made of the key;
    for a key of ASCII characters this information is [default_info],
    whose name is the key in title case.  Every other key gives what it
    gave before; the number of models grows by one when the key is new
    and stays the same otherwise. *)
Theorem X19_register_model_lookup (reg : registry) (key : str)
    (cls : model_class)
    (info : option (gmap str ModelsRegistry.info_value)) :
  let reg' := ModelsRegistry.register_model reg key cls info in
  ModelsRegistry.get_model_class reg' key = Some cls
  /\ (forall d,
        info = Some d -> d <> ∅ ->
        ModelsRegistry.get_model_info reg' key
        = Some (ModelsRegistry.strings_of d))
  /\ (info = None \/ info = Some ∅ ->
      exists made,
        ModelsRegistry.get_model_info reg' key = Some made
        /\ made !! lit "model_id" = Some key
        /\ made !! lit "description" = Some (key ++ lit " 模型")
        /\ (ascii_text key ->
            made = ModelsRegistry.default_info key
            /\ made !! lit "name" = Some (default_name key)))
  /\ ModelsRegistry.is_model_available reg' key = true
  /\ (forall other, other <> key ->
        ModelsRegistry.get_model_class reg' other
        = ModelsRegistry.get_model_class reg other
        /\ ModelsRegistry.get_model_info reg' other
           = ModelsRegistry.get_model_info reg other)
  /\ ModelsRegistry.get_model_count reg'
     = if ModelsRegistry.is_model_available reg key
       then ModelsRegistry.get_model_count reg
       else ModelsRegistry.get_model_count reg + 1.
Proof.
  cbn zeta.
  unfold ModelsRegistry.get_model_class, ModelsRegistry.get_model_info,
    ModelsRegistry.is_model_available, ModelsRegistry.get_model_count.
  cbn [ModelsRegistry.register_model _models _model_info].
  rewrite !lookup_insert_eq. split; [reflexivity|]. split.
  { intros d -> Hd. cbn. now rewrite decide_False by exact Hd. }
  split.
  { intros Hinfo. exists (ModelsRegistry.default_info key).
    split; [|repeat split; reflexivity].
    destruct Hinfo as [-> | ->]; [reflexivity|]. cbn.
    now rewrite decide_True by reflexivity. }
  split; [apply bool_decide_eq_true; eauto|]. split.
  - intros other Hne. now rewrite !lookup_insert_ne by congruence.
  - destruct (_models reg !! key) as [old|] eqn:E.
    + rewrite bool_decide_eq_true_2 by eauto.
      f_equal. apply map_size_insert_Some. eauto.
    + rewrite bool_decide_eq_false_2 by (intros [? ?]; discriminate).
      rewrite map_size_insert_None by exact E. lia.
Qed.

Lemma X19_register_model_lookup_witness :
  exists made,
    ModelsRegistry.get_model_info
      (ModelsRegistry.register_model ModelsRegistry.empty_registry
         (lit "gpt_search") (mkModelClass (lit "gpt-4o-search")) None)
      (lit "gpt_search")
    = Some made
    /\ made !! lit "name" = Some (lit "Gpt Search").
Proof.
  destruct (X19_register_model_lookup ModelsRegistry.empty_registry
              (lit "gpt_search") (mkModelClass (lit "gpt-4o-search")) None)
    as (_ & _ & Hmade & _).
  destruct (Hmade (or_introl eq_refl)) as (made & Hget & _ & _ & Hascii).
  exists made. split; [exact Hget|].
  destruct Hascii as [_ Hname]; [unfold ascii_text; repeat constructor|].
  rewrite Hname. vm_compute. reflexivity.
Defined.


(** X20: unregistering.  The flag tells whether the key was registered;
    afterwards the key gives no class, every other key gives what it
    gave before, and the number of models has gone down by one exactly
    when the flag is set.  Unregistering a key that was just registered
    for the first time gives back the registry as it was. *)
Theorem X20_unregister_model_lookup (reg : registry) (key : str) :
  let '(flag, reg') := ModelsRegistry.unregister_model reg key in
  flag = ModelsRegistry.is_model_available reg key
  /\ ModelsRegistry.get_model_class reg' key = None
  /\ ModelsRegistry.is_model_available reg' key = false
  /\ (flag = true -> ModelsRegistry.get_model_info reg' key = None)
  /\ (forall other, other <> key ->
        ModelsRegistry.get_model_class reg' other
        = ModelsRegistry.get_model_class reg other
        /\ ModelsRegistry.get_model_info reg' other
           = ModelsRegistry.get_model_info reg other)
  /\ ModelsRegistry.get_model_count reg'
     = (if flag then ModelsRegistry.get_model_count reg - 1
        else ModelsRegistry.get_model_count reg)
  /\ (forall cls info,
        _models reg !! key = None -> _model_info reg !! key = None ->
        ModelsRegistry.unregister_model
          (ModelsRegistry.register_model reg key cls info) key
        = (true, reg)).
Proof.
  unfold ModelsRegistry.unregister_model at 1,
    ModelsRegistry.get_model_class, ModelsRegistry.get_model_info,
    ModelsRegistry.is_model_available, ModelsRegistry.get_model_count.
  assert (Hround : forall cls info,
            _models reg !! key = None -> _model_info reg !! key = None ->
            ModelsRegistry.unregister_model
              (ModelsRegistry.register_model reg key cls info) key
            = (true, reg)).
  { intros cls info Hm Hi. unfold ModelsRegistry.unregister_model.
    cbn [ModelsRegistry.register_model _models _model_info].
    rewrite lookup_insert_eq, !delete_insert_id by assumption.
    now destruct reg. }
  destruct (_models reg !! key) as [old|] eqn:E;
    cbn [_models _model_info].
  - rewrite !lookup_delete_eq.
    rewrite bool_decide_eq_true_2 by eauto.
    rewrite bool_decide_eq_false_2 by (intros [? ?]; discriminate).
    repeat split; try reflexivity;
      try (now rewrite lookup_delete_ne by congruence).
    + rewrite map_size_delete, E. cbn.
      assert (size (_models reg) <> 0%nat); [|lia].
      intros Hz. apply map_size_empty_inv in Hz. rewrite Hz in E.
      now rewrite lookup_empty in E.
    + exact Hround.
  - rewrite E.
    rewrite bool_decide_eq_false_2 by (intros [? ?]; discriminate).
    repeat split; try reflexivity; try discriminate. exact Hround.
Qed.

(** X21: registering and unregistering keep the two dictionaries of the
    registry on the same keys: when a key has a class exactly when it
    has an information, this is still so after any sequence of calls;
    it is so in the empty registry. *)
Theorem X21_registry_keys_agree (reg : registry) (calls : list registry_call) :
  consistent reg ->
  consistent ModelsRegistry.empty_registry
  /\ forall key,
       ModelsRegistry.is_model_available (registry_after reg calls) key
       = true
       <-> is_Some (ModelsRegistry.get_model_info
                      (registry_after reg calls) key).
Proof.
  intros H. split; [apply consistent_empty|]. intros key.
  unfold ModelsRegistry.is_model_available, ModelsRegistry.get_model_info.
  rewrite bool_decide_eq_true. now apply consistent_after.
Qed.

Lemma X21_registry_keys_agree_witness :
  ModelsRegistry.is_model_available
    (registry_after ModelsRegistry.empty_registry
       [Register (lit "gpt_search") (mkModelClass (lit "gpt-4o-search"))
          None;
        Register (lit "kimi_search") (mkModelClass (lit "kimi")) None;
        Unregister (lit "gpt_search")])
    (lit "kimi_search") = true
  <-> is_Some
        (ModelsRegistry.get_model_info
           (registry_after ModelsRegistry.empty_registry
              [Register (lit "gpt_search")
                 (mkModelClass (lit "gpt-4o-search")) None;
               Register (lit "kimi_search") (mkModelClass (lit "kimi"))
                 None;
               Unregister (lit "gpt_search")])
           (lit "kimi_search")).
Proof.
  apply (X21_registry_keys_agree ModelsRegistry.empty_registry).
  intros key. cbn. rewrite !lookup_empty.
  split; intros [? ?]; discriminate.
Defined.

(** X22: on a registry whose two dictionaries have the same keys a task
    fails in two ways only: the key is not registered, or the model
    gave no text; the failure of a lookup in a missing information does
    not occur. *)
Theorem X22_task_failures_on_registry (ex : str -> str) (reg : registry)
    (net : network) (model_key query : str)
    (suppress_thinking streaming : bool) (start_time end_time : Q) :
  consistent reg ->
  let r := _execute_single_model ex reg net model_key query
             suppress_thinking streaming start_time end_time in
  status r = success
  \/ (ModelsRegistry.is_model_available reg model_key = false
      /\ status r = error
      /\ error_message r
         = Some (lit "模型 " ++ model_key ++ lit " 不存在"))
  \/ (ModelsRegistry.is_model_available reg model_key = true
      /\ status r = error
      /\ error_message r = Some (lit "模型返回空响应")).
Proof.
  intros Hreg. cbn zeta. pose proof (Hreg model_key) as H.
  unfold ModelsRegistry.is_model_available.
  unfold _execute_single_model, single_model_body.
  destruct (_models _ !! model_key) as [cls|] eqn:E.
  - destruct (proj1 H (ex_intro _ cls eq_refl)) as [info ->].
    rewrite bool_decide_eq_true_2 by eauto.
    destruct (search_with_retry _ _ _ _) as [[[[|c m]|] comp] events];
      cbn; auto.
  - right. left.
    rewrite bool_decide_eq_false_2 by (intros [? ?]; discriminate).
    cbn. auto.
Qed.

Lemma X22_task_failures_on_registry_witness :
  error_message
    (_execute_single_model id
       (registry_after ModelsRegistry.empty_registry
          [Register (lit "gpt_search") (mkModelClass (lit "gpt-4o-search"))
             None])
       refusing_network (lit "gpt_search") (lit "2+2?") true true 0 49)
  = Some (lit "模型返回空响应").
Proof.
  destruct (X22_task_failures_on_registry id
              (registry_after ModelsRegistry.empty_registry
                 [Register (lit "gpt_search")
                    (mkModelClass (lit "gpt-4o-search")) None])
              refusing_network (lit "gpt_search") (lit "2+2?") true true
              0 49 (consistent_after _ _ consistent_empty))
    as [H | [(H & _) | (_ & _ & H)]].
  - vm_compute in H. discriminate.
  - vm_compute in H. discriminate.
  - exact H.
Defined.

(** ** The selector *)

Section ListFacts.

Context {A : Type}.

Lemma slice_to_prefix (l : list A) (n : Z) : PyList.slice_to l n `prefix_of` l.
Proof.
  unfold PyList.slice_to. destruct (0 <=? n); apply prefix_take.
Qed.

Lemma slice_to_take (l : list A) (n : Z) :
  0 <= n -> PyList.slice_to l n = take (Z.to_nat n) l.
Proof.
  intros H. unfold PyList.slice_to. now rewrite (proj2 (Z.leb_le 0 n) H).
Qed.

Lemma slice_to_len (l : list A) (n : Z) :
  0 <= n -> len (PyList.slice_to l n) = Z.min n (len l).
Proof.
  intros H. rewrite slice_to_take by exact H. unfold len.
  rewrite length_take. lia.
Qed.

End ListFacts.

Section SelectorFacts.

Context {F I : Type}.
Variable ltb : F -> F -> bool.
Variable leb : F -> F -> bool.
Variable percent_of : F -> F -> F.
Variable zero : F.
Variable hundred : F.
Variable analyze_query : str -> list (str * F).
Variable model_info : str -> I.

Local Abbreviation select_best_model :=
  (SmartModelSelector.select_best_model ltb analyze_query model_info).
Local Abbreviation select_models_by_threshold :=
  (SmartModelSelector.select_models_by_threshold ltb leb percent_of zero
     hundred analyze_query model_info).

Lemma select_best_model_keys (query : str) (top_k : Z) :
  map (fun c => fst (fst c)) (select_best_model query top_k)
  = map fst (PyList.slice_to
               (PyList.sorted_desc snd ltb (analyze_query query)) top_k).
Proof.
  unfold SmartModelSelector.select_best_model. rewrite map_map.
  reflexivity.
Qed.

Lemma select_best_model_sublist (query : str) (top_k : Z) :
  exists rest,
    map (fun c => fst (fst c)) (select_best_model query top_k) ++ rest
    ≡ₚ map fst (analyze_query query).
Proof.
  rewrite select_best_model_keys.
  destruct (slice_to_prefix
              (PyList.sorted_desc snd ltb (analyze_query query)) top_k)
    as [rest Hrest].
  exists (map fst rest). rewrite <- map_app, <- Hrest.
  apply Permutation_map, sorted_desc_perm.
Qed.

Lemma select_best_model_NoDup (query : str) (top_k : Z) :
  NoDup (map fst (analyze_query query)) ->
  NoDup (map (fun c => fst (fst c)) (select_best_model query top_k)).
Proof.
  intros H. destruct (select_best_model_sublist query top_k) as [rest Hp].
  rewrite <- Hp in H. now apply NoDup_app in H.
Qed.

Lemma select_best_model_len (query : str) (top_k : Z) :
  0 <= top_k ->
  len (select_best_model query top_k)
  = Z.min top_k (len (analyze_query query)).
Proof.
  intros H. unfold SmartModelSelector.select_best_model, len.
  rewrite length_map. fold (len (PyList.slice_to
    (PyList.sorted_desc snd ltb (analyze_query query)) top_k)).
  rewrite slice_to_len by exact H. unfold len.
  now rewrite (Permutation_length (sorted_desc_perm snd ltb _)).
Qed.

Lemma select_best_model_elem (query : str) (top_k : Z) (c : str * F * I) :
  c ∈ select_best_model query top_k ->
  (fst (fst c), snd (fst c)) ∈ analyze_query query
  /\ snd c = model_info (fst (fst c)).
Proof.
  unfold SmartModelSelector.select_best_model.
  intros H. apply list_elem_of_fmap in H. destruct H as (item & -> & Hin).
  cbn. split; [|reflexivity].
  destruct (slice_to_prefix
              (PyList.sorted_desc snd ltb (analyze_query query)) top_k)
    as [rest Hrest].
  rewrite <- (sorted_desc_perm snd ltb (analyze_query query)), Hrest.
  apply elem_of_app. left. now destruct item.
Qed.

Lemma best_as_hundred_one (query : str) :
  analyze_query query <> [] ->
  exists item,
    item ∈ analyze_query query
    /\ SmartModelSelector.best_as_hundred ltb hundred analyze_query
         model_info query
       = [(fst item, hundred, model_info (fst item))].
Proof.
  intros Hne. unfold SmartModelSelector.best_as_hundred.
  pose proof (select_best_model_len query 1 ltac:(lia)) as Hlen.
  assert (Hpos : 1 <= len (analyze_query query)).
  { destruct (analyze_query query); [congruence | unfold len; cbn; lia]. }
  rewrite Z.min_l in Hlen by exact Hpos.
  destruct (select_best_model query 1) as [|c [|c' l]] eqn:E;
    try (unfold len in Hlen; cbn in Hlen; lia).
  assert (Hc : c ∈ select_best_model query 1) by (rewrite E; left).
  apply select_best_model_elem in Hc. destruct Hc as [Hin Hinfo].
  exists (fst (fst c), snd (fst c)). split; [exact Hin|].
  cbn. now rewrite Hinfo.
Qed.

Lemma omap_keys_sublist {B} (f : str * F -> option B) (key : B -> str)
    (l : list (str * F)) :
  (forall item c, f item = Some c -> key c = fst item) ->
  map key (omap f l) `sublist_of` map fst l.
Proof.
  intros Hf. induction l as [|item l IH]; [constructor|]. cbn.
  destruct (f item) as [c|] eqn:E; cbn.
  - rewrite (Hf _ _ E). now apply sublist_skip.
  - now apply sublist_cons.
Qed.

End SelectorFacts.

(** X23: the best models.  For a count that is not negative the result
    has that many entries, or all of them when there are fewer; its
    keys are keys of the scores, each with its score and information,
    and distinct when the keys of the scores are; the comparison of the
    floats being a strict weak order, the entries stand by decreasing
    score and no model left out has a score above a chosen one. *)
Theorem X23_select_best_model_top {F I : Type} (ltb : F -> F -> bool)
    (analyze_query : str -> list (str * F)) (model_info : str -> I)
    (query : str) (top_k : Z) :
  0 <= top_k -> strict_weak ltb ->
  let r := SmartModelSelector.select_best_model ltb analyze_query
             model_info query top_k in
  len r = Z.min top_k (len (analyze_query query))
  /\ (forall c, c ∈ r ->
        (fst (fst c), snd (fst c)) ∈ analyze_query query
        /\ snd c = model_info (fst (fst c)))
  /\ (NoDup (map fst (analyze_query query)) ->
      NoDup (map (fun c => fst (fst c)) r))
  /\ StronglySorted
       (fun a b => ltb (snd (fst a)) (snd (fst b)) = false) r
  /\ (forall c item,
        c ∈ r -> item ∈ analyze_query query ->
        fst item ∉ map (fun c => fst (fst c)) r ->
        ltb (snd (fst c)) (snd item) = false).
Proof.
  intros Hk Hord. cbn zeta.
  split; [now apply select_best_model_len|].
  split; [apply select_best_model_elem|].
  split; [apply select_best_model_NoDup|].
  unfold SmartModelSelector.select_best_model.
  pose proof (sorted_desc_sorted snd ltb Hord (analyze_query query)) as Hs.
  pose proof (sorted_desc_perm snd ltb (analyze_query query)) as Hp.
  destruct (slice_to_prefix
              (PyList.sorted_desc snd ltb (analyze_query query)) top_k)
    as [rest Hrest].
  rewrite Hrest in Hs, Hp.
  set (chosen := PyList.slice_to _ top_k) in *. clearbody chosen.
  split.
  - clear -Hs. induction chosen as [|x l IH]; [constructor|].
    cbn in Hs. inversion Hs as [|? ? Hl Hx]; subst. cbn.
    constructor; [now apply IH|].
    apply Forall_map, Forall_forall. intros y Hy. cbn.
    rewrite Forall_forall in Hx. apply Hx, elem_of_app. now left.
  - intros c item Hc Hitem Hout.
    apply list_elem_of_fmap in Hc. destruct Hc as (x & -> & Hx). cbn.
    rewrite <- Hp in Hitem. apply elem_of_app in Hitem.
    destruct Hitem as [Hin|Hin].
    + exfalso. apply Hout. rewrite map_map. cbn.
      apply list_elem_of_fmap. now exists item.
    + clear -Hs Hx Hin. induction chosen as [|y l IH];
        [now apply elem_of_nil in Hx|].
      cbn in Hs. inversion Hs as [|? ? Hl Hy]; subst.
      apply elem_of_cons in Hx. destruct Hx as [->|Hx].
      * rewrite Forall_forall in Hy. apply Hy, elem_of_app. now right.
      * now apply IH.
Qed.

Lemma select_models_by_threshold_facts {F I : Type}
    (ltb leb : F -> F -> bool) (percent_of : F -> F -> F) (zero hundred : F)
    (analyze_query : str -> list (str * F)) (model_info : str -> I)
    (query : str) (threshold_percent : F) :
  analyze_query query <> [] ->
  let r := SmartModelSelector.select_models_by_threshold ltb leb percent_of
             zero hundred analyze_query model_info query
             threshold_percent in
  r <> []
  /\ (forall c, c ∈ r ->
        fst (fst c) ∈ map fst (analyze_query query)
        /\ snd c = model_info (fst (fst c)))
  /\ (NoDup (map fst (analyze_query query)) ->
      NoDup (map (fun c => fst (fst c)) r))
  /\ ((exists item,
         item ∈ analyze_query query
         /\ r = [(fst item, hundred, model_info (fst item))])
      \/ Forall (fun c => leb threshold_percent (snd (fst c)) = true) r).
Proof.
  intros Hne. cbn zeta.
  unfold SmartModelSelector.select_models_by_threshold.
  destruct (best_as_hundred_one ltb hundred analyze_query model_info
              query Hne) as (item & Hitem & Hbest).
  assert (Hfallback :
    let r := SmartModelSelector.best_as_hundred ltb hundred analyze_query
               model_info query in
    r <> []
    /\ (forall c, c ∈ r ->
          fst (fst c) ∈ map fst (analyze_query query)
          /\ snd c = model_info (fst (fst c)))
    /\ (NoDup (map fst (analyze_query query)) ->
        NoDup (map (fun c => fst (fst c)) r))
    /\ ((exists item,
           item ∈ analyze_query query
           /\ r = [(fst item, hundred, model_info (fst item))])
        \/ Forall (fun c => leb threshold_percent (snd (fst c)) = true) r)).
  { cbn zeta. rewrite Hbest. split; [discriminate|]. split; [|split].
    - intros c Hc. apply list_elem_of_singleton in Hc. subst c. cbn.
      split; [|reflexivity]. apply list_elem_of_fmap. now exists item.
    - intros _. cbn. apply NoDup_singleton.
    - left. now exists item. }
  destruct (map snd (analyze_query query)) as [|first others] eqn:Escores.
  { destruct (analyze_query query); [congruence | discriminate]. }
  destruct (leb (PyList.max_from ltb first others) zero);
    [exact Hfallback|].
  set (max_score := PyList.max_from ltb first others).
  set (f := fun item : str * F =>
              if leb threshold_percent (percent_of (snd item) max_score)
              then Some (fst item, percent_of (snd item) max_score,
                         model_info (fst item))
              else None).
  pose proof (sorted_desc_perm (fun c : str * F * I => snd (fst c)) ltb
                (omap f (analyze_query query))) as Hp.
  destruct (PyList.sorted_desc _ ltb (omap f (analyze_query query)))
    as [|c0 l0] eqn:Esorted; [exact Hfallback|].
  assert (Hf : forall item c, f item = Some c ->
             fst (fst c) = fst item
             /\ snd c = model_info (fst item)
             /\ leb threshold_percent (snd (fst c)) = true).
  { intros it c. unfold f.
    destruct (leb threshold_percent _) eqn:E; [|discriminate].
    intros [= <-]. cbn. auto. }
  split; [discriminate|]. split; [|split].
  - intros c Hc. rewrite Hp in Hc. apply list_elem_of_omap in Hc.
    destruct Hc as (it & Hit & Hc). destruct (Hf _ _ Hc) as (Hk & Hi & _).
    rewrite Hk. split; [|exact Hi].
    apply list_elem_of_fmap. now exists it.
  - intros Hnd. rewrite Hp.
    eapply sublist_NoDup; [exact Hnd|].
    apply omap_keys_sublist. intros it c Hc. now apply Hf in Hc.
  - right. rewrite Hp. apply Forall_forall. intros c Hc.
    apply list_elem_of_omap in Hc. destruct Hc as (it & _ & Hc).
    now apply Hf in Hc.
Qed.

Section GreatestFacts.

Context {A K : Type}.
Variable key : A -> K.
Variable ltb : K -> K -> bool.
Hypothesis ltb_order : strict_weak ltb.

Lemma ltb_irrefl (a : K) : ltb a a = false.
Proof.
  destruct (ltb a a) eqn:E; [|reflexivity].
  now rewrite (proj1 ltb_order a a E) in E.
Qed.

(** The place of the first greatest entry is one only. *)
Lemma first_greatest_place (p1 p2 q1 q2 : list A) (x1 x2 : A) :
  p1 ++ x1 :: q1 = p2 ++ x2 :: q2 ->
  Forall (fun y => ltb (key y) (key x1) = true) p1 ->
  Forall (fun y => ltb (key x1) (key y) = false) q1 ->
  Forall (fun y => ltb (key y) (key x2) = true) p2 ->
  Forall (fun y => ltb (key x2) (key y) = false) q2 ->
  x1 = x2.
Proof.
  intros E Hp1 Hq1 Hp2 Hq2.
  assert (Hat : forall (p q p' q' : list A) (x x' : A),
            p ++ x :: q = p' ++ x' :: q' ->
            (length p < length p')%nat ->
            x ∈ p' /\ x' ∈ q).
  { intros p q p' q' x x' Heq Hlt.
    assert (Hx : (p' ++ x' :: q') !! length p = Some x)
      by (rewrite <- Heq; apply list_lookup_middle; reflexivity).
    rewrite lookup_app_l in Hx by exact Hlt.
    assert (Hx' : (p ++ x :: q) !! length p' = Some x')
      by (rewrite Heq; apply list_lookup_middle; reflexivity).
    rewrite lookup_app_r in Hx' by lia.
    destruct (length p' - length p)%nat as [|n] eqn:En; [lia|].
    cbn in Hx'. split; eapply list_elem_of_lookup_2; eauto. }
  destruct (lt_eq_lt_dec (length p1) (length p2)) as [[Hlt | Heq] | Hgt].
  - destruct (Hat _ _ _ _ _ _ E Hlt) as [H1 H2].
    rewrite Forall_forall in Hp2, Hq1.
    specialize (Hp2 _ H1). specialize (Hq1 _ H2). congruence.
  - apply app_inj_1 in E; [|exact Heq]. destruct E as [_ E]. congruence.
  - symmetry in E. destruct (Hat _ _ _ _ _ _ E Hgt) as [H1 H2].
    rewrite Forall_forall in Hp1, Hq2.
    specialize (Hp1 _ H1). specialize (Hq2 _ H2). congruence.
Qed.

Lemma first_greatest_unique (l : list A) (x1 x2 : A) :
  first_greatest key ltb l x1 -> first_greatest key ltb l x2 -> x1 = x2.
Proof.
  intros (p1 & q1 & -> & Hp1 & Hq1) (p2 & q2 & E & Hp2 & Hq2).
  eapply first_greatest_place; eauto.
Qed.

Lemma filter_head (P : A -> Prop) `{!forall x, Decision (P x)}
    (l r : list A) (x : A) :
  filter P l = x :: r ->
  exists pre post, l = pre ++ x :: post /\ Forall (fun y => ~ P y) pre.
Proof.
  induction l as [|y l IH]; [discriminate|].
  rewrite filter_cons. destruct (decide (P y)) as [Hy | Hy].
  - intros [= -> _]. exists [], l. split; [reflexivity | constructor].
  - intros Hf. destruct (IH Hf) as (pre & post & -> & Hpre).
    exists (y :: pre), post. split; [reflexivity | now constructor].
Qed.

(** The head of the list sorted by decreasing key is the first greatest
    entry. *)
Lemma sorted_desc_head (l rest : list A) (x : A) :
  PyList.sorted_desc key ltb l = x :: rest -> first_greatest key ltb l x.
Proof.
  intros E.
  pose proof (sorted_desc_sorted key ltb ltb_order l) as Hs.
  pose proof (sorted_desc_perm key ltb l) as Hp.
  pose proof (sorted_desc_stable key ltb ltb_order (key x) l) as Hst.
  rewrite E in Hs, Hp, Hst.
  assert (Hxx : same_rank key ltb (key x) x)
    by (split; apply ltb_irrefl).
  rewrite filter_cons, decide_True in Hst by exact Hxx.
  symmetry in Hst. apply filter_head in Hst.
  destruct Hst as (pre & post & -> & Hpre).
  assert (Hall : Forall (fun y => ltb (key x) (key y) = false)
                   (pre ++ x :: post)).
  { rewrite <- Hp. constructor; [apply ltb_irrefl|].
    inversion Hs; subst. assumption. }
  apply Forall_app in Hall. destruct Hall as [Hbefore Hafter].
  exists pre, post. split; [reflexivity|]. split.
  - rewrite Forall_forall in *. intros y Hy.
    specialize (Hpre y Hy). specialize (Hbefore y Hy).
    destruct (ltb (key y) (key x)) eqn:Eyx; [reflexivity|].
    exfalso. apply Hpre. now split.
  - now inversion Hafter.
Qed.

End GreatestFacts.

Section MaxFacts.

Context {K : Type}.
Variable ltb : K -> K -> bool.
Hypothesis ltb_order : strict_weak ltb.

(** [max] returns the first of the greatest elements. *)
Lemma max_from_first_greatest (l : list K) :
  forall (pre post : list K) (m : K),
    Forall (fun y => ltb y m = true) pre ->
    Forall (fun y => ltb m y = false) post ->
    first_greatest (fun k => k) ltb (pre ++ m :: post ++ l)
      (PyList.max_from ltb m l).
Proof.
  induction l as [|y l IH]; intros pre post m Hpre Hpost.
  - cbn. rewrite app_nil_r. now exists pre, post.
  - cbn [PyList.max_from foldl].
    change (foldl (fun m y => if ltb m y then y else m)
              (if ltb m y then y else m) l)
      with (PyList.max_from ltb (if ltb m y then y else m) l).
    destruct (ltb m y) eqn:E.
    + replace (pre ++ m :: post ++ y :: l)
        with ((pre ++ m :: post) ++ y :: [] ++ l)
        by (rewrite <- app_assoc; reflexivity).
      apply IH; [|constructor].
      apply Forall_app. split; [|constructor; [exact E|]].
      * eapply Forall_impl; [exact Hpre|]. cbn. intros z Hz.
        destruct (proj2 ltb_order _ _ y Hz) as [H | H]; [exact H|].
        now rewrite (proj1 ltb_order _ _ E) in H.
      * eapply Forall_impl; [exact Hpost|]. cbn. intros z Hz.
        destruct (proj2 ltb_order _ _ z E) as [H | H]; congruence.
    + replace (pre ++ m :: post ++ y :: l)
        with (pre ++ m :: (post ++ [y]) ++ l)
        by (rewrite <- app_assoc; reflexivity).
      apply IH; [exact Hpre|].
      apply Forall_app. split; [exact Hpost | now repeat constructor].
Qed.

Lemma max_from_greatest (x : K) (l : list K) :
  first_greatest (fun k => k) ltb (x :: l) (PyList.max_from ltb x l).
Proof. apply (max_from_first_greatest l [] [] x); constructor. Qed.

End MaxFacts.

Lemma first_greatest_map {A K} (key : A -> K) (ltb : K -> K -> bool)
    (l : list A) (x : A) :
  first_greatest key ltb l x ->
  first_greatest (fun k => k) ltb (map key l) (key x).
Proof.
  intros (pre & post & -> & Hpre & Hpost).
  exists (map key pre), (map key post).
  rewrite map_app. split; [reflexivity|].
  split; now apply Forall_map.
Qed.

Section ThresholdFacts.

Context {F I : Type}.
Variable ltb : F -> F -> bool.
Variable leb : F -> F -> bool.
Variable percent_of : F -> F -> F.
Variable zero : F.
Variable hundred : F.
Variable analyze_query : str -> list (str * F).
Variable model_info : str -> I.
Hypothesis ltb_order : strict_weak ltb.

(** The best model and the greatest score of scores that are not
    empty. *)
Lemma best_and_max_score (query : str) :
  analyze_query query <> [] ->
  exists best first others,
    first_greatest snd ltb (analyze_query query) best
    /\ map snd (analyze_query query) = first :: others
    /\ PyList.max_from ltb first others = snd best
    /\ SmartModelSelector.best_as_hundred ltb hundred analyze_query
         model_info query
       = [(fst best, hundred, model_info (fst best))].
Proof.
  intros Hne.
  unfold SmartModelSelector.best_as_hundred,
    SmartModelSelector.select_best_model.
  destruct (PyList.sorted_desc snd ltb (analyze_query query))
    as [|best rest] eqn:E.
  - pose proof (sorted_desc_perm snd ltb (analyze_query query)) as Hp.
    rewrite E in Hp. apply Permutation_nil in Hp. congruence.
  - apply (sorted_desc_head snd ltb ltb_order) in E.
    destruct (map snd (analyze_query query)) as [|first others] eqn:Em.
    { destruct (analyze_query query); [congruence | discriminate]. }
    exists best, first, others. split; [exact E|].
    split; [reflexivity|]. split.
    + apply first_greatest_map in E. rewrite Em in E.
      eapply (first_greatest_unique (fun k => k) ltb);
        [apply (max_from_greatest ltb ltb_order) | exact E].
    + reflexivity.
Qed.

Lemma omap_filter_map {A B} (p : A -> bool) (g : A -> B) (l : list A) :
  omap (fun x => if p x then Some (g x) else None) l
  = map g (filter (fun x => p x = true) l).
Proof.
  induction l as [|x l IH]; [reflexivity|].
  rewrite filter_cons. destruct (decide (p x = true)) as [E | E].
  - cbn. rewrite E. f_equal. exact IH.
  - cbn. destruct (p x); [congruence | exact IH].
Qed.

End ThresholdFacts.

(** X24: the models above the threshold.  Without scores the result is
    empty.  With scores it is never empty; its keys are keys of the
    scores, each with its information, and distinct when the keys of
    the scores are.  The comparison of the floats being a strict weak
    order, let [best] be the first of the models with the greatest
    score, and let a model pass when its percentage of that score
    reaches the threshold.  When the greatest score is not positive, or
    when no model passes, the result is the one entry of [best], at 100
    per cent.  Otherwise the result holds the models that pass, and
    those only, each with its percentage and its information, by
    decreasing percentage, models of equal percentage in the order of
    the scores. *)
Theorem X24_select_models_by_threshold_nonempty {F I : Type}
    (ltb leb : F -> F -> bool) (percent_of : F -> F -> F) (zero hundred : F)
    (analyze_query : str -> list (str * F)) (model_info : str -> I)
    (query : str) (threshold_percent : F) :
  let scores := analyze_query query in
  let r := SmartModelSelector.select_models_by_threshold ltb leb percent_of
             zero hundred analyze_query model_info query
             threshold_percent in
  (scores = [] -> r = [])
  /\ (scores <> [] ->
      r <> []
      /\ (forall c, c ∈ r ->
            fst (fst c) ∈ map fst scores
            /\ snd c = model_info (fst (fst c)))
      /\ (NoDup (map fst scores) ->
          NoDup (map (fun c => fst (fst c)) r)))
  /\ (scores <> [] -> strict_weak ltb ->
      exists best : str * F,
        let passes := fun item : str * F =>
          leb threshold_percent (percent_of (snd item) (snd best))
          = true in
        let entry := fun item : str * F =>
          (fst item, percent_of (snd item) (snd best),
           model_info (fst item)) in
        let passing := map entry (filter passes scores) in
        let percent := fun c : str * F * I => snd (fst c) in
        first_greatest snd ltb scores best
        /\ (leb (snd best) zero = true \/ passing = [] ->
            r = [(fst best, hundred, model_info (fst best))])
        /\ (leb (snd best) zero = false -> passing <> [] ->
            r ≡ₚ passing
            /\ StronglySorted (not_below percent ltb) r
            /\ (forall k,
                  filter (same_rank percent ltb k) r
                  = filter (same_rank percent ltb k) passing))).
Proof.
  cbn zeta. split; [|split].
  - intros Hnone. unfold SmartModelSelector.select_models_by_threshold.
    now rewrite Hnone.
  - intros Hne.
    destruct (select_models_by_threshold_facts ltb leb percent_of zero
                hundred analyze_query model_info query threshold_percent
                Hne) as (H1 & H2 & H3 & _).
    auto.
  - intros Hne Hord.
    destruct (best_and_max_score ltb hundred analyze_query model_info Hord
                query Hne)
      as (best & first & others & Hbest & Em & Hmax & Hfallback).
    exists best. split; [exact Hbest|].
    unfold SmartModelSelector.select_models_by_threshold.
    rewrite Em, Hmax, Hfallback.
    rewrite (omap_filter_map
               (fun item : str * F =>
                  leb threshold_percent (percent_of (snd item) (snd best)))
               (fun item : str * F =>
                  (fst item, percent_of (snd item) (snd best),
                   model_info (fst item)))).
    set (passing := map _ (filter _ (analyze_query query))).
    pose proof (sorted_desc_perm (fun c : str * F * I => snd (fst c)) ltb
                  passing) as Hp.
    pose proof (sorted_desc_sorted (fun c : str * F * I => snd (fst c)) ltb
                  Hord passing) as Hs.
    pose proof (sorted_desc_stable (fun c : str * F * I => snd (fst c)) ltb
                  Hord) as Hst.
    split.
    + intros [Hz | Hnone]; [now rewrite Hz|].
      destruct (leb (snd best) zero); [reflexivity|].
      rewrite Hnone. reflexivity.
    + intros Hz Hsome. rewrite Hz.
      destruct (PyList.sorted_desc _ ltb passing) as [|c0 l0] eqn:E.
      { apply Permutation_nil in Hp. congruence. }
      split; [exact Hp|]. split; [exact Hs|].
      intros k. rewrite <- E. apply Hst.
Qed.

Lemma sample_scores_NoDup (query : str) :
  NoDup (map fst (sample_scores query)).
Proof. apply (bool_decide_unpack (NoDup _)). vm_compute. reflexivity. Qed.

Lemma X23_select_best_model_top_witness :
  len (SmartModelSelector.select_best_model PyList.float_lt sample_scores
         (fun k => k) (lit "2+2?") 2)
  = 2.
Proof.
  apply (X23_select_best_model_top PyList.float_lt sample_scores (fun k => k)
           (lit "2+2?") 2);
    [lia | exact float_lt_strict_weak].
Defined.

Lemma X24_select_models_by_threshold_nonempty_witness :
  exists best,
    first_greatest snd PyList.float_lt (sample_scores (lit "2+2?")) best
    /\ SmartModelSelector.select_models_by_threshold PyList.float_lt
         Qle_bool sample_percent 0%Q 100%Q sample_scores (fun k => k)
         (lit "2+2?") 70%Q
       <> [].
Proof.
  destruct (X24_select_models_by_threshold_nonempty PyList.float_lt
              Qle_bool sample_percent 0%Q 100%Q sample_scores (fun k => k)
              (lit "2+2?") 70%Q) as (_ & Hsome & Hbest).
  destruct (Hbest ltac:(discriminate) float_lt_strict_weak)
    as (best & Hfirst & _).
  exists best. split; [exact Hfirst|].
  apply Hsome. discriminate.
Defined.

(** ** The fast table *)

Section FastTableFacts.

Import PrebuiltFastTable.

Lemma count_one_foldl (l : list (str * ModelInfo)) (counts : ModelStatus -> Z)
    (s : ModelStatus) :
  foldl (fun counts item => count_one counts (status (snd item))) counts l s
  = counts s + len (filter (fun item => status (snd item) = s) l).
Proof.
  revert counts. induction l as [|item l IH]; intros counts.
  - unfold len. cbn. lia.
  - cbn [foldl]. rewrite IH. rewrite filter_cons. unfold count_one, len.
    destruct (decide (s = status (snd item))) as [->|Hne].
    + rewrite decide_True by reflexivity. cbn [length]. lia.
    + rewrite decide_False by congruence. lia.
Qed.

Lemma status_partition (l : list (str * ModelInfo)) :
  len (filter (fun item => status (snd item) = AVAILABLE) l)
  + len (filter (fun item => status (snd item) = UNAVAILABLE) l)
  + len (filter (fun item => status (snd item) = UNKNOWN) l)
  + len (filter (fun item => status (snd item) = TESTING) l)
  = len l.
Proof.
  unfold len. induction l as [|item l IH]; [reflexivity|].
  rewrite !filter_cons.
  destruct (status (snd item)); cbn [length];
    repeat first [rewrite decide_True by reflexivity
                 | rewrite decide_False by discriminate];
    cbn [length]; lia.
Qed.

End FastTableFacts.

Section OfferFacts.

Variable self : PrebuiltFastTable.PrebuiltFastTable.
Variable exclude_keys : option (gset str).
Variable min_count : Z.

Local Abbreviation offered :=
  (fun item : str * PrebuiltFastTable.ModelInfo =>
     if decide ((fst item ∉ default ∅ exclude_keys)
                /\ PrebuiltFastTable.status (snd item)
                   = PrebuiltFastTable.AVAILABLE)
     then Some (fst item, PrebuiltFastTable.stability_score (snd item))
     else None).

Lemma get_available_models_perm :
  PrebuiltFastTable.get_available_models self exclude_keys min_count
  ≡ₚ omap offered (PrebuiltFastTable.model_cache self).
Proof. apply sorted_desc_perm. Qed.

Lemma get_available_models_elem (k : str) (s : Q) :
  (k, s) ∈ PrebuiltFastTable.get_available_models self exclude_keys
             min_count <->
  exists info,
    (k, info) ∈ PrebuiltFastTable.model_cache self
    /\ (k ∉ default ∅ exclude_keys)
    /\ PrebuiltFastTable.status info = PrebuiltFastTable.AVAILABLE
    /\ s = PrebuiltFastTable.stability_score info.
Proof.
  rewrite get_available_models_perm, list_elem_of_omap. split.
  - intros ([k' info] & Hin & Hf). cbn in Hf.
    destruct (decide _) as [[Hex Hst]|]; [|discriminate].
    injection Hf as Hk Hs. subst k s. eauto 6.
  - intros (info & Hin & Hex & Hst & Hs). subst s. exists (k, info).
    split; [exact Hin|]. cbn. now rewrite decide_True by auto.
Qed.

Lemma get_available_models_sorted :
  StronglySorted (fun a b => (snd b <= snd a)%Q)
    (PrebuiltFastTable.get_available_models self exclude_keys min_count).
Proof.
  eapply StronglySorted_weaken;
    [|apply (sorted_desc_sorted _ _ float_lt_strict_weak)].
  unfold not_below. intros a b H.
  destruct (Qlt_le_dec (snd a) (snd b)) as [Hlt|Hle]; [|exact Hle].
  apply float_lt_spec in Hlt. congruence.
Qed.

Lemma get_available_models_NoDup :
  NoDup (map fst (PrebuiltFastTable.model_cache self)) ->
  NoDup (map fst (PrebuiltFastTable.get_available_models self exclude_keys
                    min_count)).
Proof.
  intros Hnd. rewrite get_available_models_perm.
  eapply sublist_NoDup; [exact Hnd|]. clear Hnd.
  induction (PrebuiltFastTable.model_cache self) as [|item l IH];
    [constructor|]. cbn [omap list_omap map].
  destruct (decide _); cbn.
  - now apply sublist_skip.
  - now apply sublist_cons.
Qed.

End OfferFacts.

(** X25: the models the table offers are exactly its entries of status
    AVAILABLE whose key is not excluded, each with its stability score;
    they stand by decreasing score, and under distinct keys as the
    entries of the table do.  [min_count] has no part in the result. *)
Theorem X25_get_available_models_offer
    (self : PrebuiltFastTable.PrebuiltFastTable)
    (exclude_keys : option (gset str)) (min_count : Z) :
  let r := PrebuiltFastTable.get_available_models self exclude_keys
             min_count in
  (forall k s,
     (k, s) ∈ r <->
     exists info,
       (k, info) ∈ PrebuiltFastTable.model_cache self
       /\ (k ∉ default ∅ exclude_keys)
       /\ PrebuiltFastTable.status info = PrebuiltFastTable.AVAILABLE
       /\ s = PrebuiltFastTable.stability_score info)
  /\ StronglySorted (fun a b => (snd b <= snd a)%Q) r
  /\ (NoDup (map fst (PrebuiltFastTable.model_cache self)) ->
      NoDup (map fst r))
  /\ r = PrebuiltFastTable.get_available_models self exclude_keys 0.
Proof.
  cbn zeta. split; [apply get_available_models_elem|].
  split; [apply get_available_models_sorted|].
  split; [apply get_available_models_NoDup | reflexivity].
Qed.

(** X26: the status counts of the table.  Each count is the number of
    entries of that status, and the four counts add up to the number of
    entries of the table.  After the cache is cleared the table keeps
    its keys, every entry is of status UNKNOWN, and the table offers no
    model. *)
Theorem X26_cache_status_counts (self : PrebuiltFastTable.PrebuiltFastTable)
    (exclude_keys : option (gset str)) (min_count : Z) :
  let st := PrebuiltFastTable.get_cache_status self in
  let self' := PrebuiltFastTable.clear_cache self in
  PrebuiltFastTable.total_models st
  = len (PrebuiltFastTable.model_cache self)
  /\ PrebuiltFastTable.status_counts st
     = map (fun k =>
              (PrebuiltFastTable.value k,
               len (filter (fun item =>
                              PrebuiltFastTable.status (snd item) = k)
                      (PrebuiltFastTable.model_cache self))))
         [PrebuiltFastTable.AVAILABLE; PrebuiltFastTable.UNAVAILABLE;
          PrebuiltFastTable.UNKNOWN; PrebuiltFastTable.TESTING]
  /\ foldr Z.add 0 (map snd (PrebuiltFastTable.status_counts st))
     = PrebuiltFastTable.total_models st
  /\ map fst (PrebuiltFastTable.model_cache self')
     = map fst (PrebuiltFastTable.model_cache self)
  /\ Forall (fun item =>
               PrebuiltFastTable.status (snd item)
               = PrebuiltFastTable.UNKNOWN)
       (PrebuiltFastTable.model_cache self')
  /\ PrebuiltFastTable.get_available_models self' exclude_keys min_count
     = [].
Proof.
  cbn zeta. split; [reflexivity|]. split; [|split].
  - unfold PrebuiltFastTable.get_cache_status.
    cbn [PrebuiltFastTable.status_counts map].
    rewrite !count_one_foldl. now rewrite !Z.add_0_l.
  - unfold PrebuiltFastTable.get_cache_status.
    cbn [PrebuiltFastTable.total_models PrebuiltFastTable.status_counts map].
    rewrite !count_one_foldl. rewrite !Z.add_0_l. cbn [foldr snd].
    pose proof (status_partition (PrebuiltFastTable.model_cache self)). lia.
  - unfold PrebuiltFastTable.clear_cache.
    cbn [PrebuiltFastTable.model_cache]. split; [|split].
    + rewrite map_map. reflexivity.
    + apply Forall_map, Forall_forall. intros item _. reflexivity.
    + unfold PrebuiltFastTable.get_available_models.
      cbn [PrebuiltFastTable.model_cache].
      replace (omap _ _) with (@nil (str * Q)); [reflexivity|].
      symmetry.
      induction (PrebuiltFastTable.model_cache self) as [|item l IH];
        [reflexivity|]. cbn [map omap list_omap].
      cbn [snd PrebuiltFastTable.status].
      rewrite decide_False by (intros [_ H]; discriminate). exact IH.
Qed.

(** ** The smart query: first selection and replacements *)

Section SelectionFacts.

Context {F I : Type}.

Implicit Types (c : str * F * I) (l u top : list (str * F * I)).
Implicit Types (s existing : gset str).

Local Abbreviation key_of := (@Main.key_of F I).

Lemma merge_top_models_closed existing l top :
  Main.merge_top_models existing l top
  = l ++ take (Z.to_nat (Z.max 1 (8 - len l)))
           (filter (fun c => key_of c ∉ existing) top).
Proof.
  revert l. induction top as [|c top IH]; intros l.
  - cbn [Main.merge_top_models]. rewrite filter_nil, take_nil.
    now rewrite app_nil_r.
  - cbn [Main.merge_top_models]. rewrite filter_cons.
    destruct (decide (key_of c ∈ existing)) as [Hin|Hout].
    + rewrite decide_False by tauto. apply IH.
    + rewrite decide_True by exact Hout.
      assert (Hlen : len (l ++ [c]) = len l + 1)
        by (unfold len; rewrite length_app; cbn; lia).
      destruct (Z.to_nat (Z.max 1 (8 - len l))) as [|n] eqn:En; [lia|].
      cbn [take]. destruct (Z.leb_spec 8 (len (l ++ [c]))) as [Hfull|Hmore].
      * replace n with 0%nat by lia. rewrite take_0. reflexivity.
      * rewrite IH. rewrite <- app_assoc. cbn [app]. do 3 f_equal. lia.
Qed.

Lemma dedupe_spec l u s :
  (forall k, k ∈ s <-> k ∈ map key_of u) -> NoDup (map key_of u) ->
  let '(u', s') := Main.dedupe u s l in
  (forall k, k ∈ s' <-> k ∈ map key_of u')
  /\ NoDup (map key_of u')
  /\ (forall k, k ∈ s' <-> k ∈ s \/ k ∈ map key_of l)
  /\ (exists added, u' = u ++ added /\ added `sublist_of` l)
  /\ (NoDup (map key_of (u ++ l)) -> u' = u ++ l).
Proof.
  revert u s. induction l as [|c l IH]; intros u s Hs Hnd.
  - cbn. split; [exact Hs|]. split; [exact Hnd|]. split.
    + intros k. rewrite elem_of_nil. tauto.
    + split; [exists []; now rewrite app_nil_r|].
      intros _. now rewrite app_nil_r.
  - cbn [Main.dedupe]. destruct (decide (key_of c ∈ s)) as [Hin|Hout].
    + specialize (IH u s Hs Hnd). destruct (Main.dedupe u s l) as [u' s'].
      destruct IH as (H1 & H2 & H3 & (added & H4 & H5) & H6).
      split; [exact H1|]. split; [exact H2|]. split; [|split].
      * intros k. rewrite H3. cbn. rewrite elem_of_cons.
        split; [tauto|]. intros [H|[->|H]]; auto.
      * exists added. split; [exact H4 | now apply sublist_cons].
      * intros Habs. exfalso. rewrite map_app in Habs. cbn in Habs.
        apply NoDup_app in Habs. destruct Habs as (_ & Habs & _).
        apply (Habs (key_of c)); [now apply Hs | left].
    + assert (Hs' : forall k, k ∈ s ∪ {[key_of c]}
                              <-> k ∈ map key_of (u ++ [c])).
      { intros k. rewrite map_app, elem_of_app, elem_of_union, Hs. cbn.
        rewrite elem_of_singleton, list_elem_of_singleton. reflexivity. }
      assert (Hnd' : NoDup (map key_of (u ++ [c]))).
      { rewrite map_app. apply NoDup_app. split; [exact Hnd|]. split.
        - intros k Hk Hk'. cbn in Hk'. apply list_elem_of_singleton in Hk'.
          subst k. apply Hout, Hs, Hk.
        - cbn. apply NoDup_singleton. }
      specialize (IH (u ++ [c]) (s ∪ {[key_of c]}) Hs' Hnd').
      destruct (Main.dedupe (u ++ [c]) (s ∪ {[key_of c]}) l) as [u' s'].
      destruct IH as (H1 & H2 & H3 & (added & H4 & H5) & H6).
      split; [exact H1|]. split; [exact H2|]. split; [|split].
      * intros k. rewrite H3, elem_of_union, elem_of_singleton. cbn.
        rewrite elem_of_cons. tauto.
      * exists (c :: added). split; [now rewrite H4, <- app_assoc|].
        now apply sublist_skip.
      * intros Hall. rewrite H6; [now rewrite <- app_assoc|].
        now rewrite <- app_assoc.
Qed.

Lemma target_count_bounds (n : Z) :
  1 <= n -> 1 <= Main.target_count n <= 5
            /\ Main.target_count n = Z.min n 5.
Proof.
  intros Hn. unfold Main.target_count.
  destruct (Z.leb_spec n 3); [lia|]. destruct (Z.leb_spec n 5); lia.
Qed.

End SelectionFacts.

Section BatchSelectionFacts.

Context {F I : Type}.

Implicit Types (c : str * F * I) (l u top : list (str * F * I)).

Local Abbreviation key_of := (@Main.key_of F I).

(** The candidates of the first selection, before repeated keys are
    removed. *)
Lemma candidates_shape l top :
  exists extra,
    (if len l <? 3
     then Main.merge_top_models (list_to_set (map key_of l)) l top
     else l) = l ++ extra
    /\ extra `sublist_of` top
    /\ (l = [] -> top <> [] -> extra <> []).
Proof.
  destruct (len l <? 3) eqn:E.
  - rewrite merge_top_models_closed. eexists. split; [reflexivity|]. split.
    + etransitivity; [apply sublist_take | apply sublist_filter].
    + intros -> Htop. destruct top as [|c top]; [congruence|].
      rewrite filter_cons. cbn [map list_to_set].
      rewrite decide_True by apply not_elem_of_empty.
      unfold len. cbn. discriminate.
  - exists []. rewrite app_nil_r. split; [reflexivity|].
    split; [apply sublist_nil_l|]. intros ->. discriminate.
Qed.

Lemma selected_keys u :
  NoDup (map key_of u) -> u <> [] ->
  let keys := map key_of
                (PyList.slice_to u (Main.target_count (len u))) in
  NoDup keys /\ len keys = Z.min (len u) 5
  /\ (forall k, k ∈ keys -> k ∈ map key_of u).
Proof.
  intros Hnd Hne. cbn zeta.
  assert (Hlen : 1 <= len u)
    by (destruct u; [congruence | unfold len; cbn; lia]).
  destruct (target_count_bounds (len u) Hlen) as [Hb Ht].
  rewrite slice_to_take by lia. split; [|split].
  - eapply sublist_NoDup; [exact Hnd|].
    apply (fmap_sublist key_of), sublist_take.
  - unfold len. rewrite length_map, length_take. unfold len in Ht. lia.
  - intros k Hk. apply list_elem_of_fmap in Hk.
    destruct Hk as (c & -> & Hc). apply list_elem_of_fmap. exists c.
    split; [reflexivity|].
    eapply elem_of_sublist; [exact Hc | apply sublist_take].
Qed.

End BatchSelectionFacts.

(** X27: the first selection of a smart query.  The method gives up only
    when the selector returned no model at all.  Otherwise the selected
    keys are distinct, at least one and at most five; they and every
    model of the threshold list are among the seen keys, and every seen
    key was returned by the selector. *)
Theorem X27_first_selection_batch {F I : Type}
    (threshold_models top_models : list (str * F * I)) :
  match Main.first_selection threshold_models top_models with
  | None => threshold_models = [] /\ top_models = []
  | Some (model_keys, seen_keys) =>
      NoDup model_keys
      /\ 1 <= len model_keys <= 5
      /\ (forall k, k ∈ model_keys -> k ∈ seen_keys)
      /\ (forall k, k ∈ map Main.key_of threshold_models -> k ∈ seen_keys)
      /\ (forall k, k ∈ seen_keys ->
            k ∈ map Main.key_of (threshold_models ++ top_models))
  end.
Proof.
  unfold Main.first_selection.
  destruct (candidates_shape threshold_models top_models)
    as (extra & -> & Hsub & Hextra).
  destruct (threshold_models ++ extra) as [|c0 l0] eqn:E.
  - apply app_eq_nil in E. destruct E as [-> ->]. split; [reflexivity|].
    destruct top_models; [reflexivity|].
    exfalso. now apply Hextra.
  - rewrite <- E.
    pose proof (dedupe_spec (threshold_models ++ extra) [] ∅) as Hd.
    destruct (Main.dedupe [] ∅ (threshold_models ++ extra)) as [u s].
    destruct Hd as (H1 & H2 & H3 & _ & _).
    { intros k. cbn. rewrite elem_of_nil. split; [|tauto].
      apply not_elem_of_empty. }
    { constructor. }
    assert (Hne : u <> []).
    { intros ->. assert (Hc : Main.key_of c0 ∈ s).
      { apply H3. right. rewrite E. left. }
      apply H1 in Hc. now apply elem_of_nil in Hc. }
    destruct (selected_keys u H2 Hne) as (Hnd & Hlen & Hin).
    split; [exact Hnd|]. split; [|split; [|split]].
    + assert (1 <= len u)
        by (destruct u; [congruence | unfold len; cbn; lia]). lia.
    + intros k Hk. apply H1, Hin, Hk.
    + intros k Hk. apply H3. right. rewrite map_app, elem_of_app. now left.
    + intros k Hk. apply H3 in Hk. destruct Hk as [Hk|Hk].
      * now apply not_elem_of_empty in Hk.
      * rewrite map_app, elem_of_app in Hk. rewrite map_app, elem_of_app.
        destruct Hk as [Hk|Hk]; [now left | right].
        eapply elem_of_sublist; [exact Hk|].
        now apply (fmap_sublist Main.key_of).
Qed.

Section SmartSelectionFacts.

Context {F I : Type}.

Implicit Types (c : str * F * I) (l u top : list (str * F * I)).

Local Abbreviation key_of := (@Main.key_of F I).

Lemma candidates_distinct l top :
  NoDup (map key_of l) -> NoDup (map key_of top) -> 3 <= len top ->
  let m := if len l <? 3
           then Main.merge_top_models (list_to_set (map key_of l)) l top
           else l in
  NoDup (map key_of m) /\ 3 <= len m.
Proof.
  intros Hl Htop Hlen. cbn zeta.
  destruct (Z.ltb_spec (len l) 3) as [Hshort|Hlong]; [|split; [exact Hl|lia]].
  rewrite merge_top_models_closed.
  set (E := list_to_set (map key_of l) : gset str).
  set (extra := filter (fun c => key_of c ∉ E) top).
  assert (Hextra : NoDup (map key_of extra)).
  { eapply sublist_NoDup; [exact Htop|].
    apply (fmap_sublist key_of), sublist_filter. }
  split.
  - rewrite map_app. apply NoDup_app. split; [exact Hl|]. split.
    + intros k Hk Hk'. apply list_elem_of_fmap in Hk'.
      destruct Hk' as (c & -> & Hc).
      apply elem_of_sublist with (l2 := extra) in Hc; [|apply sublist_take].
      apply list_elem_of_filter in Hc. destruct Hc as [Hc _].
      apply Hc. unfold E. now apply elem_of_list_to_set.
    + eapply sublist_NoDup; [exact Hextra|].
      apply (fmap_sublist key_of), sublist_take.
  - assert (Hin : len (filter (fun c => ~ (key_of c ∉ E)) top) <= len l).
    { unfold len. apply inj_le.
      rewrite <- (length_map key_of (filter _ top)), <- (length_map key_of l).
      apply submseteq_length, NoDup_submseteq.
      - eapply sublist_NoDup; [exact Htop|].
        apply (fmap_sublist key_of), sublist_filter.
      - intros k Hk. apply list_elem_of_fmap in Hk.
        destruct Hk as (c & -> & Hc).
        apply list_elem_of_filter in Hc. destruct Hc as [Hc _].
        destruct (decide (key_of c ∈ E)) as [HE|HE]; [|tauto].
        unfold E in HE. now apply elem_of_list_to_set in HE. }
    pose proof (filter_length_split (fun c => key_of c ∉ E) top) as Hsplit.
    fold extra in Hsplit.
    pose proof (filter_length_le (fun c => key_of c ∉ E) top) as Hle.
    fold extra in Hle.
    unfold len in *. rewrite length_app, length_take. lia.
Qed.

End SmartSelectionFacts.

(** X28: how many models a smart query starts with.  When the selector
    scores at least three models, under distinct keys, the first
    selection is made of at least three and at most five models, under
    distinct keys that the selector scored. *)
Theorem X28_smart_selection_size {F I : Type} (ltb leb : F -> F -> bool)
    (percent_of : F -> F -> F) (zero hundred : F)
    (analyze_query : str -> list (str * F)) (model_info : str -> I)
    (query : str) (threshold_percent : F) :
  NoDup (map fst (analyze_query query)) ->
  3 <= len (analyze_query query) ->
  exists model_keys seen_keys,
    Main.first_selection
      (SmartModelSelector.select_models_by_threshold ltb leb percent_of
         zero hundred analyze_query model_info query threshold_percent)
      (SmartModelSelector.select_best_model ltb analyze_query model_info
         query 8)
    = Some (model_keys, seen_keys)
    /\ 3 <= len model_keys <= 5
    /\ NoDup model_keys
    /\ (forall k, k ∈ model_keys -> k ∈ map fst (analyze_query query)).
Proof.
  intros Hnd Hlen.
  assert (Hne : analyze_query query <> []).
  { intros H. rewrite H in Hlen. unfold len in Hlen. cbn in Hlen. lia. }
  destruct (select_models_by_threshold_facts ltb leb percent_of zero
              hundred analyze_query model_info query threshold_percent Hne)
    as (HTne & HTin & HTnd & _).
  specialize (HTnd Hnd).
  set (T := SmartModelSelector.select_models_by_threshold _ _ _ _ _ _ _ _ _)
    in *.
  pose proof (select_best_model_NoDup ltb analyze_query model_info query 8
                Hnd) as HBnd.
  pose proof (select_best_model_len ltb analyze_query model_info query 8
                ltac:(lia)) as HBlen.
  pose proof (select_best_model_elem ltb analyze_query model_info query 8)
    as HBin.
  set (B := SmartModelSelector.select_best_model _ _ _ _ _) in *.
  destruct (candidates_distinct T B HTnd HBnd ltac:(lia)) as [Hmnd Hmlen].
  unfold Main.first_selection.
  destruct (candidates_shape T B) as (extra & Hm & Hsub & _).
  rewrite Hm in *.
  destruct (T ++ extra) as [|c0 l0] eqn:E.
  { unfold len in Hmlen. cbn in Hmlen. lia. }
  rewrite <- E in *.
  pose proof (dedupe_spec (T ++ extra) [] ∅) as Hd.
  destruct (Main.dedupe [] ∅ (T ++ extra)) as [u s].
  destruct Hd as (_ & _ & _ & _ & Hu).
  { intros k. cbn. rewrite elem_of_nil. split; [|tauto].
    apply not_elem_of_empty. }
  { constructor. }
  specialize (Hu Hmnd). cbn [app] in Hu. subst u.
  assert (Hne' : T ++ extra <> []) by (rewrite E; discriminate).
  destruct (selected_keys (T ++ extra) Hmnd Hne') as (Hknd & Hklen & Hkin).
  eexists _, _. split; [reflexivity|]. split; [lia|]. split; [exact Hknd|].
  intros k Hk. apply Hkin in Hk. rewrite map_app, elem_of_app in Hk.
  destruct Hk as [Hk|Hk].
  - apply list_elem_of_fmap in Hk. destruct Hk as (c & -> & Hc).
    now apply HTin.
  - apply list_elem_of_fmap in Hk. destruct Hk as (c & -> & Hc).
    apply elem_of_sublist with (l2 := B) in Hc; [|exact Hsub].
    apply HBin in Hc. destruct Hc as [Hc _].
    apply list_elem_of_fmap. now exists (fst (fst c), snd (fst c)).
Qed.

(** X29: the replacements for failed models.  With fewer than three
    successes, the table is asked for models outside the seen keys; when
    it offers none the method gives up, and every AVAILABLE model of the
    table is a seen one.  Otherwise at least one replacement is chosen
    and no more than five less the number of successes; every
    replacement is an AVAILABLE model of the table and not a seen key;
    the replacements are distinct when the keys of the table are. *)
Theorem X29_replacement_keys_fresh (table : PrebuiltFastTable.PrebuiltFastTable)
    (successful_results : list ModelResult) (seen_keys : gset str) :
  len successful_results < 3 ->
  match Main.replacement_keys table successful_results seen_keys with
  | None =>
      forall k info,
        (k, info) ∈ PrebuiltFastTable.model_cache table ->
        PrebuiltFastTable.status info = PrebuiltFastTable.AVAILABLE ->
        k ∈ seen_keys
  | Some keys =>
      1 <= len keys <= 5 - len successful_results
      /\ (forall k, k ∈ keys ->
            (k ∉ seen_keys)
            /\ exists info,
                 (k, info) ∈ PrebuiltFastTable.model_cache table
                 /\ PrebuiltFastTable.status info
                    = PrebuiltFastTable.AVAILABLE)
      /\ (NoDup (map fst (PrebuiltFastTable.model_cache table)) ->
          NoDup keys)
  end.
Proof.
  intros Hfew. unfold Main.replacement_keys.
  pose proof (get_available_models_elem table (Some seen_keys)
                (Z.max (3 - len successful_results) 1)) as Hoffer.
  pose proof (get_available_models_NoDup table (Some seen_keys)
                (Z.max (3 - len successful_results) 1)) as Hnd.
  cbn [default from_option] in Hoffer.
  destruct (PrebuiltFastTable.get_available_models table (Some seen_keys) _)
    as [|a l] eqn:E.
  - intros k info Hin Hst.
    destruct (decide (k ∈ seen_keys)) as [Hk|Hk]; [exact Hk|].
    exfalso.
    assert (H : (k, PrebuiltFastTable.stability_score info) ∈ [])
      by (apply Hoffer; eauto).
    now apply elem_of_nil in H.
  - rewrite <- E in *.
    set (r := PrebuiltFastTable.get_available_models _ _ _) in *.
    assert (Hlen : 1 <= len r) by (rewrite E; unfold len; cbn; lia).
    rewrite slice_to_take by lia. split; [|split].
    + unfold len. rewrite length_map, length_take. unfold len in *. lia.
    + intros k Hk. apply list_elem_of_fmap in Hk.
      destruct Hk as ([k' s] & -> & Hin).
      apply elem_of_sublist with (l2 := r) in Hin; [|apply sublist_take].
      apply Hoffer in Hin. destruct Hin as (info & Hin & Hout & Hst & _).
      cbn. eauto.
    + intros Hcache. eapply sublist_NoDup; [exact (Hnd Hcache)|].
      apply (fmap_sublist fst), sublist_take.
Qed.

Lemma X29_replacement_keys_fresh_witness :
  lit "kimi_search" ∉ ({[lit "gpt_search"]} : gset str).
Proof.
  pose proof (X29_replacement_keys_fresh sample_table [] {[lit "gpt_search"]}
                ltac:(unfold len; cbn; lia)) as H.
  assert (E : Main.replacement_keys sample_table [] {[lit "gpt_search"]}
              = Some [lit "kimi_search"])
    by (vm_compute; reflexivity).
  rewrite E in H. destruct H as (_ & H & _).
  apply (H (lit "kimi_search")). left.
Defined.

Section ReplacementFacts.

Variable ex : str -> str.
Variable reg : registry.
Variable net : network.
Variable self_timeout : Z.
Variable query : str.
Variable clock : nat -> Q * Q.
Variable finished : list nat.
Variable table : PrebuiltFastTable.PrebuiltFastTable.
Variables failed_results successful_results : list ModelResult.
Variable seen_keys : gset str.

Local Abbreviation execute :=
  (fun keys =>
     execute_models ex reg net self_timeout keys query true true clock
       finished).

Lemma all_finished_elem (n i : nat) :
  all_finished n finished = true -> (i < n)%nat -> i ∈ finished.
Proof.
  unfold all_finished. rewrite forallb_forall. intros H Hi.
  specialize (H i). rewrite in_seq in H.
  assert (Hin : bool_decide (i ∈ finished) = true) by (apply H; lia).
  now apply bool_decide_eq_true in Hin.
Qed.

(** The executor returns no empty list for keys that are not empty. *)
Lemma execute_models_nonempty (keys : list str) (rr : list ModelResult) :
  keys <> [] -> execute keys = Ret rr -> rr <> [].
Proof.
  intros Hne Hexec.
  assert (H0 : 0%nat ∈ finished).
  { revert Hexec. unfold execute_models, execute_models_with.
    destruct (all_finished (length keys) finished) eqn:E; [|discriminate].
    intros _. apply (all_finished_elem (length keys)); [exact E|].
    destruct keys; [congruence | cbn; lia]. }
  rewrite (execute_models_collected _ _ _ _ _ _ _ _ _ _ _ Hexec).
  apply list_elem_of_split in H0. destruct H0 as (pre & post & ->).
  rewrite omap_app. cbn [omap].
  destruct keys as [|k keys']; [congruence|]. cbn.
  intros H. apply app_eq_nil in H. destruct H as [_ H]. discriminate.
Qed.

Lemma replacement_keys_nonempty (keys : list str) :
  len successful_results < 5 ->
  Main.replacement_keys table successful_results seen_keys = Some keys ->
  keys <> [].
Proof.
  intros Hfew. unfold Main.replacement_keys.
  destruct (PrebuiltFastTable.get_available_models _ _ _) as [|a l];
    [discriminate|].
  intros [= <-].
  assert (Hm : 1 <= Z.min (len (a :: l)) (5 - len successful_results)).
  { unfold len in *. cbn [length]. lia. }
  rewrite slice_to_take by lia.
  destruct (Z.to_nat _) as [|n] eqn:E; [lia | discriminate].
Qed.

Lemma replacement_round_appends :
  let out := Main._handle_failed_models_with_fast_table execute table
               failed_results successful_results seen_keys in
  (exists added_failed added_successful,
     snd out = (failed_results ++ added_failed,
                successful_results ++ added_successful)
     /\ Forall (fun r => status r = success /\ model_key r ∉ seen_keys)
          added_successful
     /\ Forall (fun r => status r = error /\ model_key r ∉ seen_keys)
          added_failed
     /\ (fst out = true <-> added_failed ++ added_successful <> []))
  /\ (forall keys e,
        Main.replacement_keys table successful_results seen_keys
        = Some keys ->
        execute keys = Exc e ->
        out = (false, (failed_results, successful_results))).
Proof.
  cbn zeta. unfold Main._handle_failed_models_with_fast_table.
  assert (Hnone : exists added_failed added_successful : list ModelResult,
    (failed_results, successful_results)
    = (failed_results ++ added_failed,
       successful_results ++ added_successful)
    /\ Forall (fun r => status r = success /\ model_key r ∉ seen_keys)
         added_successful
    /\ Forall (fun r => status r = error /\ model_key r ∉ seen_keys)
         added_failed
    /\ (false = true <-> added_failed ++ added_successful <> [])).
  { exists [], []. rewrite !app_nil_r. repeat split; try constructor;
      [discriminate | congruence]. }
  destruct (Main.replacement_keys table successful_results seen_keys)
    as [keys|] eqn:Ekeys; [|split; [exact Hnone | discriminate]].
  assert (Hfresh : forall k, k ∈ keys -> k ∉ seen_keys).
  { revert Ekeys. unfold Main.replacement_keys.
    pose proof (get_available_models_elem table (Some seen_keys)
                  (Z.max (3 - len successful_results) 1)) as Hoffer.
    cbn [default from_option] in Hoffer.
    destruct (PrebuiltFastTable.get_available_models _ _ _) as [|a l] eqn:E;
      [discriminate|].
    rewrite <- E in *. intros [= <-] k Hk.
    apply list_elem_of_fmap in Hk. destruct Hk as ([k' s] & -> & Hin).
    eapply elem_of_prefix in Hin; [|apply slice_to_prefix].
    apply Hoffer in Hin. destruct Hin as (info & _ & Hout & _).
    exact Hout. }
  destruct (execute_models ex reg net self_timeout keys query true true
              clock finished) as [rr|e] eqn:Eexec.
  2:{ split; [exact Hnone|]. intros keys' e' [= <-] _. reflexivity. }
  split; [|intros keys' e' [= <-] H; rewrite Eexec in H; discriminate].
  pose proof (execute_models_keys ex reg net self_timeout keys query true
                true clock finished rr Eexec) as Hkeys.
  pose proof (execute_models_statuses ex reg net self_timeout keys query
                true true clock finished rr Eexec) as Hstatus.
  assert (Hrr : Forall (fun r => model_key r ∉ seen_keys) rr).
  { apply Forall_forall. intros r Hr. apply Hfresh.
    assert (Hk : model_key r ∈ map model_key rr)
      by (apply list_elem_of_fmap; eauto).
    rewrite Hkeys in Hk. apply list_elem_of_omap in Hk.
    destruct Hk as (i & _ & Hi). eapply list_elem_of_lookup_2, Hi. }
  destruct rr as [|r rs]; [exact Hnone|].
  cbn [fst snd]. eexists _, _. split; [reflexivity|].
  assert (Hall : Forall (fun r => (status r = success \/ status r = error)
                                  /\ model_key r ∉ seen_keys) (r :: rs)).
  { apply Forall_and. split; [exact Hstatus | exact Hrr]. }
  split; [|split].
  - apply Forall_forall. intros x Hx. apply list_elem_of_filter in Hx.
    destruct Hx as [Hs Hx]. rewrite Forall_forall in Hall.
    split; [exact Hs | now apply Hall].
  - apply Forall_forall. intros x Hx. apply list_elem_of_filter in Hx.
    destruct Hx as [Hs Hx]. rewrite Forall_forall in Hall.
    destruct (Hall x Hx) as [[H|H] Hk]; [congruence | auto].
  - split; [intros _ | reflexivity].
    inversion Hstatus as [|? ? Hr _]; subst.
    rewrite !(filter_cons _ r). destruct Hr as [Hr|Hr].
    + rewrite decide_False by congruence.
      rewrite (decide_True (P := status r = success)) by exact Hr.
      intros H. apply app_eq_nil in H. destruct H as [_ H]. discriminate.
    + rewrite decide_True by congruence. discriminate.
Qed.

End ReplacementFacts.

(** X30: what the replacement round does to the two lists of results.
    It only appends: successes of models that are not seen keys to the
    successes, errors of such models to the failures; the flag is set
    exactly when something was appended.  When the executor raises, as
    it does on its global timeout, nothing is appended and the flag is
    not set.  With fewer than five successes the replacement keys, when
    there are any, are not empty, and an executor that returns then
    returns results: something is appended and the flag is set. *)
Theorem X30_replacement_round_appends (ex : str -> str) (reg : registry)
    (net : network) (self_timeout : Z) (query : str) (clock : nat -> Q * Q)
    (finished : list nat) (table : PrebuiltFastTable.PrebuiltFastTable)
    (failed_results successful_results : list ModelResult)
    (seen_keys : gset str) :
  let execute := fun keys =>
    execute_models ex reg net self_timeout keys query true true clock
      finished in
  let out := Main._handle_failed_models_with_fast_table execute table
               failed_results successful_results seen_keys in
  (exists added_failed added_successful,
     snd out = (failed_results ++ added_failed,
                successful_results ++ added_successful)
     /\ Forall (fun r => status r = success /\ model_key r ∉ seen_keys)
          added_successful
     /\ Forall (fun r => status r = error /\ model_key r ∉ seen_keys)
          added_failed
     /\ (fst out = true <-> added_failed ++ added_successful <> []))
  /\ (forall keys e,
        Main.replacement_keys table successful_results seen_keys
        = Some keys ->
        execute keys = Exc e ->
        out = (false, (failed_results, successful_results)))
  /\ (len successful_results < 5 ->
      forall keys,
        Main.replacement_keys table successful_results seen_keys
        = Some keys ->
        keys <> []
        /\ forall rr, execute keys = Ret rr -> rr <> [] /\ fst out = true).
Proof.
  cbn zeta.
  destruct (replacement_round_appends ex reg net self_timeout query clock
              finished table failed_results successful_results seen_keys)
    as [Happend Hraise].
  split; [exact Happend|]. split; [exact Hraise|].
  intros Hfew keys Hkeys.
  pose proof (replacement_keys_nonempty table successful_results seen_keys
                keys Hfew Hkeys) as Hne.
  split; [exact Hne|]. intros rr Hexec.
  pose proof (execute_models_nonempty ex reg net self_timeout query clock
                finished keys rr Hne Hexec) as Hrr.
  split; [exact Hrr|].
  unfold Main._handle_failed_models_with_fast_table.
  rewrite Hkeys, Hexec. destruct rr; [congruence | reflexivity].
Qed.

Lemma X30_replacement_round_appends_witness :
  Main.replacement_keys sample_table [] {[lit "gpt_search"]}
  = Some [lit "kimi_search"]
  /\ fst (Main._handle_failed_models_with_fast_table
            (fun keys =>
               execute_models id demo_registry refusing_network 300 keys
                 (lit "2+2?") true true (fun _ => (0, 1)%Q) [0%nat])
            sample_table [] [] {[lit "gpt_search"]})
     = true.
Proof.
  assert (E : Main.replacement_keys sample_table [] {[lit "gpt_search"]}
              = Some [lit "kimi_search"])
    by (vm_compute; reflexivity).
  split; [exact E|].
  destruct (X30_replacement_round_appends id demo_registry refusing_network
              300 (lit "2+2?") (fun _ => (0, 1)%Q) [0%nat] sample_table
              [] [] {[lit "gpt_search"]}) as (_ & _ & H).
  destruct (H ltac:(unfold len; cbn; lia) _ E) as [_ Hrun].
  destruct (execute_models id demo_registry refusing_network 300
              [lit "kimi_search"] (lit "2+2?") true true
              (fun _ => (0, 1)%Q) [0%nat]) as [rr|e] eqn:Eexec.
  - apply (Hrun rr eq_refl).
  - vm_compute in Eexec. discriminate.
Defined.


Lemma X28_smart_selection_size_witness :
  exists model_keys seen_keys,
    Main.first_selection
      (SmartModelSelector.select_models_by_threshold PyList.float_lt
         Qle_bool sample_percent 0%Q 100%Q sample_scores (fun k => k)
         (lit "2+2?") 70%Q)
      (SmartModelSelector.select_best_model PyList.float_lt sample_scores
         (fun k => k) (lit "2+2?") 8)
    = Some (model_keys, seen_keys)
    /\ 3 <= len model_keys <= 5.
Proof.
  destruct (X28_smart_selection_size PyList.float_lt Qle_bool sample_percent
              0%Q 100%Q sample_scores (fun k => k) (lit "2+2?") 70%Q
              (sample_scores_NoDup _) ltac:(unfold len; cbn; lia))
    as (model_keys & seen_keys & H & Hlen & _).
  exists model_keys, seen_keys. split; [exact H | exact Hlen].
Defined.
